(** * SciTextProcessor: entity-aware rewriting, resolution and tokenization

    A shallow embedding of [modules/preprocessing.py] (class
    [SciTextProcessor]) and the properties its specification states.

    Conventions of the embedding.
    - A Python [str] is a list of characters ([str]); string literals are
      written with the coercion from [string].  [len] is [List.length] read
      in [Z].  A character is a code point below 256 (ASCII and Latin-1),
      and white space, letters, word characters and lower case are what
      Python makes of these code points.
    - A Python [int] is a [Z].
    - A Python [dict] is an insertion-ordered association list ([PyDict]):
      assigning to an existing key keeps its position, a new key goes last,
      which is the iteration order the code relies on when it sorts
      [abbv_dict] and when it walks [entity_to_cid.items()].
    - A statement that can raise returns a [result]; the exception is kept.
    - The external collaborators (the entity recogniser, the abbreviation
      extractor, the sentence splitter, the PubChem client, the word
      tokenizer and the mat2vec post-processor) are [Variable]s of the
      sections that use them. *)

From Stdlib Require Import ZArith List String Ascii Bool Lia.
Import ListNotations.
Local Open Scope string_scope.
Local Open Scope list_scope.
Local Open Scope Z_scope.

(* ================================================================== *)
(** ** Python values *)

Definition str := list ascii.

Definition lit (s : string) : str := list_ascii_of_string s.
Coercion lit : string >-> str.

Definition str_eq_dec : forall a b : str, {a = b} + {a <> b} :=
  list_eq_dec ascii_dec.

Definition str_eqb (a b : str) : bool :=
  if str_eq_dec a b then true else false.

Definition len {A} (l : list A) : Z := Z.of_nat (List.length l).

(** [RequestError] stands for whatever a request to PubChem raises when it
    fails otherwise than by running out of time. *)
Inductive exn :=
| IndexError
| KeyError
| ValueError
| AssertionError
| AttributeError
| ZeroDivisionError
| RequestError.

Inductive result (A : Type) :=
| Ok (a : A)
| Raise (e : exn).
Arguments Ok {A} a.
Arguments Raise {A} e.

Definition bind {A B} (r : result A) (k : A -> result B) : result B :=
  match r with
  | Ok a => k a
  | Raise e => Raise e
  end.

Notation "x <- r ;; k" := (bind r (fun x => k))
  (at level 61, r at next level, right associativity).
Notation "' p <- r ;; k" := (bind r (fun p => k))
  (at level 61, p pattern, r at next level, right associativity).

(** *** Slices and subscripts

    [text[:i]], [text[i:]] and [text[i:j]] never raise: a negative bound
    counts from the end and every bound is clamped to [0 .. len].
    [text[i]] raises [IndexError] outside [-len .. len-1]. *)

Definition clamp (n i : Z) : Z :=
  if i <? 0 then Z.max 0 (i + n) else Z.min i n.

Definition slice_to (t : str) (i : Z) : str :=
  firstn (Z.to_nat (clamp (len t) i)) t.

Definition slice_from (t : str) (i : Z) : str :=
  skipn (Z.to_nat (clamp (len t) i)) t.

Definition slice (t : str) (i j : Z) : str :=
  let a := clamp (len t) i in
  let b := clamp (len t) j in
  firstn (Z.to_nat (b - a)) (skipn (Z.to_nat a) t).

Definition subscript {A} (l : list A) (i : Z) : result A :=
  let j := if i <? 0 then i + len l else i in
  if (j <? 0) || (len l <=? j) then Raise IndexError
  else match nth_error l (Z.to_nat j) with
       | Some a => Ok a
       | None => Raise IndexError
       end.

(** *** Insertion-ordered dictionaries *)

Module PyDict.
Section Dict.
Context {K V : Type}.
Variable eqb : K -> K -> bool.

Definition t := list (K * V).

Fixpoint get (d : t) (k : K) : option V :=
  match d with
  | [] => None
  | (k', v) :: d' => if eqb k k' then Some v else get d' k
  end.

(** [d[k] = v] *)
Fixpoint set (d : t) (k : K) (v : V) : t :=
  match d with
  | [] => [(k, v)]
  | (k', v') :: d' =>
      if eqb k k' then (k', v) :: d' else (k', v') :: set d' k v
  end.

(** [k in d.keys()] *)
Definition mem (d : t) (k : K) : bool :=
  match get d k with Some _ => true | None => false end.

(** [d[k]] as an expression *)
Definition item (d : t) (k : K) : result V :=
  match get d k with Some v => Ok v | None => Raise KeyError end.
End Dict.
End PyDict.

Definition sdict (V : Type) := @PyDict.t str V.
Definition sget {V} (d : sdict V) (k : str) : option V := PyDict.get str_eqb d k.
Definition sset {V} (d : sdict V) (k : str) (v : V) : sdict V := PyDict.set str_eqb d k v.
Definition smem {V} (d : sdict V) (k : str) : bool := PyDict.mem str_eqb d k.
Definition sitem {V} (d : sdict V) (k : str) : result V := PyDict.item str_eqb d k.

Definition idict (V : Type) := @PyDict.t Z V.
Definition iget {V} (d : idict V) (k : Z) : option V := PyDict.get Z.eqb d k.
Definition iset {V} (d : idict V) (k : Z) (v : V) : idict V := PyDict.set Z.eqb d k v.
Definition iitem {V} (d : idict V) (k : Z) : result V := PyDict.item Z.eqb d k.

(* ================================================================== *)
(** ** Element tables and the two entity patterns ([__init__], l. 47-79) *)

Definition ELEMENTS : list string :=
  [
   "H"; "He"; "Li"; "Be"; "B"; "C"; "N"; "O"; "F"; "Ne"; "Na"; "Mg"; "Al";
   "Si"; "P"; "S"; "Cl"; "Ar"; "K"; "Ca"; "Sc"; "Ti"; "V"; "Cr"; "Mn"; "Fe";
   "Co"; "Ni"; "Cu"; "Zn"; "Ga"; "Ge"; "As"; "Se"; "Br"; "Kr"; "Rb"; "Sr";
   "Y"; "Zr"; "Nb"; "Mo"; "Tc"; "Ru"; "Rh"; "Pd"; "Ag"; "Cd"; "In"; "Sn";
   "Sb"; "Te"; "I"; "Xe"; "Cs"; "Ba"; "La"; "Ce"; "Pr"; "Nd"; "Pm"; "Sm";
   "Eu"; "Gd"; "Tb"; "Dy"; "Ho"; "Er"; "Tm"; "Yb"; "Lu"; "Hf"; "Ta"; "W";
   "Re"; "Os"; "Ir"; "Pt"; "Au"; "Hg"; "Tl"; "Pb"; "Bi"; "Po"; "At"; "Rn";
   "Fr"; "Ra"; "Ac"; "Th"; "Pa"; "U"; "Np"; "Pu"; "Am"; "Cm"; "Bk"; "Cf";
   "Es"; "Fm"; "Md"; "No"; "Lr"; "Rf"; "Db"; "Sg"; "Bh"; "Hs"; "Mt"; "Ds";
   "Rg"; "Cn"; "Nh"; "Fl"; "Mc"; "Lv"; "Ts"; "Og"; "Uue"
  ]%string.

Definition ELEMENT_NAMES : list string :=
  [
   "hydrogen"; "helium"; "lithium"; "beryllium"; "boron"; "carbon";
   "nitrogen"; "oxygen"; "fluorine"; "neon"; "sodium"; "magnesium";
   "aluminium"; "silicon"; "phosphorus"; "sulfur"; "chlorine"; "argon";
   "potassium"; "calcium"; "scandium"; "titanium"; "vanadium"; "chromium";
   "manganese"; "iron"; "cobalt"; "nickel"; "copper"; "zinc"; "gallium";
   "germanium"; "arsenic"; "selenium"; "bromine"; "krypton"; "rubidium";
   "strontium"; "yttrium"; "zirconium"; "niobium"; "molybdenum";
   "technetium"; "ruthenium"; "rhodium"; "palladium"; "silver"; "cadmium";
   "indium"; "tin"; "antimony"; "tellurium"; "iodine"; "xenon"; "cesium";
   "barium"; "lanthanum"; "cerium"; "praseodymium"; "neodymium";
   "promethium"; "samarium"; "europium"; "gadolinium"; "terbium";
   "dysprosium"; "holmium"; "erbium"; "thulium"; "ytterbium"; "lutetium";
   "hafnium"; "tantalum"; "tungsten"; "rhenium"; "osmium"; "iridium";
   "platinum"; "gold"; "mercury"; "thallium"; "lead"; "bismuth"; "polonium";
   "astatine"; "radon"; "francium"; "radium"; "actinium"; "thorium";
   "protactinium"; "uranium"; "neptunium"; "plutonium"; "americium";
   "curium"; "berkelium"; "californium"; "einsteinium"; "fermium";
   "mendelevium"; "nobelium"; "lawrencium"; "rutherfordium"; "dubnium";
   "seaborgium"; "bohrium"; "hassium"; "meitnerium"; "darmstadtium";
   "roentgenium"; "copernicium"; "nihonium"; "flerovium"; "moscovium";
   "livermorium"; "tennessine"; "oganesson"; "ununennium"
  ]%string.

(** [element_dict]: filled by walking [zip(ELEMENTS, ELEMENT_NAMES)]. *)
Definition element_dict : sdict str :=
  fold_left (fun d en => sset d (lit (fst en)) (lit (snd en)))
            (combine ELEMENTS ELEMENT_NAMES) [].

Definition is_element (s : str) : bool :=
  existsb (fun e => str_eqb s (lit e)) ELEMENTS.

Definition is_digit (c : ascii) : bool :=
  let n := nat_of_ascii c in (Nat.leb 48 n && Nat.leb n 57)%bool.

Definition newline : ascii := ascii_of_nat 10.

Definition ends_with_newline (s : str) : bool :=
  match rev s with
  | c :: _ => if ascii_dec c newline then true else false
  | [] => false
  end.

(** [(E1|E2|...|[0-9])*]: the text splits into element symbols and digits.
    A backtracking matcher tries every alternative at every position, so
    it accepts exactly the texts that have such a split; symbols are one
    to three characters long. *)
Fixpoint formula_tokens (s : str) : bool :=
  match s with
  | [] => true
  | c1 :: r1 =>
      ((is_digit c1 || is_element [c1]) && formula_tokens r1)
      || match r1 with
         | [] => false
         | c2 :: r2 =>
             (is_element [c1; c2] && formula_tokens r2)
             || match r2 with
                | [] => false
                | c3 :: r3 => is_element [c1; c2; c3] && formula_tokens r3
                end
         end
  end.

Definition nonempty {A} (l : list A) : bool :=
  match l with [] => false | _ => true end.

(** [FORMULA_REGX.match(s) is not None], for [^(...)+$].  Without the
    MULTILINE flag [$] also matches just before a final newline. *)
Definition FORMULA_REGX_match (s : str) : bool :=
  (nonempty s && formula_tokens s)
  || (ends_with_newline s && nonempty (removelast s)
      && formula_tokens (removelast s)).

(** The text up to the first opening parenthesis, and the text from it. *)
Fixpoint split_at_paren (s : str) : option (str * str) :=
  match s with
  | [] => None
  | c :: r =>
      if ascii_dec c "("%char then Some ([], s)
      else match split_at_paren r with
           | Some (a, b) => Some (c :: a, b)
           | None => None
           end
  end.

Definition in_chars (c : ascii) (cs : string) : bool :=
  existsb (fun x => if ascii_dec c x then true else false) (lit cs).

(** [[IV|iv]|[Vv]?[Ii]{0,3}] against the whole of [b]: one character of
    the class (the bar is a member of it), or an optional V followed by at
    most three I. *)
Definition valence_body (b : str) : bool :=
  match b with
  | [c] => in_chars c "IV|iv"
  | _ => false
  end
  || (let b' := match b with
                | c :: r => if in_chars c "Vv" then r else b
                | [] => []
                end in
      Nat.leb (List.length b') 3 && forallb (fun c => in_chars c "Ii") b').

(** Groups 1 and 2 of [^(E1|...)(\((...)\))$] when the match must end at
    the end of [s].  No symbol contains a parenthesis, so group 1 is the
    text before the first one. *)
Definition valence_groups (s : str) : option (str * str) :=
  match split_at_paren s with
  | Some (elem, paren) =>
      match paren, rev paren with
      | _ :: inner, last :: _ =>
          if is_element elem
             && (if ascii_dec last ")"%char then true else false)
             && nonempty inner
             && valence_body (removelast inner)
          then Some (elem, paren) else None
      | _, _ => None
      end
  | None => None
  end.

(** [VALENCE_REGX.match(s)]: [Some (group(1), group(2))] or [None]. *)
Definition VALENCE_REGX_match (s : str) : option (str * str) :=
  match valence_groups s with
  | Some g => Some g
  | None =>
      if ends_with_newline s then valence_groups (removelast s) else None
  end.

(** [str.lower()], character by character: [A-Z] and the capital letters
    of Latin-1 (192 to 222, but the multiplication sign 215) have their
    small letter 32 places up; nothing else changes. *)
Definition lower_char (c : ascii) : ascii :=
  let n := nat_of_ascii c in
  if ((Nat.leb 65 n && Nat.leb n 90)
      || (Nat.leb 192 n && Nat.leb n 222 && negb (Nat.eqb n 215)))%bool
  then ascii_of_nat (n + 32) else c.

Definition lower (s : str) : str := map lower_char s.

(* ================================================================== *)
(** ** Construction: cleaning a corpus of abstracts ([__init__], l. 110-132)

    [clean_abstract] (l. 145-232) is a parameter of this section: the rule
    set that strips headings and copyright lines may itself return or
    raise, and nothing proved about the loop below depends on which. *)

Record cleaning := mkCleaning {
  c_clean_texts : list str;
  c_dropped_idxs : list Z;
  c_warned : bool;
  c_too_short : bool;
  c_stdout : list str            (* what was written to [sys.stdout] *)
}.

Definition min_len : Z := 5.

(** ["\r\033[K"]: carriage return, escape, and the two characters that
    clear the line. *)
Definition CLEAR_LINE : str := ascii_of_nat 13 :: ascii_of_nat 27 :: lit "[K".

Definition WARN_EMPTY : str :=
  CLEAR_LINE
  ++ lit "WARNING: TEXT LIST CONTAINS EMPTY ABSTRACTS. NOT ALL SAMPLES CAN BE CLEANED.".
Definition WARN_SHORT : str :=
  CLEAR_LINE
  ++ lit "WARNING: SOME ABSTRACTS WERE DROPPED DUE TO LENGTH. CHECK dropped_idxs FOR IDX NUMBERS.".
(** What [print('\n')] writes: the line break and the one [print] adds. *)
Definition BLANK_LINE : str := [newline; newline].

(** The [texts] argument: [None], one [str], or a list whose entries may
    be [None]. *)
Inductive texts_arg :=
| TextsNone
| TextsStr (s : str)
| TextsList (l : list (option str)).

Definition texts_of (a : texts_arg) : list (option str) :=
  match a with
  | TextsNone => []
  | TextsStr s => [Some s]
  | TextsList l => l
  end.

Section Init.
Variable clean_abstract : str -> result str.

(** One turn of [for i, abstract in enumerate(self.texts)].  The state
    reached so far is returned with the exception, so that what had been
    written before a raise stays visible. *)
Definition clean_step (i : Z) (abstract : option str) (c : cleaning)
  : cleaning * option exn :=
  match abstract with
  | None =>
      let c1 := mkCleaning (c_clean_texts c) (c_dropped_idxs c) true
                           (c_too_short c) (c_stdout c ++ [WARN_EMPTY]) in
      (* l. 120: [self.dropped_idxs[i]], a subscript expression *)
      match subscript (c_dropped_idxs c1) i with
      | Ok _ => (c1, None)
      | Raise e => (c1, Some e)
      end
  | Some a =>
      match clean_abstract a with
      | Raise e => (c, Some e)
      | Ok a' =>
          if len a' <? min_len
          then (mkCleaning (c_clean_texts c) (c_dropped_idxs c ++ [i])
                           (c_warned c) true (c_stdout c), None)
          else (mkCleaning (c_clean_texts c ++ [a']) (c_dropped_idxs c)
                           (c_warned c) (c_too_short c) (c_stdout c), None)
      end
  end.

Fixpoint clean_loop (i : Z) (texts : list (option str)) (c : cleaning)
  : cleaning * option exn :=
  match texts with
  | [] => (c, None)
  | a :: rest =>
      match clean_step i a c with
      | (c1, None) => clean_loop (i + 1) rest c1
      | stop => stop
      end
  end.

(** The cleaning block of [__init__] for [type == 'abstract']. *)
Definition init_clean (texts : texts_arg) : cleaning * option exn :=
  match clean_loop 0 (texts_of texts) (mkCleaning [] [] false false []) with
  | (c, None) =>
      if c_too_short c
      then (mkCleaning (c_clean_texts c) (c_dropped_idxs c) (c_warned c)
                       (c_too_short c)
                       (c_stdout c ++ [WARN_SHORT; BLANK_LINE]), None)
      else if c_warned c
      then (mkCleaning (c_clean_texts c) (c_dropped_idxs c) (c_warned c)
                       (c_too_short c) (c_stdout c ++ [BLANK_LINE]), None)
      else (c, None)
  | stop => stop
  end.
End Init.

(* ================================================================== *)
(** ** What the chemistry toolkit returns for a text *)

(** A chemical entity mention of [Document(text).cems]. *)
Record cem := mkCem { cem_text : str; cem_start : Z; cem_end : Z }.

(** One entry of [Document(text).abbreviation_definitions]: the tokens of
    the short form (never empty, [abbv[0][0]] is its first token), the
    tokens of the long form ([abbv[1]]) and the entity tag ([abbv[-1]]). *)
Record abbv_def := mkAbbv {
  abbv_first : str;
  abbv_long : list str;
  abbv_tag : option str
}.

(* ================================================================== *)
(** ** Abbreviation removal ([remove_abbreviations], l. 473-543) *)

(** [' '.join(tokens)] *)
Fixpoint join_space (tokens : list str) : str :=
  match tokens with
  | [] => []
  | [t] => t
  | t :: rest => t ++ " "%char :: join_space rest
  end.

(** l. 496-502: a backslash is put before every [+]. *)
Definition escape_abbv (name : str) : str :=
  flat_map (fun c => if in_chars c "+" then ["\"%char; c] else [c]) name.

(** The literal text that the escaped name stands for inside a pattern. *)
Fixpoint regex_literal (escaped : str) : str :=
  match escaped with
  | [] => []
  | c :: r =>
      match r with
      | d :: _ =>
          if (if ascii_dec c "\"%char then true else false) && in_chars d "+"
          then regex_literal r
          else c :: regex_literal r
      | [] => [c]
      end
  end.

(** [\s], and the white space of [str.split()] and [str.strip()]: tab to
    carriage return, the four separators, space, next line (133) and the
    no-break space (160). *)
Definition is_space (c : ascii) : bool :=
  let n := nat_of_ascii c in
  ((Nat.leb 9 n && Nat.leb n 13) || (Nat.leb 28 n && Nat.leb n 32)
   || Nat.eqb n 133 || Nat.eqb n 160)%bool.

(** [[.,;\s]] *)
Definition is_delim (c : ascii) : bool := in_chars c ".,;" || is_space c.

Fixpoint starts_with (p t : str) : option str :=
  match p, t with
  | [], _ => Some t
  | a :: p', b :: t' => if ascii_dec a b then starts_with p' t' else None
  | _ :: _, [] => None
  end.

(** A character that is syntax in a pattern.  The plus is one, and
    reaches the pattern of l. 540 behind the backslash that l. 496-502 put
    before it. *)
Definition regex_special (c : ascii) : bool := in_chars c ".^$*+?{}[]\|()".

(** A short form that stands for itself in the pattern of l. 540: nothing
    in it is syntax but the plus, which is escaped. *)
Definition pattern_plain (abbv_name : str) : bool :=
  forallb (fun c => in_chars c "+" || negb (regex_special c)) abbv_name.

(** A long form that stands for itself in the replacement of l. 540: it
    holds no backslash. *)
Definition template_plain (non_abbv : str) : bool :=
  forallb (fun c => negb (in_chars c "\")) non_abbv.

(** [re.sub(r'([\s])ABBV([.,;\s]|$)', r' FULL\2', text)] for a short form
    that is [pattern_plain] before its escaping and a long form that is
    [template_plain]: the pattern then matches the short form letter by
    letter.  In any other short form [re] reads syntax, and the pattern
    may match other texts or be refused; the scan below is the
    substitution of the code for plain forms only, and the theorems on
    what it puts in a text are stated for those.  The scan goes left to
    right; a match takes the
    white space before the short form and the delimiter after it, and the
    search resumes behind the delimiter.  [skip] counts the characters of
    the current match still to be passed over. *)
Fixpoint re_sub_scan (abbv full : str) (skip : nat) (t : str) : str :=
  match t with
  | [] => []
  | c :: r =>
      match skip with
      | S k => re_sub_scan abbv full k r
      | O =>
          if is_space c then
            match starts_with abbv r with
            | Some [] => " "%char :: full
            | Some (d :: _) =>
                if is_delim d
                then " "%char :: full ++ d :: re_sub_scan abbv full (List.length abbv + 1) r
                else c :: re_sub_scan abbv full 0 r
            | None => c :: re_sub_scan abbv full 0 r
            end
          else c :: re_sub_scan abbv full 0 r
      end
  end.

Definition re_sub_abbv (abbv non_abbv text : str) : str :=
  re_sub_scan (regex_literal abbv) non_abbv 0 text.

(** The first pair with the least start: [np.argmin] returns the first
    index of the minimum and raises [ValueError] on an empty list. *)
Fixpoint first_min (spans : list (Z * Z)) : result (Z * Z) :=
  match spans with
  | [] => Raise ValueError
  | s :: rest =>
      match first_min rest with
      | Ok m => Ok (if fst m <? fst s then m else s)
      | Raise _ => Ok s
      end
  end.

Definition spans_named (cems : list cem) (name : str) : list (Z * Z) :=
  map (fun c => (cem_start c, cem_end c))
      (filter (fun c => str_eqb (cem_text c) name) cems).

(** Stable insertion sort, as [sorted(..., key=...)] and [list.sort]. *)
Fixpoint insert_by {A} (key : A -> Z) (x : A) (l : list A) : list A :=
  match l with
  | [] => [x]
  | y :: l' => if key x <? key y then x :: l else y :: insert_by key x l'
  end.

Definition sort_by {A} (key : A -> Z) (l : list A) : list A :=
  fold_left (fun acc x => insert_by key x acc) l [].

Definition low_idx_of (cems : list cem) (name : str) : Z :=
  match first_min (spans_named cems name) with
  | Ok m => fst m
  | Raise _ => 0
  end.

(** l. 490-512: one entry [name -> [long form, low_idx]] per definition
    that carries an entity tag. *)
Definition build_abbv_dict (cems : list cem) (abbvs : list abbv_def)
  : sdict (str * Z) :=
  fold_left
    (fun d a =>
       match abbv_tag a with
       | Some _ =>
           let abbv_name := escape_abbv (abbv_first a) in
           sset d abbv_name (join_space (abbv_long a), low_idx_of cems abbv_name)
       | None => d
       end)
    abbvs [].

(** l. 526-528 and 535-537: when the characters around the span are the
    two parentheses, cut from two before the span to one behind it. *)
Definition drop_definition (text : str) (index_change cs ce : Z)
  : result (str * Z) :=
  a <- subscript text (cs + index_change - 1) ;;
  b <- subscript text (ce + index_change) ;;
  if str_eqb [a; b] "()"
  then Ok (slice_to text (cs - 2 + index_change)
             ++ slice_from text (ce + 1 + index_change),
           index_change + (cs - ce - 3))
  else Ok (text, index_change).

(** One turn of [for abbv in abbv_dict.keys()] (l. 515-542). *)
Definition abbv_step (cems : list cem) (st : str * Z)
    (entry : str * (str * Z)) : result (str * Z) :=
  let '(text, index_change) := st in
  let '(abbv, (non_abbv, low_idx)) := entry in
  if low_idx =? 0 then Ok st
  else
    let spans := spans_named cems abbv in
    '(text1, ic1) <-
      match spans with
      | [(cs, ce)] => drop_definition text index_change cs ce
      | _ => '(cs, ce) <- first_min spans ;;
             drop_definition text index_change cs ce
      end ;;
    Ok (re_sub_abbv abbv non_abbv text1, ic1).

Fixpoint abbv_loop (cems : list cem) (entries : list (str * (str * Z)))
    (st : str * Z) : result (str * Z) :=
  match entries with
  | [] => Ok st
  | e :: rest => st1 <- abbv_step cems st e ;; abbv_loop cems rest st1
  end.

Definition abbv_key (e : str * (str * Z)) : Z := snd (snd e).

Section Abbreviations.
Variable doc_cems : str -> list cem.
Variable doc_abbvs : str -> list abbv_def.

Definition remove_abbreviations (text : str) : result str :=
  let abbvs := doc_abbvs text in
  let cems := doc_cems text in
  match abbvs with
  | [] => Ok text
  | _ =>
      let abbv_dict := sort_by abbv_key (build_abbv_dict cems abbvs) in
      '(text1, _) <- abbv_loop cems abbv_dict (text, 0) ;;
      Ok text1
  end.
End Abbreviations.

(* ================================================================== *)
(** ** The processor object *)

(** A PubChem compound, as far as the code reads it. *)
Record compound := mkCompound { cid : Z; iupac_name : option str }.

(** What one call of [pcp.get_compounds] does: it runs out of its ten
    seconds, it returns a list of compounds, or it fails with an exception
    of its own. *)
Inductive reply := Timeout | Compounds (cs : list compound) | Fails.

(** [[cid, iupac_name]] *)
Definition cid_entry := (option Z * option str)%type.
(** [(name, start, end)] *)
Definition entity := (str * Z * Z)%type.
(** [(replacement_name, start, end, name)] *)
Definition entity_record := (str * Z * Z * str)%type.

(** The [save] argument of [normalize_chemical_entities]: [False], or
    [True] in a run of the interpreter in which [list(set(l))] lists the
    names of [l] as [order l] (the order of a set of strings depends on
    the hashes of the run). *)
Inductive save_arg :=
| NoSave
| Saving (order : list str -> list str).

Inductive tokens_out :=
| FlatTokens (l : list str)
| SentTokens (l : list (list str)).

Definition idx_entry := (str * Z)%type.

Inductive idxs_out :=
| FlatIdxs (l : list idx_entry)
| SentIdxs (l : list (list idx_entry)).

(** [clean_texts] is [None] where the attribute does not exist: it is
    assigned for [type == 'abstract'] only (l. 110-111).
    [timedout_entities] is assigned at the start of every run (l. 311),
    before [search_pubchem] is called from it; the record has the list
    from the start. *)
Record processor := mkProcessor {
  clean_texts : option (list str);
  normalized_texts : list str;
  entity_counts : sdict Z;
  entities_per_text : idict (list entity_record);
  entity_to_cid : sdict cid_entry;
  entity_to_synonyms : sdict (list str);
  tokenized_texts : idict tokens_out;
  entity_idxs : idict idxs_out;
  timedout_entities : list str;
  requests : list str   (* ghost: every name sent to PubChem, oldest first *)
}.

Definition set_normalized_texts v p :=
  mkProcessor (clean_texts p) v (entity_counts p) (entities_per_text p)
    (entity_to_cid p) (entity_to_synonyms p) (tokenized_texts p)
    (entity_idxs p) (timedout_entities p) (requests p).
Definition set_entity_counts v p :=
  mkProcessor (clean_texts p) (normalized_texts p) v (entities_per_text p)
    (entity_to_cid p) (entity_to_synonyms p) (tokenized_texts p)
    (entity_idxs p) (timedout_entities p) (requests p).
Definition set_entities_per_text v p :=
  mkProcessor (clean_texts p) (normalized_texts p) (entity_counts p) v
    (entity_to_cid p) (entity_to_synonyms p) (tokenized_texts p)
    (entity_idxs p) (timedout_entities p) (requests p).
Definition set_entity_to_cid v p :=
  mkProcessor (clean_texts p) (normalized_texts p) (entity_counts p)
    (entities_per_text p) v (entity_to_synonyms p) (tokenized_texts p)
    (entity_idxs p) (timedout_entities p) (requests p).
Definition set_entity_to_synonyms v p :=
  mkProcessor (clean_texts p) (normalized_texts p) (entity_counts p)
    (entities_per_text p) (entity_to_cid p) v (tokenized_texts p)
    (entity_idxs p) (timedout_entities p) (requests p).
Definition set_tokenized_texts v p :=
  mkProcessor (clean_texts p) (normalized_texts p) (entity_counts p)
    (entities_per_text p) (entity_to_cid p) (entity_to_synonyms p) v
    (entity_idxs p) (timedout_entities p) (requests p).
Definition set_entity_idxs v p :=
  mkProcessor (clean_texts p) (normalized_texts p) (entity_counts p)
    (entities_per_text p) (entity_to_cid p) (entity_to_synonyms p)
    (tokenized_texts p) v (timedout_entities p) (requests p).
Definition set_timedout_entities v p :=
  mkProcessor (clean_texts p) (normalized_texts p) (entity_counts p)
    (entities_per_text p) (entity_to_cid p) (entity_to_synonyms p)
    (tokenized_texts p) (entity_idxs p) v (requests p).
Definition set_requests v p :=
  mkProcessor (clean_texts p) (normalized_texts p) (entity_counts p)
    (entities_per_text p) (entity_to_cid p) (entity_to_synonyms p)
    (tokenized_texts p) (entity_idxs p) (timedout_entities p) v.

(** The object [__init__] leaves behind (l. 134-140) for
    [type == 'abstract'], given the cleaned abstracts, and for any other
    [type]. *)
Definition new_processor (cleaned : list str) : processor :=
  mkProcessor (Some cleaned) [] [] [] [] [] [] [] [] [].

Definition bare_processor : processor :=
  mkProcessor None [] [] [] [] [] [] [] [] [].

(** [SciTextProcessor(texts, type)] with the rule set [clean_abstract]. *)
Definition init (clean_abstract : str -> result str) (texts : texts_arg)
    (type : str) : result processor :=
  if str_eqb type "abstract" then
    match init_clean clean_abstract texts with
    | (c, None) => Ok (new_processor (c_clean_texts c))
    | (_, Some e) => Raise e
    end
  else Ok bare_processor.

(* ================================================================== *)
(** ** Entity normalization ([normalize_chemical_entities], l. 283-416) *)

(** l. 317-327: the names that are hard coded. *)
Definition hardcode_entities (p : processor) : processor :=
  let e := entity_to_cid p in
  let e := sset e "CO" (Some 281, Some (lit "carbon monoxide")) in
  let e := sset e "Co" (Some 104730, Some (lit "cobalt")) in
  let e := sset e "NO" (Some 145068, Some (lit "nitric oxide")) in
  let e := sset e "No" (Some 24822, Some (lit "nobelium")) in
  let e := sset e "sugar" (None, None) in
  let e := sset e "chloro" (None, None) in
  let e := sset e "alcohol" (None, None) in
  let s := entity_to_synonyms p in
  let s := sset s "carbon monoxide" [lit "CO"] in
  let s := sset s "cobalt" [lit "Co"] in
  let s := sset s "nitric oxide" [lit "NO"] in
  let s := sset s "nobelium" [lit "No"] in
  set_entity_to_synonyms s (set_entity_to_cid e p).

(** The name a count is kept under: the canonical name when there is one,
    the mention name otherwise. *)
Definition count_key (k : str) (v : cid_entry) : str :=
  match snd v with
  | None => k
  | Some canonical => canonical
  end.

(** l. 328-332: every entry of [entity_to_cid] gets the count 1. *)
Definition seed_counts (p : processor) : processor :=
  set_entity_counts
    (fold_left (fun counts kv => sset counts (count_key (fst kv) (snd kv)) 1)
               (entity_to_cid p) (entity_counts p))
    p.

(** l. 351-356: a symbol with a valence in parentheses has the symbol
    replaced by the name of the element. *)
Definition valence_rewrite (t : str) : result str :=
  match VALENCE_REGX_match t with
  | Some (elem, valence) =>
      elem_name <- sitem element_dict elem ;; Ok (elem_name ++ valence)
  | None => Ok t
  end.

(** l. 359-362: a formula keeps its case, anything else is lowered. *)
Definition case_rule (t : str) : str :=
  if FORMULA_REGX_match t then t else lower t.

(** The [name] of l. 360/362 for a mention with text [t]. *)
Definition mention_name (t : str) : result str :=
  t' <- valence_rewrite t ;; Ok (case_rule t').

Definition BOLD_ON : str := ascii_of_nat 27 :: lit "[1m".
Definition BOLD_OFF : str := ascii_of_nat 27 :: lit "[0m".

(** One turn of [for entity in entity_list] (l. 398-411). *)
Definition replace_step (write_bold : bool) (e2c : sdict cid_entry)
    (st : str * Z * list entity_record) (ent : entity)
  : result (str * Z * list entity_record) :=
  let '(text, index_change, recs) := st in
  let '(name, start, stop) := ent in
  v <- sitem e2c name ;;
  let replacement_name := count_key name v in
  let '(replacement_delta, text1) :=
    if write_bold
    then (len replacement_name - (stop - start) + 8,
          slice_to text (start + index_change) ++ BOLD_ON ++ replacement_name
            ++ BOLD_OFF ++ slice_from text (stop + index_change))
    else (len replacement_name - (stop - start),
          slice_to text (start + index_change) ++ replacement_name
            ++ slice_from text (stop + index_change)) in
  let index_change1 := index_change + replacement_delta in
  Ok (text1, index_change1,
      recs ++ [(replacement_name, start + index_change1 - replacement_delta,
                stop + index_change1, name)]).

Fixpoint replace_entities (write_bold : bool) (e2c : sdict cid_entry)
    (entity_list : list entity) (st : str * Z * list entity_record)
  : result (str * Z * list entity_record) :=
  match entity_list with
  | [] => Ok st
  | ent :: rest =>
      st1 <- replace_step write_bold e2c st ent ;;
      replace_entities write_bold e2c rest st1
  end.

Definition entity_start (e : entity) : Z := snd (fst e).

Section Normalize.
(** The reply of PubChem to a request, given how many requests were made
    before it. *)
Variable get_compounds : nat -> str -> reply.
Variable doc_cems : str -> list cem.
Variable doc_abbvs : str -> list abbv_def.

(** [search_pubchem] (l. 446-471): up to [attempts] requests.  Only the
    timeout is caught (l. 466); any other exception of the request leaves
    the function. *)
Fixpoint search_loop (name : str) (attempts : nat) (p : processor)
  : result (list compound * processor) :=
  match attempts with
  | O => Ok ([], set_timedout_entities (timedout_entities p ++ [name]) p)
  | S k =>
      let p1 := set_requests (requests p ++ [name]) p in
      match get_compounds (List.length (requests p)) name with
      | Compounds c => Ok (c, p1)
      | Timeout => search_loop name k p1
      | Fails => Raise RequestError
      end
  end.

Definition search_pubchem (name : str) (attempts : Z) (p : processor)
  : result (list compound * processor) :=
  search_loop name (Z.to_nat attempts) p.

(** l. 368-387: a name that is not a key of [entity_to_cid] yet. *)
Definition register_new (name : str) (attempts : Z) (p : processor)
  : result processor :=
  '(c, p1) <- search_pubchem name attempts p ;;
  match c with
  | [] =>
      Ok (set_entity_counts (sset (entity_counts p1) name 1)
            (set_entity_to_cid (sset (entity_to_cid p1) name (None, None)) p1))
  | c0 :: _ =>
      match iupac_name c0 with
      | Some iupac =>
          let p2 := set_entity_to_cid
                      (sset (entity_to_cid p1) name (Some (cid c0), Some iupac))
                      p1 in
          let syn := entity_to_synonyms p2 in
          let p3 := set_entity_to_synonyms
                      (match sget syn iupac with
                       | None => sset syn iupac [name]
                       | Some l => sset syn iupac (l ++ [name])
                       end) p2 in
          Ok (set_entity_counts (sset (entity_counts p3) iupac 1) p3)
      | None =>
          Ok (set_entity_counts (sset (entity_counts p1) name 1)
                (set_entity_to_cid
                   (sset (entity_to_cid p1) name (Some (cid c0), None)) p1))
      end
  end.

(** l. 388-392: a name that is a key already. *)
Definition count_again (name : str) (p : processor) : result processor :=
  v <- sitem (entity_to_cid p) name ;;
  let key := count_key name v in
  n <- sitem (entity_counts p) key ;;
  Ok (set_entity_counts (sset (entity_counts p) key (n + 1)) p).

(** One turn of [for cem in cems] (l. 349-392). *)
Definition resolve_cem (attempts : Z) (p : processor) (c : cem)
  : result (processor * entity) :=
  name <- mention_name (cem_text c) ;;
  let ent := (name, cem_start c, cem_end c) in
  if negb (smem (entity_to_cid p) name)
  then p1 <- register_new name attempts p ;; Ok (p1, ent)
  else p1 <- count_again name p ;; Ok (p1, ent).

Fixpoint resolve_cems (attempts : Z) (p : processor) (cems : list cem)
  : result (processor * list entity) :=
  match cems with
  | [] => Ok (p, [])
  | c :: rest =>
      '(p1, ent) <- resolve_cem attempts p c ;;
      '(p2, ents) <- resolve_cems attempts p1 rest ;;
      Ok (p2, ent :: ents)
  end.

(** The body of [for i in trange(...)] for one text (l. 335-416). *)
Definition normalize_text (remove_abbr write_bold : bool) (attempts : Z)
    (p : processor) (i : Z) (text : str) : result processor :=
  text1 <- (if remove_abbr
            then remove_abbreviations doc_cems doc_abbvs text
            else Ok text) ;;
  '(p1, entity_list) <- resolve_cems attempts p (doc_cems text1) ;;
  let entity_list := sort_by entity_start entity_list in
  '(text2, _, recs) <-
      replace_entities write_bold (entity_to_cid p1) entity_list
                       (text1, 0, []) ;;
  Ok (set_normalized_texts (normalized_texts p1 ++ [text2])
        (set_entities_per_text (iset (entities_per_text p1) i recs) p1)).

(** l. 413-444, behind the text with index [i] of a run whose last index
    is [last].  The test of l. 414 divides by [save_freq] whether or not
    anything is saved.  At a save point with [save=True] every list of
    synonyms is replaced by [list(set(synonyms))] (l. 421-422); the files
    written there are not part of the state. *)
Definition save_point (save : save_arg) (save_freq : Z) (i last : Z)
    (p : processor) : result processor :=
  if save_freq =? 0 then Raise ZeroDivisionError
  else if ((i + 1) mod save_freq =? 0) || (i =? last) then
    match save with
    | NoSave => Ok p
    | Saving order =>
        Ok (set_entity_to_synonyms
              (fold_left (fun d kv => sset d (fst kv) (order (snd kv)))
                         (entity_to_synonyms p) (entity_to_synonyms p))
              p)
    end
  else Ok p.

Fixpoint normalize_loop (remove_abbr write_bold : bool) (attempts : Z)
    (save : save_arg) (save_freq last : Z)
    (p : processor) (i : Z) (texts : list str) : result processor :=
  match texts with
  | [] => Ok p
  | text :: rest =>
      p1 <- normalize_text remove_abbr write_bold attempts p i text ;;
      p2 <- save_point save save_freq i last p1 ;;
      normalize_loop remove_abbr write_bold attempts save save_freq last
                     p2 (i + 1) rest
  end.

(** [normalize_chemical_entities]; [texts = None] stands for ['default'],
    which reads [self.clean_texts] (l. 313-314). *)
Definition normalize_chemical_entities (texts : option (list str))
    (remove_abbr write_bold : bool) (search_attempts : Z)
    (save : save_arg) (save_freq : Z) (p : processor)
  : result processor :=
  let p := set_timedout_entities [] p in
  texts <- match texts with
           | Some l => Ok l
           | None =>
               match clean_texts p with
               | Some l => Ok l
               | None => Raise AttributeError
               end
           end ;;
  let p := seed_counts (hardcode_entities p) in
  let start_idx := len (normalized_texts p) in
  normalize_loop remove_abbr write_bold search_attempts save save_freq
                 (len texts + start_idx - 1) p start_idx texts.
End Normalize.

(* ================================================================== *)
(** ** Tokenization ([tokenize] and its helpers, l. 574-754) *)

(** An element of [token_list]: a run of plain text, or the one-element
    list that holds an entity. *)
Inductive item :=
| Plain (s : str)
| Entity (l : list str).

(** The [for j, span in enumerate(entity_spans)] of l. 695-704. *)
Fixpoint extract_loop (text : str) (spans : list (Z * Z)) (prev_start : Z)
  : list item :=
  match spans with
  | [] => []
  | (start, stop) :: rest =>
      let text_add := slice text prev_start start in
      (if nonempty text_add then [Plain text_add] else [])
        ++ [Entity [slice text start stop]]
        ++ (match rest with
            | [] => [Plain (slice_from text stop)]
            | _ => []
            end)
        ++ extract_loop text rest stop
  end.

Definition extract_entity_tokens (text : str) (entity_spans : list (Z * Z))
  : list item :=
  match entity_spans with
  | [] => [Plain text]
  | _ => extract_loop text entity_spans 0
  end.

(** [name.replace(' ', '_')] *)
Definition underscore (name : str) : str :=
  map (fun c => if ascii_dec c " "%char then "_"%char else c) name.

(** l. 641-644: the spans kept for a sentence that ends at [split] when the
    sentence before it ended at [prior_split]. *)
Definition sentence_entities (entity_spans : list (Z * Z))
    (prior_split split : Z) : list (Z * Z) :=
  map (fun span => (fst span - split, snd span - split))
      (filter (fun span => (snd span <? split) && (prior_split <=? fst span))
              entity_spans).

(** l. 611-617: the spans of the entry, and the text with every name put
    back with underscores for spaces. *)
Fixpoint place_entities (text : str) (entry : list entity_record)
  : str * list (Z * Z) :=
  match entry with
  | [] => (text, [])
  | (name, start, stop, _) :: rest =>
      let text1 := slice_to text start ++ underscore name ++ slice_from text stop in
      let '(text2, spans) := place_entities text1 rest in
      (text2, (start, stop) :: spans)
  end.

Section Tokenize.
(** [ChemWordTokenizer().tokenize] *)
Variable cwt_tokenize : str -> list str.
(** [split_token] (l. 739-754), the unit splitting rule; the theorems
    of this development hold for any rule. *)
Variable split_token : str -> list str.
(** [MaterialsTextProcessor().process(tokens, exclude_punct=...,
    normalize_materials=False, split_oxidation=False)[0]] *)
Variable mtp_process : list str -> bool -> list str.
(** [Paragraph(text).sentences], each with its text and its end. *)
Variable para_sentences : str -> list (str * Z).

(** One turn of [for j, item in enumerate(token_list)] (l. 725-736). *)
Definition process_item (st : list str * list idx_entry) (it : item)
  : result (list str * list idx_entry) :=
  let '(tokens, idxs) := st in
  match it with
  | Plain s =>
      Ok (tokens ++ flat_map split_token (cwt_tokenize s), idxs)
  | Entity l =>
      let tokens1 := tokens ++ l in
      name <- subscript l 0 ;;
      Ok (tokens1, idxs ++ [(name, len tokens1 - 1)])
  end.

Fixpoint process_items (token_list : list item)
    (st : list str * list idx_entry) : result (list str * list idx_entry) :=
  match token_list with
  | [] => Ok st
  | it :: rest => st1 <- process_item st it ;; process_items rest st1
  end.

Definition process_token_list (token_list : list item)
  : result (list str * list idx_entry) :=
  process_items token_list ([], []).

(** The [for j, sentence in enumerate(para.sentences)] of l. 637-659. *)
Fixpoint tokenize_sentences (exclude_punct : bool)
    (entity_spans : list (Z * Z)) (sentences : list (str * Z))
    (prior_split : Z) : result (list (list str) * list (list idx_entry)) :=
  match sentences with
  | [] => Ok ([], [])
  | (sentence, split) :: rest =>
      let ents := sentence_entities entity_spans prior_split split in
      '(sentence_tokens, sentence_idxs) <-
          process_token_list (extract_entity_tokens sentence ents) ;;
      '(tokens, idxs) <-
          tokenize_sentences exclude_punct entity_spans rest split ;;
      Ok (mtp_process sentence_tokens exclude_punct :: tokens,
          sentence_idxs :: idxs)
  end.

(** The body of [for i in trange(len(texts))] (l. 607-660). *)
Definition tokenize_text (entities : idict (list entity_record))
    (use_entities keep_sentences exclude_punct : bool)
    (p : processor) (i : Z) (text : str) : result processor :=
  '(text1, entity_spans) <-
      (if use_entities
       then entry <- iitem entities i ;; Ok (place_entities text entry)
       else Ok (text, [])) ;;
  if negb keep_sentences then
    '(tokens, idxs) <-
        process_token_list (extract_entity_tokens text1 entity_spans) ;;
    Ok (set_tokenized_texts
          (iset (tokenized_texts p) i
                (FlatTokens (mtp_process tokens exclude_punct)))
          (set_entity_idxs (iset (entity_idxs p) i (FlatIdxs idxs)) p))
  else
    '(tokens, idxs) <-
        tokenize_sentences exclude_punct entity_spans
                           (para_sentences text1) 0 ;;
    Ok (set_tokenized_texts
          (iset (tokenized_texts p) i (SentTokens tokens))
          (set_entity_idxs (iset (entity_idxs p) i (SentIdxs idxs)) p)).

Fixpoint tokenize_loop (entities : idict (list entity_record))
    (use_entities keep_sentences exclude_punct : bool)
    (p : processor) (i : Z) (texts : list str) : result processor :=
  match texts with
  | [] => Ok p
  | text :: rest =>
      p1 <- tokenize_text entities use_entities keep_sentences
                          exclude_punct p i text ;;
      tokenize_loop entities use_entities keep_sentences exclude_punct
                    p1 (i + 1) rest
  end.

(** [tokenize]; [None] stands for ['default'].  With [save=True] the
    two maps are written to files when the loop is done (l. 662-675);
    the files are not part of the state, and the argument is left out. *)
Definition tokenize (texts : option (list str))
    (entities : option (idict (list entity_record)))
    (use_entities keep_sentences exclude_punct : bool) (p : processor)
  : result processor :=
  let texts := match texts with None => normalized_texts p | Some l => l end in
  let entities :=
    match entities with None => entities_per_text p | Some e => e end in
  if use_entities && negb (len texts =? len entities)
  then Raise AssertionError
  else tokenize_loop entities use_entities keep_sentences exclude_punct
                     p 0 texts.
End Tokenize.

(* ================================================================== *)
(** ** Vocabulary of the specification *)

(** What a replacement puts into the text: the replacement name, between
    the two escape sequences when [write_bold] is set. *)
Definition inserted (write_bold : bool) (replacement_name : str) : str :=
  if write_bold then BOLD_ON ++ replacement_name ++ BOLD_OFF
  else replacement_name.

(** The replacement name of a mention name under a table. *)
Definition repl_of (e2c : sdict cid_entry) (name : str) : str :=
  match sget e2c name with
  | Some v => count_key name v
  | None => name
  end.

(** Length delta of one replacement. *)
Definition delta_of (write_bold : bool) (e2c : sdict cid_entry)
    (ent : entity) : Z :=
  let '(name, start, stop) := ent in
  len (inserted write_bold (repl_of e2c name)) - (stop - start).

(** Drift: the sum of the deltas of the replacements already applied. *)
Fixpoint drift_of (write_bold : bool) (e2c : sdict cid_entry)
    (applied : list entity) : Z :=
  match applied with
  | [] => 0
  | ent :: rest => delta_of write_bold e2c ent + drift_of write_bold e2c rest
  end.

(** Spans that lie in [lo .. n], in ascending order, none overlapping the
    next: the precondition of the rewriter. *)
Fixpoint spans_ok (lo n : Z) (ents : list entity) : bool :=
  match ents with
  | [] => true
  | (_, start, stop) :: rest =>
      (lo <=? start) && (start <=? stop) && (stop <=? n)
      && spans_ok stop n rest
  end.

(** Keys in ascending order, none below [lo]. *)
Fixpoint ascending {A} (key : A -> Z) (lo : Z) (l : list A) : Prop :=
  match l with
  | [] => True
  | x :: r => lo <= key x /\ ascending key (key x) r
  end.

(** Every name has been resolved: it is a key of the table. *)
Definition names_known (e2c : sdict cid_entry) (ents : list entity) : bool :=
  forallb (fun ent => smem e2c (fst (fst ent))) ents.

(** The remapping of l. 641-644 in the words of the specification: the
    start offset of the sentence, which is the end of the sentence before
    it, is subtracted. *)
Definition sentence_entities_as_specified (entity_spans : list (Z * Z))
    (prior_split split : Z) : list (Z * Z) :=
  map (fun span => (fst span - prior_split, snd span - prior_split))
      (filter (fun span => (snd span <? split) && (prior_split <=? fst span))
              entity_spans).

(** Every entry of [entity_to_cid] has its count: what makes the
    [+= 1] of l. 390 and 392 find its key. *)
Definition counts_ok (p : processor) : bool :=
  forallb (fun kv => smem (entity_counts p) (count_key (fst kv) (snd kv)))
          (entity_to_cid p).

(** The hard coded entry of "CO" (l. 317). *)
Definition CO_entry : cid_entry := (Some 281, Some (lit "carbon monoxide")).

(** A record of a mention named "CO" carries "carbon monoxide". *)
Definition co_record_ok (r : entity_record) : bool :=
  let '(replacement_name, _, _, name) := r in
  if str_eqb name "CO" then str_eqb replacement_name "carbon monoxide"
  else true.

(** The texts a run works on: the argument, or [self.clean_texts] for
    ['default'], which may not exist. *)
Definition run_texts (texts : option (list str)) (p : processor)
  : option (list str) :=
  match texts with
  | Some l => Some l
  | None => clean_texts p
  end.

(** The record that the rewriter files for a mention named "CO". *)
Definition CO_record (start stop : Z) : entity_record :=
  (lit "carbon monoxide", start, stop, lit "CO").

(** A PubChem client none of whose requests fails: each one runs out of
    time or returns. *)
Definition answers (get_compounds : nat -> str -> reply) : Prop :=
  forall n name, get_compounds n name <> Fails.

(** What a step of the resolver leaves alone: the texts and the spans
    recorded so far. *)
Definition same_texts (p p' : processor) : Prop :=
  normalized_texts p' = normalized_texts p
  /\ entities_per_text p' = entities_per_text p.

(** An abstract that is present and that [clean_abstract] returns for. *)
Definition cleanable (clean_abstract : str -> result str) (a : option str)
  : Prop :=
  exists s c, a = Some s /\ clean_abstract s = Ok c.

(** The state in which mentions are resolved once the hard coded names
    are in place: every entry has its count and "CO" has its entry. *)
Definition override_inv (p : processor) : Prop :=
  counts_ok p = true /\ sget (entity_to_cid p) "CO" = Some CO_entry.

(** The requests of [p'] are those of [p] followed by requests that do
    not ask for "CO". *)
Definition no_CO_request (p p' : processor) : Prop :=
  exists reqs, requests p' = requests p ++ reqs
               /\ Forall (fun q => q <> lit "CO") reqs.


(* ================================================================== *)
(** ** Sample inputs *)

(** A recogniser that knows five texts. *)
Definition sample_cems (text : str) : list cem :=
  if str_eqb text "CO binds" then [mkCem "CO" 0 2]
  else if str_eqb text "water and water are H2O"
  then [mkCem "water" 0 5; mkCem "water" 10 15; mkCem "H2O" 20 23]
  else if str_eqb text "carbon monoxide binds"
  then [mkCem "carbon monoxide" 0 15]
  else if str_eqb text
            "the nuclear magnetic resonance (NMR) data and NMR NMR fit"
  then [mkCem "NMR" 32 35; mkCem "NMR" 46 49; mkCem "NMR" 50 53]
  else if str_eqb text
            "polyethylene glycol (PEG) and PEG with polylactic acid (PLA) and PLA"
  then [mkCem "PEG" 21 24; mkCem "PEG" 30 33;
        mkCem "PLA" 56 59; mkCem "PLA" 65 68]
  else [].

(** An abbreviation extractor that knows the last two of them. *)
Definition sample_abbvs (text : str) : list abbv_def :=
  if str_eqb text
       "the nuclear magnetic resonance (NMR) data and NMR NMR fit"
  then [mkAbbv "NMR" [lit "nuclear"; lit "magnetic"; lit "resonance"]
               (Some (lit "CM"))]
  else if str_eqb text
            "polyethylene glycol (PEG) and PEG with polylactic acid (PLA) and PLA"
  then [mkAbbv "PEG" [lit "polyethylene"; lit "glycol"] (Some (lit "CM"));
        mkAbbv "PLA" [lit "polylactic"; lit "acid"] (Some (lit "CM"))]
  else [].

(** A recogniser that knows one text with a valence of four. *)
Definition valence_cems (text : str) : list cem :=
  if str_eqb text "Ti(IV) oxide" then [mkCem "Ti(IV)" 0 6] else [].

(** A PubChem that answers at once: water and H2O are oxidane, carbon
    monoxide is itself, nothing else is known. *)
Definition sample_pubchem (_ : nat) (name : str) : reply :=
  if str_eqb name "water" || str_eqb name "H2O"
  then Compounds [mkCompound 962 (Some (lit "oxidane"))]
  else if str_eqb name "carbon monoxide"
  then Compounds [mkCompound 281 (Some (lit "carbon monoxide"))]
  else Compounds [].

(** A PubChem that never answers in time. *)
Definition silent_pubchem (_ : nat) (_ : str) : reply := Timeout.

(** The table after "CO" and "water" were resolved. *)
Definition sample_table : sdict cid_entry :=
  [(lit "CO", (Some 281, Some (lit "carbon monoxide")));
   (lit "water", (Some 962, Some (lit "oxidane")))].

(** The counts, and the synonyms of a name, of a run that returned. *)
Definition count_after (r : result processor) (name : str) : option Z :=
  match r with
  | Ok p => sget (entity_counts p) name
  | Raise _ => None
  end.

Definition synonyms_after (r : result processor) (name : str)
  : option (list str) :=
  match r with
  | Ok p => sget (entity_to_synonyms p) name
  | Raise _ => None
  end.

(* ================================================================== *)
(** ** Vocabulary for the token lists *)

(** The text an element of [token_list] stands for. *)
Definition item_text (it : item) : str :=
  match it with
  | Plain s => s
  | Entity l => List.concat l
  end.

(** The entity elements of a [token_list], in order. *)
Fixpoint entity_items (items : list item) : list (list str) :=
  match items with
  | [] => []
  | Plain _ :: rest => entity_items rest
  | Entity l :: rest => l :: entity_items rest
  end.

(** The bounds of a span as a slice of [text] reads them. *)
Definition norm_span (text : str) (span : Z * Z) : Z * Z :=
  (clamp (len text) (fst span), clamp (len text) (snd span)).

(** Normalised spans that follow each other from [lo] on. *)
Fixpoint pairs_ok (lo : Z) (spans : list (Z * Z)) : bool :=
  match spans with
  | [] => true
  | (start, stop) :: rest =>
      (lo <=? start) && (start <=? stop) && pairs_ok stop rest
  end.

(* ================================================================== *)
(** ** Vocabulary for whole runs *)

(** The records of the texts are filed under 0, 1, ... in that order, one
    for each normalized text: the state that normalizing a corpus from a
    new processor builds, and that [tokenize] relies on by default. *)
Definition aligned (p : processor) : Prop :=
  map fst (entities_per_text p)
  = map Z.of_nat (seq 0 (List.length (normalized_texts p))).

(** The text whose mentions are resolved: the text itself, or what the
    removal of abbreviations makes of it. *)
Definition abbreviations_removed (doc_cems : str -> list cem)
    (doc_abbvs : str -> list abbv_def) (remove_abbr : bool) (text : str)
  : result str :=
  if remove_abbr then remove_abbreviations doc_cems doc_abbvs text
  else Ok text.

(** The test of l. 642 for one span and one sentence. *)
Definition kept_for (span : Z * Z) (bounds : Z * Z) : bool :=
  (snd span <? snd bounds) && (fst bounds <=? fst span).

(** [(prior_split, split)] for each sentence in turn, as the loop of
    l. 637-645 carries them: the end of a sentence is the [prior_split] of
    the next one. *)
Fixpoint sentence_bounds (ends : list Z) (prior_split : Z) : list (Z * Z) :=
  match ends with
  | [] => []
  | split :: rest => (prior_split, split) :: sentence_bounds rest split
  end.

(** The caches of [p'] hold what the caches of [p] hold: every entry of
    [entity_to_cid] is there unchanged, every list of synonyms is there
    with, at most, more names behind it. *)
Definition cache_grows (p p' : processor) : Prop :=
  (forall k v, sget (entity_to_cid p) k = Some v ->
               sget (entity_to_cid p') k = Some v)
  /\ (forall k l, sget (entity_to_synonyms p) k = Some l ->
                  exists more,
                    sget (entity_to_synonyms p') k = Some (l ++ more)).

(** The keys that l. 317-323 assign, and the keys that l. 324-327 do. *)
Definition hardcoded_names : list str :=
  [lit "CO"; lit "Co"; lit "NO"; lit "No";
   lit "sugar"; lit "chloro"; lit "alcohol"].

Definition hardcoded_canonical : list str :=
  [lit "carbon monoxide"; lit "cobalt"; lit "nitric oxide"; lit "nobelium"].

(* ================================================================== *)
(** ** Vocabulary for mentions in any order *)

Definition cem_span (c : cem) : Z * Z := (cem_start c, cem_end c).
Definition entity_span (e : entity) : Z * Z := (snd (fst e), snd e).

(** Every span is non-empty and lies in a text of [n] characters. *)
Definition spans_inside (n : Z) (spans : list (Z * Z)) : bool :=
  forallb (fun sp => (0 <=? fst sp) && (fst sp <? snd sp) && (snd sp <=? n))
          spans.

(** One span ends where or before the other begins. *)
Definition apart (a b : Z * Z) : bool :=
  (snd a <=? fst b) || (snd b <=? fst a).

(** No two spans of the list overlap. *)
Fixpoint spans_apart (spans : list (Z * Z)) : bool :=
  match spans with
  | [] => true
  | sp :: rest => forallb (apart sp) rest && spans_apart rest
  end.

(** The span of a record cuts from [text] what was put in for it. *)
Definition record_delimits (write_bold : bool) (text : str)
    (r : entity_record) : Prop :=
  let '(replacement_name, start, stop, _) := r in
  slice text start stop = inserted write_bold replacement_name.

Definition open_paren : ascii := "("%char.

(** A symbol with a valence in parentheses. *)
Definition with_valence (elem valence : str) : str :=
  elem ++ lit "(" ++ valence ++ lit ")".

(** Valences the pattern of l. 78 takes, and some it does not take. *)
Definition valences_taken : list string :=
  ["I"; "II"; "III"; "V"; "VI"; "VII"; "VIII";
   "i"; "ii"; "iii"; "v"; "vi"; "vii"; "viii"; "Vi"; "vII"; ""; "|"]%string.

Definition valences_not_taken : list string :=
  ["IV"; "iv"; "IX"; "X"; "IIII"; "VIIII"; "0"; "2"; "2+"; "II,III"]%string.

(** [a] is found somewhere in [t]. *)
Fixpoint occurs_in (a t : str) : bool :=
  match starts_with a t with
  | Some _ => true
  | None =>
      match t with
      | [] => false
      | _ :: r => occurs_in a r
      end
  end.

(** Whether an abstract is too short once cleaned; an abstract that is
    absent, or that cannot be cleaned, is not. *)
Definition too_short_cleaned (clean_abstract : str -> result str)
    (a : option str) : bool :=
  match a with
  | Some s =>
      match clean_abstract s with
      | Ok c => len c <? min_len
      | Raise _ => false
      end
  | None => false
  end.

(** The cleaned abstracts that are long enough, in order. *)
Fixpoint long_enough (clean_abstract : str -> result str)
    (texts : list (option str)) : list str :=
  match texts with
  | [] => []
  | a :: rest =>
      match a with
      | Some s =>
          match clean_abstract s with
          | Ok c => if len c <? min_len then [] else [c]
          | Raise _ => []
          end
      | None => []
      end ++ long_enough clean_abstract rest
  end.

(** The indices, counted from [i], of the abstracts that are too short. *)
Fixpoint short_indices (clean_abstract : str -> result str)
    (texts : list (option str)) (i : Z) : list Z :=
  match texts with
  | [] => []
  | a :: rest =>
      (if too_short_cleaned clean_abstract a then [i] else [])
        ++ short_indices clean_abstract rest (i + 1)
  end.

(* ================================================================== *)
(** ** Python string methods used by the cleaning rules

    The cleaning rules read two characters outside ASCII, the copyright
    sign and the registered sign; they are the code points 169 and 174. *)

Definition COPYRIGHT : ascii := ascii_of_nat 169.
Definition REGISTERED : ascii := ascii_of_nat 174.

Definition char_eqb (a b : ascii) : bool :=
  if ascii_dec a b then true else false.

(** [s.split('\n')]: the pieces between newlines, empty ones included. *)
Fixpoint split_lines_from (t : str) (cur : str) : list str :=
  match t with
  | [] => [rev cur]
  | c :: r =>
      if char_eqb c newline then rev cur :: split_lines_from r []
      else split_lines_from r (c :: cur)
  end.

Definition split_lines (t : str) : list str := split_lines_from t [].

(** [s.split()]: the runs of characters that are not white space. *)
Fixpoint split_ws_from (t : str) (cur : str) : list str :=
  match t with
  | [] => if nonempty cur then [rev cur] else []
  | c :: r =>
      if is_space c
      then (if nonempty cur then [rev cur] else []) ++ split_ws_from r []
      else split_ws_from r (c :: cur)
  end.

Definition split_ws (t : str) : list str := split_ws_from t [].

Fixpoint lstrip (t : str) : str :=
  match t with
  | c :: r => if is_space c then lstrip r else t
  | [] => []
  end.

(** [s.strip()] *)
Definition strip (t : str) : str := rev (lstrip (rev (lstrip t))).

(** [x in l] and [l.index(x)] for a list of strings. *)
Definition str_in (x : str) (l : list str) : bool := existsb (str_eqb x) l.

Fixpoint str_index (x : str) (l : list str) : nat :=
  match l with
  | [] => 0
  | y :: r => if str_eqb x y then 0 else S (str_index x r)
  end.

(** [del temp[temp.index(c)]]: the first [c] is taken out. *)
Fixpoint remove_first (c : ascii) (t : str) : str :=
  match t with
  | [] => []
  | x :: r => if char_eqb x c then r else x :: remove_first c r
  end.

(* ================================================================== *)
(** ** The cleaning rules ([clean_abstract] and [remove_symbols],
       l. 145-278) *)

(** The letters of Latin-1 behind ASCII: the two ordinal indicators and
    192 to 255 but the multiplication and the division sign. *)
Definition is_latin1_letter (n : nat) : bool :=
  (Nat.eqb n 170 || Nat.eqb n 186
   || (Nat.leb 192 n && Nat.leb n 255
       && negb (Nat.eqb n 215) && negb (Nat.eqb n 247)))%bool.

(** [\w]: digits, letters and the underscore; behind ASCII the letters,
    the micro sign (181), the superscript digits (178, 179, 185) and the
    three fractions (188 to 190). *)
Definition is_word_char (c : ascii) : bool :=
  let n := nat_of_ascii c in
  ((Nat.leb 48 n && Nat.leb n 57) || (Nat.leb 65 n && Nat.leb n 90)
   || (Nat.leb 97 n && Nat.leb n 122) || Nat.eqb n 95
   || is_latin1_letter n || Nat.eqb n 181
   || Nat.eqb n 178 || Nat.eqb n 179 || Nat.eqb n 185
   || (Nat.leb 188 n && Nat.leb n 190))%bool.

Fixpoint skip_word (t : str) : nat * str :=
  match t with
  | c :: r =>
      if is_word_char c
      then let '(n, rest) := skip_word r in (S n, rest)
      else (0%nat, t)
  | [] => (0%nat, [])
  end.

(** Behind a [<]: the number of characters up to and with the [>] that
    closes a tag [<\w*>] or [</\w*>], if there is one. *)
Definition tag_length (r : str) : option nat :=
  match skip_word r with
  | (n, c :: _) =>
      if char_eqb c ">"%char then Some (S n)
      else if char_eqb c "/"%char then
        match r with
        | _ :: r' =>
            match skip_word r' with
            | (m, d :: _) => if char_eqb d ">"%char then Some (S (S m)) else None
            | _ => None
            end
        | [] => None
        end
      else None
  | _ => None
  end.

(** [re.sub('<\w*>|<\/\w*>', ' ', t)]: every tag becomes one space;
    [skip] counts the characters of the current tag still to pass. *)
Fixpoint sub_tags (skip : nat) (t : str) : str :=
  match t with
  | [] => []
  | c :: r =>
      match skip with
      | S k => sub_tags k r
      | O =>
          if char_eqb c "<"%char then
            match tag_length r with
            | Some n => " "%char :: sub_tags n r
            | None => c :: sub_tags 0 r
            end
          else c :: sub_tags 0 r
      end
  end.

(** [remove_symbols] (l. 234-278).  The [replace] of l. 275 has its
    result thrown away and changes nothing. *)
Definition remove_symbols (abstract : str) : str :=
  let split := split_ws abstract in
  let clean_abstract :=
    if str_in [COPYRIGHT] split then
      match split with
      | first :: _ =>
          if negb (str_eqb first [COPYRIGHT])
          then join_space (firstn (str_index [COPYRIGHT] split) split)
          else if str_in "B.V." split
          then join_space (skipn (S (str_index "B.V." split)) split)
          else if str_in "B.V.." split
          then join_space (skipn (S (str_index "B.V.." split)) split)
          else join_space (skipn 2 split)
      | [] => abstract
      end
    else abstract in
  let clean_abstract :=
    if existsb (fun c => char_eqb c REGISTERED) clean_abstract
    then remove_first REGISTERED clean_abstract
    else clean_abstract in
  sub_tags 0 clean_abstract.

Definition section_titles : list str :=
  [lit "introduction"; lit "purpose"; lit "background";
   lit "scope and approach"; lit "objective"; lit "objectives";
   lit "materials and methods"; lit "results"; lit "conclusion";
   lit "conclusions"; lit "key findings";
   lit "key findings and conclusions"; lit "methodology"; lit "methods";
   lit "study design"; lit "clinical implications"].

Definition RETRACTION_NOTICE : str :=
  "This article has been retracted: please see Elsevier Policy on Article Withdrawal (https://www.elsevier.com/about/our-business/policies/article-withdrawal).".

(** The lines of an abstract that are not blank, stripped (l. 156-161). *)
Definition info_lines (abstract : str) : list str :=
  filter nonempty (map strip (split_lines abstract)).

(** The entries that are not section titles (l. 197-202 and its two
    copies). *)
Definition without_titles (entries : list str) : list str :=
  filter (fun entry => negb (str_in (lower entry) section_titles)) entries.

(** [clean_abstract] (l. 145-232). *)
Definition clean_abstract (abstract : str) : result str :=
  let info := info_lines abstract in
  cleaned <-
    match info with
    | [_; second] => Ok second
    | [only] =>
        first_word <- subscript (split_ws only) 0 ;;
        let head := lower first_word in
        if str_eqb head "abstract" || str_eqb head "summary"
           || occurs_in "objective" head
        then Ok (join_space (skipn 1 (split_ws only)))
        else Ok only
    | _ =>
        let info_lower := map lower info in
        let sectioned :=
          existsb (fun title => str_in title info_lower) section_titles in
        if sectioned then
          first <- subscript info 0 ;;
          if str_eqb (lower first) "abstract" || str_eqb (lower first) "summary"
          then Ok (join_space (without_titles (skipn 1 info)))
          else Ok (join_space (without_titles info))
        else
          first <- subscript info 0 ;;
          let head := lower first in
          if str_eqb head "abstract" || str_eqb head "absract"
             || str_eqb head "abstact" || str_eqb head "abstractt"
          then Ok (join_space (skipn 1 info))
          else if str_eqb head "summary" || str_eqb head "publisher summary"
                  || str_eqb head "1. summary"
          then Ok (join_space (skipn 1 info))
          else if str_eqb first RETRACTION_NOTICE
          then Ok (lit "Retracted")
          else Ok (join_space info)
    end ;;
  Ok (remove_symbols cleaned).

(* ================================================================== *)
(** ** Splitting a number from its unit ([split_token], l. 739-754)

    The table [SPLIT_UNITS] of l. 82-104 is the argument [units]. *)

(** The class [[\p{script=Latin}|Ω|μ]] on the characters of the model:
    the letters of ASCII and of Latin-1, and the bar (the two Greek
    letters are not below 256). *)
Definition is_unit_start (c : ascii) : bool :=
  let n := nat_of_ascii c in
  ((Nat.leb 65 n && Nat.leb n 90) || (Nat.leb 97 n && Nat.leb n 122)
   || is_latin1_letter n || Nat.eqb n 124)%bool.

(** The text before the first character of that class, and the text from
    it on. *)
Fixpoint split_at_unit (t : str) : str * str :=
  match t with
  | [] => ([], [])
  | c :: r =>
      if is_unit_start c then ([], t)
      else let '(a, b) := split_at_unit r in (c :: a, b)
  end.

Fixpoint skip_digits (t : str) : nat * str :=
  match t with
  | c :: r =>
      if is_digit c
      then let '(n, rest) := skip_digits r in (S n, rest)
      else (0%nat, t)
  | [] => (0%nat, [])
  end.

(** [\(?\d*\)?] against the whole of [t]. *)
Definition number_tail (t : str) : bool :=
  let t1 := match t with
            | c :: r => if char_eqb c "("%char then r else t
            | [] => []
            end in
  match snd (skip_digits t1) with
  | [] => true
  | [c] => char_eqb c ")"%char
  | _ => false
  end.

(** [[+-]?\d*\.?\d+\(?\d*\)?] against the whole of [t]. *)
Definition is_number (t : str) : bool :=
  let t1 := match t with
            | c :: r => if in_chars c "+-" then r else t
            | [] => []
            end in
  let '(d1, r1) := skip_digits t1 in
  match r1 with
  | c :: r =>
      if char_eqb c "."%char then
        let '(d2, r2) := skip_digits r in
        negb (Nat.eqb d2 0) && number_tail r2
      else negb (Nat.eqb d1 0) && number_tail r1
  | [] => negb (Nat.eqb d1 0)
  end.

(** Groups 1 and 2 of [UNIT_REGX.match(token)]: no character of a number
    is in the class that opens group 2, so group 1 is the text before the
    first character of the class, and the [.*] of group 2 (with DOTALL)
    takes all that follows. *)
Definition UNIT_REGX_match (token : str) : option (str * str) :=
  let '(number, unit) := split_at_unit token in
  if nonempty unit && is_number number then Some (number, unit) else None.

Definition split_token (units : list str) (token : str) : list str :=
  match UNIT_REGX_match token with
  | Some (number, unit) =>
      if str_in unit units then [number; unit] else [token]
  | None => [token]
  end.

(** The characters of an item of a [token_list], as the word tokenizer
    [cwt_tokenize] leaves them. *)
Definition item_chars (cwt_tokenize : str -> list str) (it : item) : str :=
  match it with
  | Plain s => List.concat (cwt_tokenize s)
  | Entity l => List.concat l
  end.

(** Reads the fields of a processor built by the setters. *)
Ltac fields :=
  cbn [clean_texts normalized_texts entity_counts entities_per_text
       entity_to_cid entity_to_synonyms tokenized_texts entity_idxs
       timedout_entities requests
       set_normalized_texts set_entity_counts set_entities_per_text
       set_entity_to_cid set_entity_to_synonyms set_tokenized_texts
       set_entity_idxs set_timedout_entities set_requests] in *.

(* ================================================================== *)
(** * Properties *)

(** ** Slices *)

Lemma len_app {A} (a b : list A) : len (a ++ b) = len a + len b.
Proof. unfold len. rewrite length_app. lia. Qed.

Lemma len_nil {A} : len (@nil A) = 0.
Proof. reflexivity. Qed.

Lemma len_cons {A} (x : A) l : len (x :: l) = 1 + len l.
Proof. unfold len. cbn [List.length]. lia. Qed.

Lemma len_nonneg {A} (a : list A) : 0 <= len a.
Proof. unfold len. lia. Qed.

Lemma clamp_id n i : 0 <= i <= n -> clamp n i = i.
Proof.
  intros H. unfold clamp.
  destruct (i <? 0) eqn:E; [apply Z.ltb_lt in E; lia | lia].
Qed.

Lemma slice_to_app a b i : i = len a -> slice_to (a ++ b) i = a.
Proof.
  intros ->. unfold slice_to.
  rewrite clamp_id by (rewrite len_app; pose proof (len_nonneg a);
                       pose proof (len_nonneg b); lia).
  unfold len. rewrite Nat2Z.id. rewrite firstn_app, Nat.sub_diag.
  rewrite firstn_all. simpl. apply app_nil_r.
Qed.

Lemma len_slice_to t i : 0 <= i <= len t -> len (slice_to t i) = i.
Proof.
  intros H. unfold slice_to. rewrite clamp_id by lia.
  unfold len in *. rewrite length_firstn. lia.
Qed.

Lemma len_slice_from t i : 0 <= i <= len t -> len (slice_from t i) = len t - i.
Proof.
  intros H. unfold slice_from. rewrite clamp_id by lia.
  unfold len in *. rewrite length_skipn. lia.
Qed.

Lemma slice_to_slice_to t i j :
  0 <= i <= j -> j <= len t -> slice_to (slice_to t j) i = slice_to t i.
Proof.
  intros Hi Hj. unfold slice_to at 1.
  rewrite len_slice_to by lia.
  unfold slice_to. rewrite !clamp_id by lia.
  rewrite firstn_firstn. f_equal. lia.
Qed.

(** A slice is what remains of a prefix once a shorter prefix is cut. *)
Lemma slice_of_prefix t p x i j :
  slice_to t j = p ++ x -> len p = i -> 0 <= i <= j -> j <= len t ->
  slice t i j = x.
Proof.
  intros Hp Hl Hi Hj.
  unfold slice. rewrite !clamp_id by lia.
  unfold slice_to in Hp. rewrite clamp_id in Hp by lia.
  replace (Z.to_nat (j - i)) with (Z.to_nat j - Z.to_nat i)%nat by lia.
  rewrite <- skipn_firstn_comm, Hp.
  rewrite skipn_app.
  replace (Z.to_nat i) with (List.length p) by (unfold len in Hl; lia).
  rewrite skipn_all, Nat.sub_diag. reflexivity.
Qed.

(** ** The offset-tracking rewriter *)

Lemma sitem_sget {V} (d : sdict V) k v : sget d k = Some v -> sitem d k = Ok v.
Proof. unfold sitem, PyDict.item, sget. intros ->. reflexivity. Qed.

Lemma smem_sget {V} (d : sdict V) k :
  smem d k = true -> exists v, sget d k = Some v.
Proof.
  unfold smem, PyDict.mem, sget.
  destruct (PyDict.get str_eqb d k) as [v|]; [eauto | discriminate].
Qed.

Lemma len_inserted wb r :
  len (inserted wb r) = len r + (if wb then 8 else 0).
Proof.
  destruct wb; unfold inserted; [|lia].
  rewrite !len_app. unfold BOLD_ON, BOLD_OFF, len. simpl List.length. lia.
Qed.

(** One replacement, in the words of the specification: the splice point
    is [start + drift], the drift grows by the length delta, and the span
    recorded runs from [start + drift] to [stop + drift']. *)
Lemma replace_step_spec wb e2c t ic acc name s e :
  smem e2c name = true ->
  replace_step wb e2c (t, ic, acc) (name, s, e) =
  Ok (slice_to t (s + ic) ++ inserted wb (repl_of e2c name)
        ++ slice_from t (e + ic),
      ic + delta_of wb e2c (name, s, e),
      acc ++ [(repl_of e2c name, s + ic,
               e + (ic + delta_of wb e2c (name, s, e)), name)]).
Proof.
  intros Hm. destruct (smem_sget _ _ Hm) as [v Hv].
  unfold replace_step. rewrite (sitem_sget _ _ _ Hv). simpl bind.
  unfold delta_of, repl_of. rewrite Hv. rewrite len_inserted.
  set (r := count_key name v).
  destruct wb; simpl inserted; cbv iota.
  - replace (len r + 8 - (e - s)) with (len r - (e - s) + 8) by lia.
    replace (s + (ic + (len r - (e - s) + 8)) - (len r - (e - s) + 8))
      with (s + ic) by lia.
    unfold BOLD_OFF. simpl. rewrite <- app_assoc. reflexivity.
  - replace (len r + 0 - (e - s)) with (len r - (e - s)) by lia.
    replace (s + (ic + (len r - (e - s))) - (len r - (e - s)))
      with (s + ic) by lia.
    reflexivity.
Qed.

Lemma drift_of_app wb e2c a b :
  drift_of wb e2c (a ++ b) = drift_of wb e2c a + drift_of wb e2c b.
Proof. induction a as [|x a IH]; simpl; [reflexivity | rewrite IH; lia]. Qed.

Lemma replace_entities_from wb e2c : forall ents t ic acc lo,
  spans_ok lo (len t - ic) ents = true ->
  0 <= lo + ic <= len t ->
  names_known e2c ents = true ->
  exists final recs,
    replace_entities wb e2c ents (t, ic, acc)
      = Ok (final, ic + drift_of wb e2c ents, acc ++ recs)
    /\ len final = len t + drift_of wb e2c ents
    /\ lo + ic <= len final
    /\ slice_to final (lo + ic) = slice_to t (lo + ic)
    /\ List.length recs = List.length ents
    /\ forall k name s e,
         nth_error ents k = Some (name, s, e) ->
         let d := ic + drift_of wb e2c (firstn k ents) in
         let d' := ic + drift_of wb e2c (firstn (S k) ents) in
         nth_error recs k = Some (repl_of e2c name, s + d, e + d', name)
         /\ slice final (s + d) (e + d') = inserted wb (repl_of e2c name).
Proof.
  induction ents as [|[[name s] e] rest IH]; intros t ic acc lo Hok Hlo Hkn.
  - exists t, []. simpl. rewrite app_nil_r, !Z.add_0_r.
    repeat split; try reflexivity; try lia;
      destruct k; discriminate.
  - simpl in Hok. apply andb_prop in Hok as [Hok Hrest].
    apply andb_prop in Hok as [Hok He]. apply andb_prop in Hok as [Hs Hse].
    apply Z.leb_le in Hs, Hse, He.
    simpl in Hkn. apply andb_prop in Hkn as [Hname Hkn]. simpl in Hname.
    set (r := repl_of e2c name).
    set (dl := delta_of wb e2c (name, s, e)).
    set (t1 := slice_to t (s + ic) ++ inserted wb r ++ slice_from t (e + ic)).
    assert (Hdl : dl = len (inserted wb r) - (e - s)) by reflexivity.
    assert (Hlen1 : len t1 = len t + dl).
    { unfold t1. rewrite !len_app, len_slice_to, len_slice_from by lia. lia. }
    pose proof (len_nonneg (inserted wb r)) as Hins.
    destruct (IH t1 (ic + dl) (acc ++ [(r, s + ic, e + (ic + dl), name)]) e)
      as (final & recs & Hrun & Hfl & Hbound & Hpre & Hrl & Hk).
    { rewrite Hlen1. replace (len t + dl - (ic + dl)) with (len t - ic) by lia.
      exact Hrest. }
    { lia. }
    { exact Hkn. }
    assert (Hpre1 : slice_to final (e + (ic + dl))
                    = slice_to t (s + ic) ++ inserted wb r).
    { rewrite Hpre. unfold t1. rewrite app_assoc. apply slice_to_app.
      rewrite len_app, len_slice_to by lia. lia. }
    exists final, ((r, s + ic, e + (ic + dl), name) :: recs).
    split; [|split; [|split; [|split; [|split]]]].
    + cbn [replace_entities]. rewrite replace_step_spec by exact Hname.
      cbn [bind]. fold r dl t1. rewrite Hrun. cbn [drift_of]. fold dl.
      rewrite <- app_assoc. cbn [app].
      rewrite (Z.add_assoc ic dl). reflexivity.
    + rewrite Hfl, Hlen1. cbn [drift_of]. fold dl. lia.
    + lia.
    + rewrite <- (slice_to_slice_to final (lo + ic) (e + (ic + dl))) by lia.
      rewrite Hpre1.
      rewrite <- (slice_to_slice_to t (lo + ic) (s + ic)) by lia.
      set (a := slice_to t (s + ic)).
      assert (Ha : len a = s + ic) by (apply len_slice_to; lia).
      unfold slice_to. rewrite len_app, Ha.
      rewrite !clamp_id by lia.
      rewrite firstn_app.
      replace (Z.to_nat (lo + ic) - List.length a)%nat with 0%nat
        by (unfold len in Ha; lia).
      simpl. apply app_nil_r.
    + simpl. f_equal. exact Hrl.
    + intros k name' s' e' Hnth. destruct k as [|k].
      * simpl in Hnth. injection Hnth as <- <- <-.
        rewrite firstn_cons, firstn_0. cbn [drift_of]. fold dl r.
        rewrite !Z.add_0_r. split; [reflexivity|].
        apply (slice_of_prefix final (slice_to t (s + ic))).
        -- exact Hpre1.
        -- apply len_slice_to; lia.
        -- lia.
        -- lia.
      * simpl in Hnth. specialize (Hk k name' s' e' Hnth).
        rewrite !firstn_cons. cbn [drift_of nth_error]. fold dl.
        rewrite !(Z.add_assoc ic dl).
        exact Hk.
Qed.

Lemma spans_ok_firstn k : forall ents lo n,
  spans_ok lo n ents = true -> spans_ok lo n (firstn k ents) = true.
Proof.
  induction k as [|k IH]; intros [|[[name s] e] rest] lo n H; try reflexivity.
  rewrite firstn_cons. simpl in *.
  apply andb_prop in H as [H Hrest]. rewrite H. simpl. apply IH, Hrest.
Qed.

Lemma names_known_firstn e2c k : forall ents,
  names_known e2c ents = true -> names_known e2c (firstn k ents) = true.
Proof.
  induction k as [|k IH]; intros [|ent rest] H; try reflexivity.
  rewrite firstn_cons. simpl in *.
  apply andb_prop in H as [H Hrest]. rewrite H. simpl. apply IH, Hrest.
Qed.

Lemma firstn_S_nth {A} (l : list A) k x :
  nth_error l k = Some x -> firstn (S k) l = firstn k l ++ [x].
Proof.
  revert l. induction k as [|k IH]; intros [|y l] H; try discriminate.
  - simpl in H. injection H as ->. reflexivity.
  - simpl in H. rewrite !firstn_cons, (IH l H). reflexivity.
Qed.

(** The stable sort of l. 395 leaves a list in ascending order as it is. *)
Lemma insert_by_last {A} (key : A -> Z) x : forall l,
  Forall (fun y => key y <= key x) l -> insert_by key x l = l ++ [x].
Proof.
  induction l as [|y l IH]; intros H; [reflexivity|].
  inversion H as [|? ? Hy Hl]; subst. simpl.
  destruct (key x <? key y) eqn:E; [apply Z.ltb_lt in E; lia|].
  rewrite IH by assumption. reflexivity.
Qed.

Lemma sort_by_ascending {A} (key : A -> Z) : forall l acc lo,
  Forall (fun y => key y <= lo) acc ->
  ascending key lo l ->
  fold_left (fun acc x => insert_by key x acc) l acc = acc ++ l.
Proof.
  induction l as [|x l IH]; intros acc lo Hacc Hasc.
  - symmetry. apply app_nil_r.
  - destruct Hasc as [Hx Hl]. cbn [fold_left].
    rewrite insert_by_last
      by (eapply Forall_impl; [|exact Hacc]; cbv beta; intros; lia).
    rewrite (IH _ (key x)); [rewrite <- app_assoc; reflexivity | | exact Hl].
    apply Forall_app. split.
    + eapply Forall_impl; [|exact Hacc]. cbv beta. intros; lia.
    + constructor; [lia | constructor].
Qed.

Lemma sort_by_spans_ok ents : forall lo n,
  spans_ok lo n ents = true -> sort_by entity_start ents = ents.
Proof.
  intros lo n H. unfold sort_by.
  rewrite (sort_by_ascending entity_start ents [] lo); [reflexivity | constructor |].
  revert lo H. induction ents as [|[[name s] e] rest IH]; intros lo H; [exact I|].
  simpl in H. apply andb_prop in H as [H Hrest].
  apply andb_prop in H as [H He]. apply andb_prop in H as [Hs Hse].
  apply Z.leb_le in Hs, Hse, He. split; [exact Hs|].
  unfold entity_start at 1. simpl.
  destruct rest as [|[[name' s'] e'] rest']; [exact I|].
  specialize (IH e Hrest). destruct IH as [H1 H2]. split; [|exact H2].
  unfold entity_start in *. simpl in *. lia.
Qed.

(** C1.  For every text and every list of entity replacements
    [(name, start, end)] whose spans lie in the text in ascending order
    without overlap, and whose names are resolved: the sort of the
    rewriter leaves the list as it is; the loop returns; the drift it
    ends with is the sum of the length deltas, and the text has grown by
    exactly that much.  For the k-th replacement, with [drift] the sum of
    the deltas of the replacements before it: it is applied to the text
    reached so far at the splice point [start + drift], it moves the
    drift by [len(inserted text) - (end - start)], the span recorded for
    it is [(start + drift, end + drift')] with [drift'] the drift after
    it, and in the final text that span holds exactly the inserted text,
    which is the replacement name (between the two bold escape sequences
    when [write_bold] is set). *)
Theorem rewriter_recorded_spans :
  forall (write_bold : bool) (e2c : sdict cid_entry) (text : str)
         (ents : list entity),
    spans_ok 0 (len text) ents = true ->
    names_known e2c ents = true ->
    sort_by entity_start ents = ents /\
    exists final recs,
      replace_entities write_bold e2c ents (text, 0, [])
        = Ok (final, drift_of write_bold e2c ents, recs)
      /\ len final = len text + drift_of write_bold e2c ents
      /\ List.length recs = List.length ents
      /\ forall k name start stop,
           nth_error ents k = Some (name, start, stop) ->
           let drift := drift_of write_bold e2c (firstn k ents) in
           let ins := inserted write_bold (repl_of e2c name) in
           let drift' := drift + (len ins - (stop - start)) in
           (exists text_k recs_k,
               replace_entities write_bold e2c (firstn k ents) (text, 0, [])
                 = Ok (text_k, drift, recs_k)
               /\ replace_step write_bold e2c (text_k, drift, recs_k)
                               (name, start, stop)
                  = Ok (slice_to text_k (start + drift) ++ ins
                          ++ slice_from text_k (stop + drift),
                        drift',
                        recs_k ++ [(repl_of e2c name, start + drift,
                                    stop + drift', name)]))
           /\ drift_of write_bold e2c (firstn (S k) ents) = drift'
           /\ nth_error recs k
              = Some (repl_of e2c name, start + drift, stop + drift', name)
           /\ slice final (start + drift) (stop + drift') = ins.
Proof.
  intros wb e2c text ents Hok Hkn.
  split; [exact (sort_by_spans_ok ents 0 (len text) Hok)|].
  pose proof (len_nonneg text) as Hlen.
  destruct (replace_entities_from wb e2c ents text 0 [] 0)
    as (final & recs & Hrun & Hfl & _ & _ & Hrl & Hk);
    rewrite ?Z.sub_0_r; try assumption; try lia.
  exists final, recs.
  split; [exact Hrun | split; [exact Hfl | split; [exact Hrl |]]].
  - intros k name s e Hnth drift ins drift'.
    assert (HS : drift_of wb e2c (firstn (S k) ents) = drift').
    { rewrite (firstn_S_nth _ _ _ Hnth), drift_of_app. simpl.
      unfold drift', drift, ins. lia. }
    assert (Hname : smem e2c name = true).
    { unfold names_known in Hkn. rewrite forallb_forall in Hkn.
      apply (Hkn (name, s, e)). eapply nth_error_In, Hnth. }
    destruct (Hk k name s e Hnth) as [Hrec Hslice].
    rewrite !Z.add_0_l in Hrec, Hslice. fold drift in Hrec, Hslice.
    rewrite HS in Hrec, Hslice.
    split; [|split; [exact HS | split; [exact Hrec | exact Hslice]]].
    destruct (replace_entities_from wb e2c (firstn k ents) text 0 [] 0)
      as (tk & rk & Hrunk & _);
      rewrite ?Z.sub_0_r;
      try (apply spans_ok_firstn; assumption);
      try (apply names_known_firstn; assumption); try lia.
    exists tk, rk. split; [exact Hrunk|].
    rewrite replace_step_spec by exact Hname.
    unfold delta_of. fold ins. fold drift. fold drift'. reflexivity.
Qed.

(** ** Sentence-level spans *)

Lemma sentence_entities_in spans prior split span' :
  In span' (sentence_entities spans prior split) <->
  exists span, In span spans
               /\ snd span < split /\ prior <= fst span
               /\ span' = (fst span - split, snd span - split).
Proof.
  unfold sentence_entities. rewrite in_map_iff. split.
  - intros (span & <- & Hin). apply filter_In in Hin as [Hin Hc].
    apply andb_prop in Hc as [H1 H2].
    apply Z.ltb_lt in H1. apply Z.leb_le in H2. eauto 6.
  - intros (span & Hin & H1 & H2 & ->). exists span. split; [reflexivity|].
    apply filter_In. split; [exact Hin|].
    apply andb_true_intro. split; [apply Z.ltb_lt | apply Z.leb_le]; assumption.
Qed.

(** C2, as the code has it.  The spans kept for a sentence are the spans
    with [span.end < sentence.end] and [span.start >= previous.end], in
    their order, and each is remapped by subtracting the END offset of
    that sentence, so both bounds are negative and count from the end of
    the sentence.  When the text of the sentence is the slice of the text
    from [sent_start] to that end and the span starts in it, the remapped
    span cuts from the sentence what the span cuts from the text. *)
Theorem sentence_spans_end_relative :
  forall (spans : list (Z * Z)) (prior_split split : Z),
    sentence_entities spans prior_split split
      = map (fun span => (fst span - split, snd span - split))
            (filter (fun span => (snd span <? split)
                                 && (prior_split <=? fst span)) spans)
    /\ (forall span', In span' (sentence_entities spans prior_split split) <->
          exists span, In span spans
                       /\ snd span < split /\ prior_split <= fst span
                       /\ span' = (fst span - split, snd span - split))
    /\ (forall span', In span' (sentence_entities spans prior_split split) ->
          snd span' < 0)
    /\ (forall text sent_start start stop,
          0 <= sent_start <= start -> start <= stop -> stop < split ->
          split <= len text ->
          slice (slice text sent_start split) (start - split) (stop - split)
            = slice text start stop).
Proof.
  intros spans prior split. split; [reflexivity|].
  split; [apply sentence_entities_in|]. split.
  - intros span' H. apply sentence_entities_in in H as (span & _ & H1 & _ & ->).
    simpl. lia.
  - intros text ss s e Hs Hse He Hsplit.
    assert (Hl : len (slice text ss split) = split - ss).
    { unfold slice. rewrite !clamp_id by lia. unfold len in *.
      rewrite length_firstn, length_skipn. lia. }
    unfold slice at 1. rewrite Hl.
    assert (Hc : forall x, ss <= x < split ->
                           clamp (split - ss) (x - split) = x - ss).
    { intros x Hx. unfold clamp.
      destruct (x - split <? 0) eqn:E; [lia | apply Z.ltb_ge in E; lia]. }
    rewrite !Hc by lia.
    unfold slice. rewrite !clamp_id by lia.
    rewrite skipn_firstn_comm, skipn_skipn, firstn_firstn.
    f_equal; [lia | f_equal; lia].
Qed.

(** C2, as stated, fails: in the text "CO is here. NO is there." the
    second sentence runs from 12 to 24 and the first ends at 11; the span
    (12, 14) of "NO" is kept for the second sentence as (-12, -10), its
    offsets from the end of that sentence, where subtracting the end of
    the sentence before gives (1, 3). *)
Lemma sentence_spans_not_start_relative :
  sentence_entities [(0, 2); (12, 14)] 11 24 = [(-12, -10)]
  /\ sentence_entities_as_specified [(0, 2); (12, 14)] 11 24 = [(1, 3)]
  /\ sentence_entities [(0, 2); (12, 14)] 11 24
     <> sentence_entities_as_specified [(0, 2); (12, 14)] 11 24.
Proof. repeat split; try reflexivity. discriminate. Qed.

Lemma sentence_spans_end_relative_witness :
  slice (slice (lit "CO is here. NO is there.") 12 24) (12 - 24) (14 - 24)
  = slice (lit "CO is here. NO is there.") 12 14.
Proof.
  apply (sentence_spans_end_relative [(0, 2); (12, 14)] 11 24);
    [lia | lia | lia | vm_compute; discriminate].
Defined.

(** ** Construction with an absent abstract *)

Section InitFacts.
Variable clean_abstract : str -> result str.

(** While no abstract is absent, the list of dropped indices stays
    no longer than the number of abstracts seen. *)
Lemma clean_loop_present : forall pre i c,
  Forall (cleanable clean_abstract) pre ->
  len (c_dropped_idxs c) <= i ->
  exists c1,
    clean_loop clean_abstract i pre c = (c1, None)
    /\ len (c_dropped_idxs c1) <= i + len pre
    /\ c_stdout c1 = c_stdout c
    /\ (forall j, In j (c_dropped_idxs c1) ->
                  In j (c_dropped_idxs c) \/ i <= j < i + len pre).
Proof.
  induction pre as [|a pre IH]; intros i c Hall Hlen.
  - exists c.
    split; [reflexivity|].
    split; [rewrite len_nil; lia|].
    split; [reflexivity | intros j Hj; left; exact Hj].
  - inversion Hall as [|? ? (s & c' & -> & Hc) Hrest]; subst.
    cbn [clean_loop clean_step]. rewrite Hc.
    pose proof (len_cons (Some s) pre) as Hl.
    pose proof (len_nonneg pre) as Hpos.
    destruct (len c' <? min_len).
    + edestruct (IH (i + 1)) as (c1 & Hrun & Hl1 & Hout & Hin);
        [exact Hrest | | exists c1; rewrite Hrun].
      * cbn [c_dropped_idxs]. rewrite len_app, len_cons, len_nil. lia.
      * cbn [c_dropped_idxs c_stdout] in *.
        split; [reflexivity|]. split; [lia|]. split; [exact Hout|].
        intros j Hj. destruct (Hin j Hj) as [H|H]; [|right; lia].
        apply in_app_or in H as [H|[<-|[]]]; [left; exact H | right; lia].
    + edestruct (IH (i + 1)) as (c1 & Hrun & Hl1 & Hout & Hin);
        [exact Hrest | | exists c1; rewrite Hrun].
      * cbn [c_dropped_idxs]. lia.
      * cbn [c_dropped_idxs c_stdout] in *.
        split; [reflexivity|]. split; [lia|]. split; [exact Hout|].
        intros j Hj. destruct (Hin j Hj) as [H|H]; [left; exact H | right; lia].
Qed.

(** C3 on the code.  When the corpus holds an absent abstract, and the
    abstracts before it were cleaned, construction writes the warning and
    then raises [IndexError] at the subscript of l. 120: the index is not
    in the list of dropped indices and no later abstract is looked at. *)
Theorem init_absent_abstract_raises :
  forall (pre post : list (option str)),
    Forall (cleanable clean_abstract) pre ->
    exists c,
      init_clean clean_abstract (TextsList (pre ++ None :: post))
        = (c, Some IndexError)
      /\ c_stdout c = [WARN_EMPTY]
      /\ ~ In (len pre) (c_dropped_idxs c).
Proof.
  intros pre post Hpre.
  destruct (clean_loop_present pre 0 (mkCleaning [] [] false false []) Hpre)
    as (c1 & Hrun & Hl & Hout & Hin); [cbn [c_dropped_idxs]; rewrite len_nil; lia|].
  cbn [c_stdout c_dropped_idxs] in *.
  exists (mkCleaning (c_clean_texts c1) (c_dropped_idxs c1) true
                     (c_too_short c1) (c_stdout c1 ++ [WARN_EMPTY])).
  split; [|split].
  - unfold init_clean. cbn [texts_of].
    assert (Happ : forall l i c c',
               clean_loop clean_abstract i l c = (c', None) ->
               forall l', clean_loop clean_abstract i (l ++ l') c
                          = clean_loop clean_abstract (i + len l) l' c').
    { induction l as [|a l IH]; intros i c c' H l'.
      - simpl in H. injection H as ->. rewrite len_nil, Z.add_0_r.
        reflexivity.
      - cbn [clean_loop app] in *.
        destruct (clean_step clean_abstract i a c) as [c2 [e|]];
          [discriminate|].
        rewrite (IH _ _ _ H). f_equal. rewrite len_cons. lia. }
    rewrite (Happ _ _ _ _ Hrun). cbn [clean_loop clean_step c_dropped_idxs].
    unfold subscript.
    destruct (0 + len pre <? 0) eqn:E;
      [apply Z.ltb_lt in E; pose proof (len_nonneg pre); lia|].
    rewrite E. cbn [orb].
    destruct (len (c_dropped_idxs c1) <=? 0 + len pre) eqn:E2;
      [reflexivity | apply Z.leb_gt in E2; lia].
  - cbn [c_stdout]. rewrite Hout. reflexivity.
  - cbn [c_dropped_idxs]. intros H. destruct (Hin _ H) as [[]|H']. lia.
Qed.
End InitFacts.

Lemma init_absent_abstract_raises_witness :
  exists c,
    init_clean (fun a => Ok a)
               (TextsList ([Some (lit "A long enough abstract.")]
                             ++ None :: [Some (lit "Never reached.")]))
      = (c, Some IndexError)
    /\ c_stdout c = [WARN_EMPTY]
    /\ ~ In (len [Some (lit "A long enough abstract.")]) (c_dropped_idxs c).
Proof.
  apply (init_absent_abstract_raises (fun a => Ok a)).
  constructor; [|constructor].
  exists (lit "A long enough abstract."), (lit "A long enough abstract.").
  split; reflexivity.
Defined.

(** ** Dictionaries *)

Lemma str_eqb_eq a b : str_eqb a b = true <-> a = b.
Proof.
  unfold str_eqb. destruct (str_eq_dec a b); split; congruence.
Qed.

Lemma str_eqb_refl a : str_eqb a a = true.
Proof. apply str_eqb_eq. reflexivity. Qed.

Lemma str_eqb_neq a b : a <> b -> str_eqb a b = false.
Proof. unfold str_eqb. destruct (str_eq_dec a b); congruence. Qed.

Lemma sget_sset_same {V} (d : sdict V) k v : sget (sset d k v) k = Some v.
Proof.
  unfold sget, sset. induction d as [|[k' v'] d IH]; simpl.
  - rewrite str_eqb_refl. reflexivity.
  - destruct (str_eqb k k') eqn:E; simpl; rewrite E; [reflexivity | exact IH].
Qed.

Lemma sget_sset_other {V} (d : sdict V) k k' v :
  k <> k' -> sget (sset d k v) k' = sget d k'.
Proof.
  intros Hne. unfold sget, sset. induction d as [|[k0 v0] d IH]; simpl.
  - rewrite (str_eqb_neq k' k) by congruence. reflexivity.
  - destruct (str_eqb k k0) eqn:E; simpl.
    + apply str_eqb_eq in E. subst k0.
      rewrite (str_eqb_neq k' k) by congruence. reflexivity.
    + destruct (str_eqb k' k0); [reflexivity | exact IH].
Qed.

Lemma smem_sset {V} (d : sdict V) k k' v :
  smem d k' = true -> smem (sset d k v) k' = true.
Proof.
  unfold smem, PyDict.mem. fold (sget d k') (sget (sset d k v) k').
  destruct (str_eq_dec k k') as [->|Hne].
  - rewrite sget_sset_same. reflexivity.
  - rewrite sget_sset_other by exact Hne. auto.
Qed.

Lemma smem_sset_same {V} (d : sdict V) k v : smem (sset d k v) k = true.
Proof.
  unfold smem, PyDict.mem. fold (sget (sset d k v) k).
  rewrite sget_sset_same. reflexivity.
Qed.

(** A property of the entries survives an assignment when the assigned
    entry has it. *)
Lemma forallb_sset {V} (f : str * V -> bool) (d : sdict V) k v :
  forallb f d = true -> f (k, v) = true -> forallb f (sset d k v) = true.
Proof.
  intros Hd Hkv. unfold sset. induction d as [|[k' v'] d IH]; simpl.
  - rewrite Hkv. reflexivity.
  - simpl in Hd. apply andb_prop in Hd as [H1 H2].
    destruct (str_eqb k k') eqn:E; simpl.
    + apply str_eqb_eq in E. subst k'. rewrite Hkv, H2. reflexivity.
    + rewrite H1. simpl. apply IH, H2.
Qed.

Lemma sget_in {V} (d : sdict V) k v : sget d k = Some v -> In (k, v) d.
Proof.
  unfold sget. induction d as [|[k' v'] d IH]; simpl; [discriminate|].
  destruct (str_eqb k k') eqn:E.
  - apply str_eqb_eq in E. subst k'. intros [= ->]. left. reflexivity.
  - intros H. right. apply IH, H.
Qed.

(** ** Entity resolution *)

Lemma is_element_named e :
  is_element e = true -> exists n, sget element_dict e = Some n.
Proof.
  assert (Hall : forallb (fun x => smem element_dict (lit x)) ELEMENTS = true)
    by (vm_compute; reflexivity).
  unfold is_element. intros H. apply existsb_exists in H as (x & Hin & Heq).
  apply str_eqb_eq in Heq. subst e.
  rewrite forallb_forall in Hall. apply smem_sget, Hall, Hin.
Qed.

Lemma valence_groups_element s elem v :
  valence_groups s = Some (elem, v) -> is_element elem = true.
Proof.
  unfold valence_groups.
  destruct (split_at_paren s) as [[a b]|]; [|discriminate].
  destruct b as [|c inner]; [discriminate|].
  destruct (rev (c :: inner)) as [|l ?]; [discriminate|].
  destruct (is_element a) eqn:E; [|discriminate].
  destruct (_ && _ && _); [|discriminate].
  intros [= <- <-]. exact E.
Qed.

Lemma VALENCE_REGX_element s elem v :
  VALENCE_REGX_match s = Some (elem, v) -> is_element elem = true.
Proof.
  unfold VALENCE_REGX_match.
  destruct (valence_groups s) as [[a b]|] eqn:E.
  - intros [= <- <-]. eapply valence_groups_element, E.
  - destruct (ends_with_newline s); [|discriminate].
    apply valence_groups_element.
Qed.

(** Resolving the name of a mention never raises. *)
Lemma mention_name_total t : exists name, mention_name t = Ok name.
Proof.
  unfold mention_name, valence_rewrite.
  destruct (VALENCE_REGX_match t) as [[elem v]|] eqn:E.
  - destruct (is_element_named elem (VALENCE_REGX_element _ _ _ E)) as [n Hn].
    rewrite (sitem_sget _ _ _ Hn). simpl. eauto.
  - simpl. eauto.
Qed.

Lemma seed_counts_fold : forall (l : sdict cid_entry) (c : sdict Z),
  let c' := fold_left (fun counts kv =>
                         sset counts (count_key (fst kv) (snd kv)) 1) l c in
  (forall x, smem c x = true -> smem c' x = true)
  /\ forallb (fun kv => smem c' (count_key (fst kv) (snd kv))) l = true.
Proof.
  induction l as [|kv l IH]; intros c; cbn [fold_left forallb].
  - split; [auto | reflexivity].
  - destruct (IH (sset c (count_key (fst kv) (snd kv)) 1)) as [Hmono Hall].
    split.
    + intros x Hx. apply Hmono, smem_sset, Hx.
    + rewrite Hall, Hmono by apply smem_sset_same. reflexivity.
Qed.

Lemma seed_counts_ok p : counts_ok (seed_counts p) = true.
Proof.
  unfold counts_ok, seed_counts. cbn [entity_counts entity_to_cid set_entity_counts].
  apply seed_counts_fold.
Qed.

Lemma hardcode_CO p :
  sget (entity_to_cid (seed_counts (hardcode_entities p))) "CO" = Some CO_entry.
Proof.
  unfold seed_counts, hardcode_entities.
  cbn [entity_to_cid set_entity_counts set_entity_to_synonyms set_entity_to_cid].
  rewrite !sget_sset_other by (intros H; vm_compute in H; discriminate).
  apply sget_sset_same.
Qed.

Section ResolveFacts.
Variable get_compounds : nat -> str -> reply.
Variable doc_cems : str -> list cem.
Variable doc_abbvs : str -> list abbv_def.

(** A search that returns has sent requests for the name only and has
    left the caches and the texts alone; a search ends with an exception
    only when a request fails. *)
Lemma search_loop_spec name : forall n p,
  match search_loop get_compounds name n p with
  | Ok (c, p') =>
      exists k,
        (k <= n)%nat
        /\ requests p' = requests p ++ repeat name k
        /\ entity_to_cid p' = entity_to_cid p
        /\ entity_counts p' = entity_counts p
        /\ entity_to_synonyms p' = entity_to_synonyms p
        /\ same_texts p p'
  | Raise e =>
      e = RequestError
      /\ exists j, (j < n)%nat
                   /\ get_compounds (List.length (requests p) + j) name = Fails
  end.
Proof.
  induction n as [|n IH]; intros p; cbn [search_loop].
  - exists 0%nat. cbn. rewrite app_nil_r. unfold same_texts. cbn. auto 10.
  - destruct (get_compounds _ name) eqn:E.
    + specialize (IH (set_requests (requests p ++ [name]) p)).
      destruct (search_loop get_compounds name n _) as [[c p']|e].
      * destruct IH as (k & Hk & Hr & H1 & H2 & H3 & H4 & H5).
        exists (S k). rewrite Hr, H1, H2, H3. unfold same_texts.
        rewrite H4, H5. cbn. rewrite <- app_assoc. cbn. auto 10 with arith.
      * destruct IH as (-> & j & Hj & Hf). split; [reflexivity|].
        exists (S j). split; [lia|].
        cbn [requests set_requests] in Hf. rewrite length_app in Hf.
        cbn [List.length] in Hf.
        replace (List.length (requests p) + S j)%nat
          with (List.length (requests p) + 1 + j)%nat by lia.
        exact Hf.
    + exists 1%nat. cbn. unfold same_texts. cbn. auto 10 with arith.
    + split; [reflexivity|]. exists 0%nat. split; [lia|].
      rewrite Nat.add_0_r. exact E.
Qed.

Lemma counts_ok_sset p name entry :
  counts_ok p = true ->
  counts_ok
    (set_entity_counts (sset (entity_counts p) (count_key name entry) 1)
       (set_entity_to_cid (sset (entity_to_cid p) name entry) p)) = true.
Proof.
  unfold counts_ok. cbn. intros H. apply forallb_sset.
  - rewrite forallb_forall in *. intros kv Hin. apply smem_sset, H, Hin.
  - apply smem_sset_same.
Qed.

(** Registering a name that is new: one entry is added under that name,
    the requests made all carry that name. *)
Lemma register_new_spec name attempts p :
  counts_ok p = true ->
  match register_new get_compounds name attempts p with
  | Ok p' =>
      exists entry k,
        entity_to_cid p' = sset (entity_to_cid p) name entry
        /\ counts_ok p' = true
        /\ requests p' = requests p ++ repeat name k
        /\ same_texts p p'
  | Raise e => e = RequestError /\ ~ answers get_compounds
  end.
Proof.
  intros Hok. unfold register_new, search_pubchem.
  pose proof (search_loop_spec name (Z.to_nat attempts) p) as Hs.
  destruct (search_loop get_compounds name (Z.to_nat attempts) p)
    as [[c p1]|e]; cbn [bind].
  2:{ destruct Hs as (-> & j & _ & Hf). split; [reflexivity|].
      intros Hans. exact (Hans _ _ Hf). }
  destruct Hs as (k & _ & Hr & He & Hc & Hs & Ht1 & Ht2).
  assert (Hok1 : counts_ok p1 = true)
    by (unfold counts_ok in *; rewrite He, Hc; exact Hok).
  destruct c as [|c0 cs]; [|destruct (iupac_name c0) as [iupac|]].
  - exists (None, None), k. split; [cbn; rewrite He; reflexivity|].
    split; [apply (counts_ok_sset p1 name (None, None)), Hok1|].
    unfold same_texts. cbn. auto.
  - exists (Some (cid c0), Some iupac), k.
    split; [cbn; rewrite He; reflexivity|].
    split.
    + pose proof (counts_ok_sset p1 name (Some (cid c0), Some iupac) Hok1)
        as H. unfold counts_ok in *. cbn in *. exact H.
    + unfold same_texts. cbn. auto.
  - exists (Some (cid c0), None), k.
    split; [cbn; rewrite He; reflexivity|].
    split; [apply (counts_ok_sset p1 name (Some (cid c0), None)), Hok1|].
    unfold same_texts. cbn. auto.
Qed.

Lemma count_again_spec name p :
  counts_ok p = true ->
  smem (entity_to_cid p) name = true ->
  exists p',
    count_again name p = Ok p'
    /\ entity_to_cid p' = entity_to_cid p
    /\ counts_ok p' = true
    /\ requests p' = requests p
    /\ same_texts p p'.
Proof.
  intros Hok Hmem. destruct (smem_sget _ _ Hmem) as [v Hv].
  unfold count_again. rewrite (sitem_sget _ _ _ Hv). cbn [bind].
  assert (Hc : smem (entity_counts p) (count_key name v) = true).
  { unfold counts_ok in Hok. rewrite forallb_forall in Hok.
    apply (Hok (name, v)), sget_in, Hv. }
  destruct (smem_sget _ _ Hc) as [n Hn].
  rewrite (sitem_sget _ _ _ Hn). cbn [bind].
  eexists. split; [reflexivity|]. split; [reflexivity|].
  split; [|split; [reflexivity | unfold same_texts; cbn; auto]].
  unfold counts_ok in *. cbn. rewrite forallb_forall in *.
  intros kv Hin. apply smem_sset, Hok, Hin.
Qed.
End ResolveFacts.

Section ResolverTheorems.
Variable get_compounds : nat -> str -> reply.

(** A mention whose name is in the cache: no request, and nothing but its
    count changes. *)
Lemma resolve_cem_cached attempts p c name :
  counts_ok p = true ->
  mention_name (cem_text c) = Ok name ->
  smem (entity_to_cid p) name = true ->
  exists p',
    resolve_cem get_compounds attempts p c
      = Ok (p', (name, cem_start c, cem_end c))
    /\ entity_to_cid p' = entity_to_cid p
    /\ counts_ok p' = true
    /\ requests p' = requests p
    /\ same_texts p p'.
Proof.
  intros Hok Hname Hmem. unfold resolve_cem. rewrite Hname. cbn [bind].
  rewrite Hmem. cbn [negb].
  destruct (count_again_spec name p Hok Hmem)
    as (p' & Hrun & He & Hok' & Hr & Ht).
  rewrite Hrun. cbn [bind]. exists p'. auto.
Qed.

(** A mention whose name is new: the requests carry that name, and one
    entry is added under it; the step ends with an exception only when a
    request fails. *)
Lemma resolve_cem_new attempts p c name :
  counts_ok p = true ->
  mention_name (cem_text c) = Ok name ->
  smem (entity_to_cid p) name = false ->
  match resolve_cem get_compounds attempts p c with
  | Ok (p', ent) =>
      ent = (name, cem_start c, cem_end c)
      /\ counts_ok p' = true
      /\ (exists n, requests p' = requests p ++ repeat name n)
      /\ (exists entry, entity_to_cid p' = sset (entity_to_cid p) name entry)
      /\ same_texts p p'
  | Raise e => e = RequestError /\ ~ answers get_compounds
  end.
Proof.
  intros Hok Hname Hmem. unfold resolve_cem. rewrite Hname. cbn [bind].
  rewrite Hmem. cbn [negb].
  pose proof (register_new_spec get_compounds name attempts p Hok) as H.
  destruct (register_new get_compounds name attempts p) as [p'|e];
    cbn [bind]; [|exact H].
  destruct H as (entry & k & He & Hok' & Hr & Ht).
  split; [reflexivity|]. split; [exact Hok'|]. split; [eauto|].
  split; [eauto | exact Ht].
Qed.
End ResolverTheorems.

(** C7.  The substitution of l. 351-356 is not made for every valence in
    Roman numerals.  For each element symbol, a mention with the valence
    four, as "Ti(IV)", does not match the pattern of l. 78-79 (its
    [[IV|iv]] is a character class), so the symbol is left in place and
    the case rule lowers the whole mention: the name looked up and cached
    for "Ti(IV)" is "ti(iv)", where "Ti(III)" gives "titanium(iii)".  A
    run over a text with the mention "Ti(IV)" sends its one request for
    "ti(iv)", caches that name, and never has "titanium(iv)". *)
Theorem valence_four_keeps_symbol :
  Forall (fun e : string =>
            valence_rewrite (with_valence (lit e) (lit "IV"))
              = Ok (with_valence (lit e) (lit "IV"))
            /\ mention_name (with_valence (lit e) (lit "IV"))
               = Ok (lower (with_valence (lit e) (lit "IV"))))
         ELEMENTS
  /\ mention_name "Ti(III)" = Ok (lit "titanium(iii)")
  /\ mention_name "Ti(IV)" = Ok (lit "ti(iv)")
  /\ exists p',
       normalize_chemical_entities sample_pubchem valence_cems sample_abbvs
         (Some [lit "Ti(IV) oxide"]) false false 10 NoSave 100
         (new_processor []) = Ok p'
       /\ requests p' = [lit "ti(iv)"]
       /\ sget (entity_to_cid p') "ti(iv)" = Some (None, None)
       /\ smem (entity_to_cid p') "titanium(iv)" = false
       /\ normalized_texts p' = [lit "ti(iv) oxide"]
       /\ iget (entities_per_text p') 0
          = Some [(lit "ti(iv)", 0, 6, lit "ti(iv)")].
Proof.
  split.
  { apply Forall_forall. intros e He.
    assert (Hall : forallb
              (fun e : string =>
                 match valence_rewrite (with_valence (lit e) (lit "IV")),
                       mention_name (with_valence (lit e) (lit "IV")) with
                 | Ok a, Ok b =>
                     str_eqb a (with_valence (lit e) (lit "IV"))
                     && str_eqb b (lower (with_valence (lit e) (lit "IV")))
                 | _, _ => false
                 end) ELEMENTS = true) by (vm_compute; reflexivity).
    rewrite forallb_forall in Hall. specialize (Hall e He).
    destruct (valence_rewrite _) as [a|]; [|discriminate].
    destruct (mention_name _) as [b|]; [|discriminate].
    apply andb_prop in Hall as [Ha Hb].
    apply str_eqb_eq in Ha, Hb. subst. split; reflexivity. }
  split; [vm_compute; reflexivity|].
  split; [vm_compute; reflexivity|].
  eexists. split; [vm_compute; reflexivity|].
  repeat split; vm_compute; reflexivity.
Qed.

Lemma iget_iset_same {V} (d : idict V) k v : iget (iset d k v) k = Some v.
Proof.
  unfold iget, iset. induction d as [|[k' v'] d IH]; simpl.
  - rewrite Z.eqb_refl. reflexivity.
  - destruct (k =? k') eqn:E; simpl; rewrite E; [reflexivity | exact IH].
Qed.

Lemma iget_iset_other {V} (d : idict V) k k' v :
  k <> k' -> iget (iset d k v) k' = iget d k'.
Proof.
  intros Hne. unfold iget, iset. induction d as [|[k0 v0] d IH]; simpl.
  - destruct (k' =? k) eqn:E; [apply Z.eqb_eq in E; congruence | reflexivity].
  - destruct (k =? k0) eqn:E; simpl.
    + apply Z.eqb_eq in E. subst k0.
      destruct (k' =? k) eqn:E'; [apply Z.eqb_eq in E'; congruence | reflexivity].
    + destruct (k' =? k0); [reflexivity | exact IH].
Qed.

Lemma insert_by_in {A} (key : A -> Z) x y : forall l,
  In x (insert_by key y l) -> x = y \/ In x l.
Proof.
  induction l as [|z l IH]; simpl.
  - intros [<-|[]]. left. reflexivity.
  - destruct (key y <? key z); simpl.
    + intros [<-|H]; [left; reflexivity | right; exact H].
    + intros [<-|H]; [right; left; reflexivity|].
      destruct (IH H) as [->|H']; [left; reflexivity | right; right; exact H'].
Qed.

Lemma sort_by_in {A} (key : A -> Z) x l : In x (sort_by key l) -> In x l.
Proof.
  unfold sort_by.
  assert (H : forall l acc,
             In x (fold_left (fun acc y => insert_by key y acc) l acc) ->
             In x l \/ In x acc).
  { clear l. induction l as [|y l IH]; intros acc Hin; cbn [fold_left] in Hin.
    - right. exact Hin.
    - destruct (IH _ Hin) as [H|H]; [left; right; exact H|].
      destruct (insert_by_in _ _ _ _ H) as [->|H'];
        [left; left; reflexivity | right; exact H']. }
  intros Hin. destruct (H _ _ Hin) as [H'|[]]. exact H'.
Qed.

(** With every name resolved the loop of the rewriter returns, and each
    record pairs a mention name with its replacement name. *)
Lemma replace_entities_records wb e2c : forall ents t ic acc,
  names_known e2c ents = true ->
  exists t' ic' recs,
    replace_entities wb e2c ents (t, ic, acc) = Ok (t', ic', acc ++ recs)
    /\ Forall (fun r : entity_record =>
                 fst (fst (fst r)) = repl_of e2c (snd r)) recs.
Proof.
  induction ents as [|[[name s] e] rest IH]; intros t ic acc Hkn.
  - exists t, ic, []. rewrite app_nil_r. split; [reflexivity | constructor].
  - simpl in Hkn. apply andb_prop in Hkn as [Hname Hkn]. simpl in Hname.
    cbn [replace_entities]. rewrite replace_step_spec by exact Hname.
    cbn [bind].
    edestruct IH as (t' & ic' & recs & Hrun & Hall); [exact Hkn|].
    rewrite Hrun. do 3 eexists. rewrite <- app_assoc. cbn [app].
    split; [reflexivity|]. constructor; [reflexivity | exact Hall].
Qed.

(** ** The override of "CO" *)

Lemma no_CO_request_refl p : no_CO_request p p.
Proof. exists []. rewrite app_nil_r. split; [reflexivity | constructor]. Qed.

Lemma no_CO_request_trans p1 p2 p3 :
  no_CO_request p1 p2 -> no_CO_request p2 p3 -> no_CO_request p1 p3.
Proof.
  intros (r1 & H1 & F1) (r2 & H2 & F2). exists (r1 ++ r2).
  rewrite H2, H1, app_assoc. split; [reflexivity | apply Forall_app; auto].
Qed.

Lemma insert_by_in_rev {A} (key : A -> Z) x y : forall l,
  x = y \/ In x l -> In x (insert_by key y l).
Proof.
  induction l as [|z l IH]; cbn [insert_by].
  - intros [->|[]]. left. reflexivity.
  - destruct (key y <? key z).
    + intros [->|H]; [left; reflexivity | right; exact H].
    + intros [->|[->|H]]; [right; apply IH; left; reflexivity
                          | left; reflexivity
                          | right; apply IH; right; exact H].
Qed.

Lemma sort_by_in_rev {A} (key : A -> Z) x l : In x l -> In x (sort_by key l).
Proof.
  unfold sort_by.
  assert (H : forall l acc,
             In x l \/ In x acc ->
             In x (fold_left (fun acc y => insert_by key y acc) l acc)).
  { clear l. induction l as [|y l IH]; intros acc Hin; cbn [fold_left].
    - destruct Hin as [[]|H]. exact H.
    - apply IH. destruct Hin as [[->|H]|H].
      + right. apply insert_by_in_rev. left. reflexivity.
      + left. exact H.
      + right. apply insert_by_in_rev. right. exact H. }
  intros Hin. apply H. left. exact Hin.
Qed.

(** The rewriter files one record for each entity it is given, with the
    replacement name that the table has for the name. *)
Lemma replace_entities_covers wb e2c : forall ents t ic acc t' ic' recs,
  replace_entities wb e2c ents (t, ic, acc) = Ok (t', ic', recs) ->
  (forall r, In r acc -> In r recs)
  /\ forall name s e,
       In (name, s, e) ents ->
       exists s' e', In (repl_of e2c name, s', e', name) recs.
Proof.
  induction ents as [|[[name s] e] rest IH]; intros t ic acc t' ic' recs Hrun.
  - cbn [replace_entities] in Hrun. injection Hrun as <- <- <-.
    split; [auto | intros ? ? ? []].
  - cbn [replace_entities] in Hrun.
    destruct (smem e2c name) eqn:Hm.
    + rewrite replace_step_spec in Hrun by exact Hm. cbn [bind] in Hrun.
      destruct (IH _ _ _ _ _ _ Hrun) as [Hacc Hrest].
      split.
      * intros r Hr. apply Hacc, in_or_app. left. exact Hr.
      * intros name' s' e' [Heq|Hin]; [|exact (Hrest _ _ _ Hin)].
        injection Heq as <- <- <-. do 2 eexists.
        apply Hacc, in_or_app. right. left. reflexivity.
    + exfalso. unfold replace_step in Hrun.
      unfold smem, PyDict.mem in Hm. unfold sitem, PyDict.item in Hrun.
      destruct (PyDict.get str_eqb e2c name); discriminate.
Qed.

(** The resolver hands on one entity for each mention, under the name of
    the mention. *)
Lemma resolve_cems_covers gc attempts : forall cems p p' ents,
  resolve_cems gc attempts p cems = Ok (p', ents) ->
  forall c, In c cems ->
    exists name, mention_name (cem_text c) = Ok name
                 /\ In (name, cem_start c, cem_end c) ents.
Proof.
  induction cems as [|c0 cems IH]; intros p p' ents Hrun c Hin; [destruct Hin|].
  cbn [resolve_cems] in Hrun.
  destruct (resolve_cem gc attempts p c0) as [[p1 ent]|err] eqn:E;
    cbn [bind] in Hrun; [|discriminate].
  destruct (resolve_cems gc attempts p1 cems) as [[p2 ents2]|err] eqn:E2;
    cbn [bind] in Hrun; [|discriminate].
  injection Hrun as <- <-.
  destruct Hin as [->|Hin].
  - unfold resolve_cem in E.
    destruct (mention_name (cem_text c)) as [name|] eqn:Hn;
      cbn [bind] in E; [|discriminate].
    exists name. split; [reflexivity|]. left.
    destruct (negb _) in E.
    + destruct (register_new _ _ _ _) in E; cbn [bind] in E; [|discriminate].
      injection E as _ <-. reflexivity.
    + destruct (count_again _ _) in E; cbn [bind] in E; [|discriminate].
      injection E as _ <-. reflexivity.
  - destruct (IH _ _ _ E2 c Hin) as (name & Hn & Hi).
    exists name. split; [exact Hn | right; exact Hi].
Qed.

(** ** Save points *)

(** A save point touches the lists of synonyms only, and only when
    [save] is set; it raises only when [save_freq] is zero. *)
Lemma save_point_spec save save_freq i last p :
  match save_point save save_freq i last p with
  | Ok p' =>
      entity_to_cid p' = entity_to_cid p
      /\ entity_counts p' = entity_counts p
      /\ requests p' = requests p
      /\ timedout_entities p' = timedout_entities p
      /\ same_texts p p'
      /\ (save = NoSave -> p' = p)
  | Raise e => e = ZeroDivisionError /\ save_freq = 0
  end.
Proof.
  unfold save_point. destruct (Z.eqb_spec save_freq 0) as [->|Hne].
  - split; reflexivity.
  - destruct (_ || _); [destruct save|]; unfold same_texts; cbn;
      repeat split; try reflexivity; intros; discriminate.
Qed.

Lemma save_point_override save save_freq i last p p' :
  save_point save save_freq i last p = Ok p' ->
  override_inv p -> override_inv p'.
Proof.
  intros Hrun [Hok HCO]. pose proof (save_point_spec save save_freq i last p) as H.
  rewrite Hrun in H. destruct H as (He & Hc & _).
  unfold override_inv, counts_ok. rewrite He, Hc. split; assumption.
Qed.

Lemma save_point_no_request save save_freq i last p p' :
  save_point save save_freq i last p = Ok p' -> no_CO_request p p'.
Proof.
  intros Hrun. pose proof (save_point_spec save save_freq i last p) as H.
  rewrite Hrun in H. destruct H as (_ & _ & Hr & _).
  exists []. rewrite Hr, app_nil_r. split; [reflexivity | constructor].
Qed.

Section OverrideFacts.
Variable get_compounds : nat -> str -> reply.
Variable doc_cems : str -> list cem.
Variable doc_abbvs : str -> list abbv_def.

Lemma resolve_cem_step attempts p c :
  override_inv p ->
  match resolve_cem get_compounds attempts p c with
  | Ok (p', ent) =>
      exists name,
        ent = (name, cem_start c, cem_end c)
        /\ mention_name (cem_text c) = Ok name
        /\ override_inv p'
        /\ no_CO_request p p'
        /\ (name = lit "CO" ->
            requests p' = requests p /\ entity_to_cid p' = entity_to_cid p)
        /\ smem (entity_to_cid p') name = true
        /\ (forall k, smem (entity_to_cid p) k = true ->
                      smem (entity_to_cid p') k = true)
        /\ same_texts p p'
  | Raise e => e = RequestError /\ ~ answers get_compounds
  end.
Proof.
  intros [Hok HCO].
  destruct (mention_name_total (cem_text c)) as [name Hname].
  assert (HmemCO : smem (entity_to_cid p) "CO" = true).
  { unfold smem, PyDict.mem. fold (sget (entity_to_cid p) "CO").
    rewrite HCO. reflexivity. }
  destruct (smem (entity_to_cid p) name) eqn:Hmem.
  - destruct (resolve_cem_cached get_compounds attempts p c name Hok Hname Hmem)
      as (p' & Hrun & He & Hok' & Hr & Ht).
    rewrite Hrun. exists name. split; [reflexivity|]. split; [exact Hname|].
    unfold override_inv. rewrite He.
    split; [split; assumption|].
    split; [exists []; rewrite Hr, app_nil_r; split; [reflexivity|constructor]|].
    split; [intros _; split; [exact Hr | reflexivity]|].
    split; [exact Hmem|]. split; [auto | exact Ht].
  - pose proof (resolve_cem_new get_compounds attempts p c name Hok Hname Hmem)
      as H.
    destruct (resolve_cem get_compounds attempts p c) as [[p' ent]|e];
      [|exact H].
    destruct H as (-> & Hok' & [n Hr] & [entry He] & Ht).
    assert (Hne : name <> lit "CO") by (intros ->; congruence).
    exists name. split; [reflexivity|]. split; [exact Hname|].
    unfold override_inv. rewrite He.
    split; [split; [exact Hok'|]|].
    { rewrite sget_sset_other by exact Hne. exact HCO. }
    split; [exists (repeat name n); split; [exact Hr|]|].
    { apply Forall_forall. intros q Hq. apply repeat_spec in Hq. congruence. }
    split; [intros ->; congruence|].
    split; [apply smem_sset_same|].
    split; [intros k Hk; apply smem_sset, Hk | exact Ht].
Qed.

Lemma resolve_cems_steps attempts : forall cems p,
  override_inv p ->
  match resolve_cems get_compounds attempts p cems with
  | Ok (p', ents) =>
      override_inv p'
      /\ no_CO_request p p'
      /\ names_known (entity_to_cid p') ents = true
      /\ (forall k, smem (entity_to_cid p) k = true ->
                    smem (entity_to_cid p') k = true)
      /\ same_texts p p'
  | Raise e => e = RequestError /\ ~ answers get_compounds
  end.
Proof.
  induction cems as [|c cems IH]; intros p Hinv; cbn [resolve_cems].
  - split; [exact Hinv|]. split; [apply no_CO_request_refl|].
    split; [reflexivity|]. split; [auto | split; reflexivity].
  - pose proof (resolve_cem_step attempts p c Hinv) as H1.
    destruct (resolve_cem get_compounds attempts p c) as [[p1 ent]|e];
      cbn [bind]; [|exact H1].
    destruct H1 as (name & -> & _ & Hinv1 & Hreq1 & _ & Hmem1 & Hmono1 & Ht1).
    specialize (IH p1 Hinv1).
    destruct (resolve_cems get_compounds attempts p1 cems) as [[p2 ents]|e];
      cbn [bind]; [|exact IH].
    destruct IH as (Hinv2 & Hreq2 & Hkn & Hmono2 & Ht2).
    split; [exact Hinv2|].
    split; [eapply no_CO_request_trans; eassumption|].
    split; [cbn [names_known forallb fst];
            fold (names_known (entity_to_cid p2) ents);
            rewrite Hkn, (Hmono2 _ Hmem1); reflexivity|].
    split; [auto|].
    destruct Ht1 as [A1 B1], Ht2 as [A2 B2]. split; congruence.
Qed.

Hypothesis Hans : answers get_compounds.

Lemma resolve_cems_inv attempts : forall cems p,
  override_inv p ->
  exists p' ents,
    resolve_cems get_compounds attempts p cems = Ok (p', ents)
    /\ override_inv p'
    /\ no_CO_request p p'
    /\ names_known (entity_to_cid p') ents = true
    /\ (forall k, smem (entity_to_cid p) k = true ->
                  smem (entity_to_cid p') k = true)
    /\ same_texts p p'.
Proof.
  intros cems p Hinv. pose proof (resolve_cems_steps attempts cems p Hinv) as H.
  destruct (resolve_cems get_compounds attempts p cems) as [[p' ents]|e].
  - exists p', ents. split; [reflexivity | exact H].
  - destruct H as [_ H]. contradiction.
Qed.
End OverrideFacts.

Section OverrideRun.
Variable get_compounds : nat -> str -> reply.
Variable doc_cems : str -> list cem.
Variable doc_abbvs : str -> list abbv_def.

Lemma co_records p recs :
  override_inv p ->
  Forall (fun r : entity_record =>
            fst (fst (fst r)) = repl_of (entity_to_cid p) (snd r)) recs ->
  forallb co_record_ok recs = true.
Proof.
  intros [_ HCO] Hall. apply forallb_forall. intros [[[repl s] e] name] Hin.
  rewrite Forall_forall in Hall. specialize (Hall _ Hin). cbn in Hall.
  unfold co_record_ok. destruct (str_eqb name "CO") eqn:E; [|reflexivity].
  apply str_eqb_eq in E. subst name. apply str_eqb_eq.
  rewrite Hall. unfold repl_of. rewrite HCO. reflexivity.
Qed.

(** One text.  The part of [normalize_text] behind the removal of
    abbreviations raises only when a request fails; when the text is
    done, every mention "CO" of it has its record. *)
Lemma normalize_text_spec remove_abbr write_bold attempts p i text :
  override_inv p ->
  match normalize_text get_compounds doc_cems doc_abbvs remove_abbr
                       write_bold attempts p i text with
  | Ok p' =>
      override_inv p'
      /\ no_CO_request p p'
      /\ (exists text1 recs,
             abbreviations_removed doc_cems doc_abbvs remove_abbr text
               = Ok text1
             /\ entities_per_text p' = iset (entities_per_text p) i recs
             /\ forallb co_record_ok recs = true
             /\ forall c, In c (doc_cems text1) -> cem_text c = lit "CO" ->
                          exists s e, In (CO_record s e) recs)
      /\ (exists text2, normalized_texts p' = normalized_texts p ++ [text2])
  | Raise e =>
      remove_abbr = true \/ (e = RequestError /\ ~ answers get_compounds)
  end.
Proof.
  intros Hinv. unfold normalize_text.
  fold (abbreviations_removed doc_cems doc_abbvs remove_abbr text).
  destruct (abbreviations_removed doc_cems doc_abbvs remove_abbr text)
    as [text1|err] eqn:Hfirst; cbn [bind].
  2:{ left. unfold abbreviations_removed in Hfirst.
      destruct remove_abbr; [reflexivity | discriminate]. }
  pose proof (resolve_cems_steps get_compounds attempts (doc_cems text1) p Hinv)
    as Hres.
  pose proof (resolve_cems_covers get_compounds attempts (doc_cems text1) p)
    as Hcov.
  destruct (resolve_cems get_compounds attempts p (doc_cems text1))
    as [[p1 ents]|err]; cbn [bind]; [|right; exact Hres].
  destruct Hres as (Hinv1 & Hreq & Hkn & _ & Ht1 & Ht2).
  specialize (Hcov p1 ents eq_refl).
  assert (Hkn' : names_known (entity_to_cid p1)
                             (sort_by entity_start ents) = true).
  { unfold names_known in *. rewrite forallb_forall in *.
    intros x Hx. apply Hkn, sort_by_in with (key := entity_start), Hx. }
  destruct (replace_entities_records write_bold (entity_to_cid p1)
              (sort_by entity_start ents) text1 0 [] Hkn')
    as (t' & ic' & recs & Hrep & Hall).
  pose proof (replace_entities_covers write_bold (entity_to_cid p1) _ _ _ _ _ _ _
                Hrep) as [_ Hrecs].
  rewrite Hrep. cbn [bind app] in *.
  split; [exact Hinv1|]. split; [exact Hreq|]. split.
  - exists text1, recs. split; [reflexivity|].
    split; [cbn; rewrite Ht2; reflexivity|].
    split; [eapply co_records; eassumption|].
    intros c Hc Htext. destruct (Hcov c Hc) as (name & Hname & Hin).
    rewrite Htext in Hname.
    assert (name = lit "CO") as ->
      by (vm_compute in Hname; injection Hname as <-; reflexivity).
    apply (sort_by_in_rev entity_start) in Hin.
    destruct (Hrecs _ _ _ Hin) as (s' & e' & Hr).
    exists s', e'. unfold CO_record.
    replace (lit "carbon monoxide") with (repl_of (entity_to_cid p1) "CO");
      [exact Hr|].
    unfold repl_of. destruct Hinv1 as [_ H]. rewrite H. reflexivity.
  - exists t'. cbn. rewrite Ht1. reflexivity.
Qed.

Lemma normalize_loop_spec remove_abbr write_bold attempts save save_freq last :
  forall texts p i,
    override_inv p ->
    match normalize_loop get_compounds doc_cems doc_abbvs remove_abbr
                         write_bold attempts save save_freq last p i texts with
    | Ok p' =>
        override_inv p'
        /\ no_CO_request p p'
        /\ (forall j, j < i ->
              iget (entities_per_text p') j = iget (entities_per_text p) j)
        /\ (forall k text, nth_error texts k = Some text ->
              exists text1 recs,
                abbreviations_removed doc_cems doc_abbvs remove_abbr text
                  = Ok text1
                /\ iget (entities_per_text p') (i + Z.of_nat k) = Some recs
                /\ forallb co_record_ok recs = true
                /\ forall c, In c (doc_cems text1) -> cem_text c = lit "CO" ->
                             exists s e, In (CO_record s e) recs)
    | Raise e =>
        remove_abbr = true
        \/ (e = RequestError /\ ~ answers get_compounds)
        \/ (e = ZeroDivisionError /\ save_freq = 0)
    end.
Proof.
  induction texts as [|text rest IH]; intros p i Hinv; cbn [normalize_loop].
  - split; [exact Hinv|]. split; [apply no_CO_request_refl|].
    split; [reflexivity|]. intros [|k] t H; discriminate.
  - pose proof (normalize_text_spec remove_abbr write_bold attempts p i text Hinv)
      as Hstep.
    destruct (normalize_text _ _ _ _ _ _ p i text) as [p1|err];
      cbn [bind]; [|tauto].
    destruct Hstep as (Hinv1 & Hreq1 & (text1 & recs & Hab & Hept & Hco & Hcov) & _).
    pose proof (save_point_spec save save_freq i last p1) as Hsave.
    destruct (save_point save save_freq i last p1) as [p2|err] eqn:Esave;
      cbn [bind]; [|tauto].
    pose proof (save_point_override _ _ _ _ _ _ Esave Hinv1) as Hinv2.
    pose proof (save_point_no_request _ _ _ _ _ _ Esave) as Hreq2.
    destruct Hsave as (_ & _ & _ & _ & [_ Hept2] & _).
    specialize (IH p2 (i + 1) Hinv2).
    destruct (normalize_loop _ _ _ _ _ _ _ _ _ p2 (i + 1) rest) as [p3|err];
      [|exact IH].
    destruct IH as (Hinv3 & Hreq3 & Hbelow & Hrange).
    split; [exact Hinv3|].
    split; [eapply no_CO_request_trans;
            [eapply no_CO_request_trans|]; eassumption|].
    split.
    + intros j Hj. rewrite Hbelow by lia. rewrite Hept2, Hept.
      apply iget_iset_other. lia.
    + intros [|k] t Hk.
      * cbn in Hk. injection Hk as <-. exists text1, recs.
        split; [exact Hab|]. rewrite Z.add_0_r, Hbelow by lia.
        rewrite Hept2, Hept. split; [apply iget_iset_same|].
        split; assumption.
      * cbn [nth_error] in Hk. destruct (Hrange k t Hk) as (t1 & r1 & H).
        exists t1, r1.
        replace (i + Z.of_nat (S k)) with (i + 1 + Z.of_nat k) by lia.
        exact H.
Qed.
End OverrideRun.

(** C6.  The mention "CO" keeps its name "CO" (it is a formula), and
    every run starts by putting the hard coded names in place, whatever
    the caches held before.  From then on: resolving a mention "CO"
    returns without a request to PubChem, whatever PubChem would do; the
    rewriter reads "carbon monoxide" for it, puts that name in the text in
    place of the mention and files the record
    [("carbon monoxide", start, stop, "CO")]; when a text is done, each
    mention "CO" that the recogniser reports in it has such a record, no
    request has asked for "CO" and the hard coded entry is still in
    place; and so for every text of a run that returns.  A text is done,
    when abbreviations are not removed, as soon as no request fails. *)
Theorem CO_resolves_to_carbon_monoxide :
  forall (get_compounds : nat -> str -> reply)
         (doc_cems : str -> list cem) (doc_abbvs : str -> list abbv_def),
    mention_name "CO" = Ok (lit "CO")
    /\ (forall p0, override_inv (seed_counts (hardcode_entities p0)))
    /\ (forall attempts p c,
          override_inv p -> cem_text c = lit "CO" ->
          exists p',
            resolve_cem get_compounds attempts p c
              = Ok (p', (lit "CO", cem_start c, cem_end c))
            /\ requests p' = requests p
            /\ entity_to_cid p' = entity_to_cid p
            /\ override_inv p')
    /\ (forall write_bold e2c text index_change recs start stop,
          sget e2c "CO" = Some CO_entry ->
          replace_step write_bold e2c (text, index_change, recs)
                       (lit "CO", start, stop)
          = Ok (slice_to text (start + index_change)
                  ++ inserted write_bold "carbon monoxide"
                  ++ slice_from text (stop + index_change),
                index_change
                  + (len (inserted write_bold "carbon monoxide")
                     - (stop - start)),
                recs ++ [CO_record
                           (start + index_change)
                           (stop + (index_change
                                    + (len (inserted write_bold
                                                     "carbon monoxide")
                                       - (stop - start))))]))
    /\ (forall remove_abbr write_bold attempts p i text p',
          override_inv p ->
          normalize_text get_compounds doc_cems doc_abbvs remove_abbr
                         write_bold attempts p i text = Ok p' ->
          override_inv p'
          /\ no_CO_request p p'
          /\ exists text1 recs,
               abbreviations_removed doc_cems doc_abbvs remove_abbr text
                 = Ok text1
               /\ iget (entities_per_text p') i = Some recs
               /\ forallb co_record_ok recs = true
               /\ forall c, In c (doc_cems text1) -> cem_text c = lit "CO" ->
                            exists s e, In (CO_record s e) recs)
    /\ (forall texts remove_abbr write_bold attempts save save_freq p p' l,
          normalize_chemical_entities get_compounds doc_cems doc_abbvs
            texts remove_abbr write_bold attempts save save_freq p = Ok p' ->
          run_texts texts p = Some l ->
          sget (entity_to_cid p') "CO" = Some CO_entry
          /\ no_CO_request p p'
          /\ forall k text, nth_error l k = Some text ->
               exists text1 recs,
                 abbreviations_removed doc_cems doc_abbvs remove_abbr text
                   = Ok text1
                 /\ iget (entities_per_text p')
                         (len (normalized_texts p) + Z.of_nat k) = Some recs
                 /\ forallb co_record_ok recs = true
                 /\ forall c, In c (doc_cems text1) ->
                              cem_text c = lit "CO" ->
                              exists s e, In (CO_record s e) recs)
    /\ (answers get_compounds ->
        forall write_bold attempts p i text,
          override_inv p ->
          exists p',
            normalize_text get_compounds doc_cems doc_abbvs false
                           write_bold attempts p i text = Ok p').
Proof.
  intros gc dc da.
  assert (Hseed : forall p0, override_inv (seed_counts (hardcode_entities p0)))
    by (intros p0; split; [apply seed_counts_ok | apply hardcode_CO]).
  split; [vm_compute; reflexivity|]. split; [exact Hseed|].
  split; [|split; [|split; [|split]]].
  - intros attempts p c [Hok HCO] Htext.
    assert (Hname : mention_name (cem_text c) = Ok (lit "CO"))
      by (rewrite Htext; vm_compute; reflexivity).
    assert (Hmem : smem (entity_to_cid p) "CO" = true).
    { unfold smem, PyDict.mem. fold (sget (entity_to_cid p) "CO").
      rewrite HCO. reflexivity. }
    destruct (resolve_cem_cached gc attempts p c _ Hok Hname Hmem)
      as (p' & Hrun & He & Hok' & Hr & _).
    exists p'. split; [exact Hrun|]. split; [exact Hr|]. split; [exact He|].
    unfold override_inv. rewrite He. split; assumption.
  - intros write_bold e2c text ic recs start stop HCO.
    assert (Hmem : smem e2c "CO" = true).
    { unfold smem, PyDict.mem. fold (sget e2c "CO"). rewrite HCO. reflexivity. }
    rewrite replace_step_spec by exact Hmem.
    unfold delta_of, repl_of, CO_record. rewrite HCO. reflexivity.
  - intros remove_abbr write_bold attempts p i text p' Hinv Hrun.
    pose proof (normalize_text_spec gc dc da remove_abbr write_bold attempts
                  p i text Hinv) as H.
    rewrite Hrun in H.
    destruct H as (Hinv' & Hreq & (text1 & recs & Hab & Hept & Hco & Hcov) & _).
    split; [exact Hinv'|]. split; [exact Hreq|].
    exists text1, recs. split; [exact Hab|].
    split; [rewrite Hept; apply iget_iset_same|]. split; assumption.
  - intros texts remove_abbr write_bold attempts save save_freq p p' l Hrun Hl.
    unfold normalize_chemical_entities in Hrun.
    assert (Htexts : match texts with
                     | Some l => Ok l
                     | None =>
                         match clean_texts (set_timedout_entities [] p) with
                         | Some l => Ok l
                         | None => Raise AttributeError
                         end
                     end = Ok l).
    { unfold run_texts in Hl. destruct texts as [l'|]; [congruence|].
      cbn [clean_texts set_timedout_entities]. rewrite Hl. reflexivity. }
    rewrite Htexts in Hrun. cbn [bind] in Hrun.
    set (p1 := seed_counts (hardcode_entities (set_timedout_entities [] p)))
      in *.
    pose proof (normalize_loop_spec gc dc da remove_abbr write_bold attempts
                  save save_freq (len l + len (normalized_texts p1) - 1)
                  l p1 (len (normalized_texts p1)) (Hseed _)) as H.
    rewrite Hrun in H. destruct H as ([_ HCO] & Hreq & _ & Hrange).
    split; [exact HCO|]. split; [exact Hreq|]. exact Hrange.
  - intros Hans write_bold attempts p i text Hinv.
    pose proof (normalize_text_spec gc dc da false write_bold attempts
                  p i text Hinv) as H.
    destruct (normalize_text gc dc da false write_bold attempts p i text)
      as [p'|e]; [eauto|].
    destruct H as [H|[_ H]]; [discriminate | contradiction].
Qed.

(** ** Tokenizing a text without entities *)

Section TokenizeFacts.
Variable cwt_tokenize : str -> list str.
Variable split_token : str -> list str.
Variable mtp_process : list str -> bool -> list str.
Variable para_sentences : str -> list (str * Z).




End TokenizeFacts.


(** ** Abbreviations with the index zero *)

Lemma abbv_loop_skips_zero cems : forall entries st,
  abbv_loop cems entries st
  = abbv_loop cems (filter (fun e => negb (abbv_key e =? 0)) entries) st.
Proof.
  induction entries as [|[abbv [non_abbv low]] rest IH]; intros st;
    [reflexivity|].
  cbn [filter abbv_key snd]. destruct (low =? 0) eqn:E; cbn [negb].
  - cbn [abbv_loop]. unfold abbv_step. destruct st as [text ic].
    rewrite E. cbn [bind]. apply IH.
  - cbn [abbv_loop]. destruct (abbv_step cems st (abbv, (non_abbv, low)));
      cbn [bind]; [apply IH | reflexivity].
Qed.

Lemma sset_in {V} (d : sdict V) k v k' v' :
  In (k', v') (sset d k v) -> (k' = k /\ v' = v) \/ In (k', v') d.
Proof.
  unfold sset. induction d as [|[k0 v0] d IH]; cbn [PyDict.set].
  - intros [[= <- <-]|[]]. left. split; reflexivity.
  - destruct (str_eqb k k0) eqn:E.
    + apply str_eqb_eq in E. subst k0.
      intros [[= <- <-]|Hin]; [left; split; reflexivity | right; right; exact Hin].
    + intros [Heq|Hin]; [right; left; exact Heq|].
      destruct (IH Hin) as [H|H]; [left; exact H | right; right; exact H].
Qed.

(** Every entry of [abbv_dict] comes from a definition with an entity
    tag, under its escaped short form. *)
Lemma build_abbv_dict_entries cems (Q : str -> str * Z -> Prop) abbvs :
  (forall a, In a abbvs -> abbv_tag a <> None ->
             Q (escape_abbv (abbv_first a))
               (join_space (abbv_long a),
                low_idx_of cems (escape_abbv (abbv_first a)))) ->
  forall k v, In (k, v) (build_abbv_dict cems abbvs) -> Q k v.
Proof.
  unfold build_abbv_dict.
  assert (H : forall l d,
             (forall k v, In (k, v) d -> Q k v) ->
             (forall a, In a l -> abbv_tag a <> None ->
                        Q (escape_abbv (abbv_first a))
                          (join_space (abbv_long a),
                           low_idx_of cems (escape_abbv (abbv_first a)))) ->
             forall k v,
               In (k, v)
                  (fold_left
                     (fun d a =>
                        match abbv_tag a with
                        | Some _ =>
                            let abbv_name := escape_abbv (abbv_first a) in
                            sset d abbv_name
                                 (join_space (abbv_long a),
                                  low_idx_of cems abbv_name)
                        | None => d
                        end) l d) -> Q k v).
  { induction l as [|a l IH]; intros d Hd Hl k v; cbn [fold_left];
      [apply Hd|].
    apply IH; [|intros a' Ha'; apply Hl; right; exact Ha'].
    destruct (abbv_tag a) eqn:E; [|exact Hd].
    intros k' v' Hin. destruct (sset_in _ _ _ _ _ Hin) as [[-> ->]|H'].
    - apply Hl; [left; reflexivity | congruence].
    - apply Hd, H'. }
  intros Hall. apply H; [intros ? ? [] | exact Hall].
Qed.

Lemma filter_none {A} (f : A -> bool) l :
  (forall x, In x l -> f x = false) -> filter f l = [].
Proof.
  induction l as [|x l IH]; intros H; [reflexivity|].
  cbn [filter]. rewrite (H x) by (left; reflexivity).
  apply IH. intros y Hy. apply H. right. exact Hy.
Qed.

(** C10.  The index 0 stands both for an abbreviation that matched no
    recognised entity and for one whose earliest matching entity starts
    at the first character.  A turn of the loop for an abbreviation with
    that index returns the text and the drift as they are: nothing is
    deleted and nothing is substituted.  The loop therefore returns what
    it returns without those abbreviations, and when every abbreviation
    of a text has the index 0 the text comes back unchanged. *)
Theorem abbreviation_at_index_zero_untouched :
  (forall cems name,
      spans_named cems name = [] -> low_idx_of cems name = 0)
  /\ (forall cems name m,
        first_min (spans_named cems name) = Ok m -> fst m = 0 ->
        low_idx_of cems name = 0)
  /\ (forall cems text index_change abbv non_abbv,
        abbv_step cems (text, index_change) (abbv, (non_abbv, 0))
        = Ok (text, index_change))
  /\ (forall cems entries st,
        abbv_loop cems entries st
        = abbv_loop cems (filter (fun e => negb (abbv_key e =? 0)) entries) st)
  /\ (forall doc_cems doc_abbvs text,
        (forall a, In a (doc_abbvs text) -> abbv_tag a <> None ->
                   low_idx_of (doc_cems text) (escape_abbv (abbv_first a)) = 0) ->
        remove_abbreviations doc_cems doc_abbvs text = Ok text).
Proof.
  split; [intros cems name H; unfold low_idx_of; rewrite H; reflexivity|].
  split; [intros cems name m H H0; unfold low_idx_of; rewrite H; exact H0|].
  split; [reflexivity|].
  split; [apply abbv_loop_skips_zero|].
  intros doc_cems doc_abbvs text Hzero. unfold remove_abbreviations.
  destruct (doc_abbvs text) as [|a0 abbvs] eqn:Eabbvs; [reflexivity|].
  rewrite abbv_loop_skips_zero.
  rewrite filter_none; [reflexivity|].
  intros [k v] Hin. apply sort_by_in in Hin.
  assert (Hv : snd v = 0).
  { revert k v Hin.
    apply (build_abbv_dict_entries (doc_cems text) (fun _ v => snd v = 0)).
    intros a Ha Htag. cbn [snd]. apply Hzero; assumption. }
  unfold abbv_key. cbn [snd]. rewrite Hv. reflexivity.
Qed.

(** ** Counts, synonyms and abbreviations on concrete runs *)

(** C4 on the code.  On a new processor, with a PubChem that answers at
    once: a run over no text leaves the count 1 for "carbon monoxide",
    which has no mention; a run over "CO binds", with its one mention of
    "CO", leaves the count 2 for "carbon monoxide"; a run over "water and
    water are H2O", whose three mentions all resolve to "oxidane", leaves
    the count 1 for "oxidane", because the first mention under a new name
    sets the count of its canonical name back to 1 (l. 384). *)
Theorem entity_counts_differ_from_mentions :
  count_after
    (normalize_chemical_entities sample_pubchem sample_cems sample_abbvs
       (Some []) true false 10 NoSave 100 (new_processor []))
    "carbon monoxide" = Some 1
  /\ count_after
       (normalize_chemical_entities sample_pubchem sample_cems sample_abbvs
          (Some [lit "CO binds"]) true false 10 NoSave 100 (new_processor []))
       "carbon monoxide" = Some 2
  /\ count_after
       (normalize_chemical_entities sample_pubchem sample_cems sample_abbvs
          (Some [lit "water and water are H2O"]) true false 10 NoSave 100
          (new_processor []))
       "oxidane" = Some 1.
Proof. repeat split; vm_compute; reflexivity. Qed.

(** C5 on the code.  A first run over "carbon monoxide binds" resolves
    the mention "carbon monoxide" to the canonical name "carbon monoxide"
    and adds it to the synonyms of that name, next to the hard coded
    "CO".  A second run on the same processor, over no text at all,
    assigns the hard coded list again (l. 324): the synonym is gone. *)
Theorem synonyms_shrink_on_second_run :
  synonyms_after
    (normalize_chemical_entities sample_pubchem sample_cems sample_abbvs
       (Some [lit "carbon monoxide binds"]) true false 10 NoSave 100 (new_processor []))
    "carbon monoxide" = Some [lit "CO"; lit "carbon monoxide"]
  /\ synonyms_after
       (p1 <- normalize_chemical_entities sample_pubchem sample_cems
                sample_abbvs (Some [lit "carbon monoxide binds"])
                true false 10 NoSave 100 (new_processor []) ;;
        normalize_chemical_entities sample_pubchem sample_cems sample_abbvs
          (Some []) true false 10 NoSave 100 p1)
       "carbon monoxide" = Some [lit "CO"].
Proof. split; vm_compute; reflexivity. Qed.

(** C8 on the code.  In the second text "(PLA)" follows its long form
    after a space, and stays: the long form put in for "PEG" has moved it
    by 16 characters, the drift only counts the 6 deleted with "(PEG)",
    and the characters read at the stale offsets are not the parentheses.
    In the first text the parenthetical goes, but of the two later
    occurrences "NMR NMR" only the first is replaced, its match having
    taken the space that the second needs before it; the text ends 23
    characters shorter than the length the specification computes. *)
Theorem abbreviation_definition_survives :
  remove_abbreviations sample_cems sample_abbvs
    "polyethylene glycol (PEG) and PEG with polylactic acid (PLA) and PLA"
  = Ok (lit "polyethylene glycol and polyethylene glycol with polylactic acid (PLA) and polylactic acid")
  /\ remove_abbreviations sample_cems sample_abbvs
       "the nuclear magnetic resonance (NMR) data and NMR NMR fit"
     = Ok (lit "the nuclear magnetic resonance data and nuclear magnetic resonance NMR fit")
  /\ len (lit "the nuclear magnetic resonance data and nuclear magnetic resonance NMR fit")
     = len (lit "the nuclear magnetic resonance (NMR) data and NMR NMR fit")
       + (3 - 1) * (len (lit "nuclear magnetic resonance") - len (lit "NMR"))
       - len (lit " (NMR)")
       - 23.
Proof. repeat split; vm_compute; reflexivity. Qed.

(** ** The theorems at concrete inputs *)

Lemma rewriter_recorded_spans_witness :
  exists final recs,
    replace_entities false sample_table
                     [(lit "CO", 0, 2); (lit "water", 7, 12)]
                     (lit "CO and water", 0, [])
      = Ok (final, 15, recs)
    /\ slice final 0 15 = lit "carbon monoxide"
    /\ slice final 20 27 = lit "oxidane".
Proof.
  destruct (rewriter_recorded_spans false sample_table (lit "CO and water")
              [(lit "CO", 0, 2); (lit "water", 7, 12)])
    as (_ & final & recs & Hrun & _ & _ & Hk);
    [vm_compute; reflexivity | vm_compute; reflexivity |].
  exists final, recs. split; [exact Hrun|]. split.
  - exact (proj2 (proj2 (proj2 (Hk 0%nat (lit "CO") 0 2 eq_refl)))).
  - exact (proj2 (proj2 (proj2 (Hk 1%nat (lit "water") 7 12 eq_refl)))).
Defined.

Lemma CO_resolves_to_carbon_monoxide_witness :
  replace_step false sample_table (lit "CO binds", 0, []) (lit "CO", 0, 2)
    = Ok (lit "carbon monoxide binds", 13, [CO_record 0 15])
  /\ exists p' recs s e,
       normalize_chemical_entities silent_pubchem sample_cems sample_abbvs
         (Some [lit "CO binds"]) false false 10 NoSave 100 (new_processor [])
         = Ok p'
       /\ no_CO_request (new_processor []) p'
       /\ iget (entities_per_text p') 0 = Some recs
       /\ In (CO_record s e) recs.
Proof.
  destruct (CO_resolves_to_carbon_monoxide silent_pubchem sample_cems
              sample_abbvs) as (_ & _ & _ & Hread & _ & Hrun & _).
  split.
  - exact (Hread false sample_table (lit "CO binds") 0 [] 0 2 eq_refl).
  - destruct (normalize_chemical_entities silent_pubchem sample_cems
                sample_abbvs (Some [lit "CO binds"]) false false 10 NoSave 100
                (new_processor [])) as [p'|err] eqn:E;
      [|vm_compute in E; discriminate].
    destruct (Hrun (Some [lit "CO binds"]) false false 10 NoSave 100
                   (new_processor []) p' [lit "CO binds"] E eq_refl)
      as (_ & Hreq & Hk).
    destruct (Hk 0%nat (lit "CO binds") eq_refl)
      as (text1 & recs & Hab & Hget & _ & Hcov).
    injection Hab as <-.
    destruct (Hcov (mkCem "CO" 0 2)) as (s & e & Hin);
      [left; reflexivity | reflexivity |].
    exists p', recs, s, e. split; [reflexivity|]. split; [exact Hreq|].
    split; [exact Hget | exact Hin].
Defined.


Lemma abbreviation_at_index_zero_untouched_witness :
  remove_abbreviations
    (fun _ => [mkCem "PEG" 0 3; mkCem "PEG" 26 29])
    (fun _ => [mkAbbv "PEG" [lit "polyethylene"; lit "glycol"]
                      (Some (lit "CM"))])
    "PEG, polyethylene glycol (PEG) and PEG"
  = Ok (lit "PEG, polyethylene glycol (PEG) and PEG").
Proof.
  apply abbreviation_at_index_zero_untouched.
  intros a [<-|[]] _. vm_compute. reflexivity.
Defined.


(* ================================================================== *)
(** * Further properties of the code *)

(** ** Splitting a text at its entities *)

Lemma clamp_range n i : 0 <= n -> 0 <= clamp n i <= n.
Proof. intros Hn. unfold clamp. destruct (Z.ltb_spec i 0); lia. Qed.

Lemma slice_slice_from (t : str) a b :
  0 <= a <= b -> b <= len t ->
  firstn (Z.to_nat (b - a)) (skipn (Z.to_nat a) t) ++ skipn (Z.to_nat b) t
  = skipn (Z.to_nat a) t.
Proof.
  intros Ha Hb.
  replace (Z.to_nat b) with (Z.to_nat (b - a) + Z.to_nat a)%nat by lia.
  rewrite <- skipn_skipn. apply firstn_skipn.
Qed.

Lemma extract_loop_text text : forall spans prev,
  spans <> [] ->
  pairs_ok (clamp (len text) prev) (map (norm_span text) spans) = true ->
  flat_map item_text (extract_loop text spans prev) = slice_from text prev.
Proof.
  pose proof (len_nonneg text) as Hlen.
  induction spans as [|[start stop] rest IH]; intros prev Hne Hok;
    [congruence|].
  cbn [map norm_span fst snd pairs_ok] in Hok.
  apply andb_prop in Hok as [Hok Hrest]. apply andb_prop in Hok as [H1 H2].
  apply Z.leb_le in H1, H2.
  pose proof (clamp_range (len text) prev Hlen) as Hp.
  pose proof (clamp_range (len text) start Hlen) as Hs.
  pose proof (clamp_range (len text) stop Hlen) as He.
  cbn [extract_loop]. rewrite !flat_map_app.
  assert (Hadd : flat_map item_text
                   (if nonempty (slice text prev start)
                    then [Plain (slice text prev start)] else [])
                 = slice text prev start).
  { destruct (slice text prev start); cbn; [reflexivity|].
    rewrite app_nil_r. reflexivity. }
  rewrite Hadd. cbn [flat_map item_text List.concat]. rewrite !app_nil_r.
  assert (Htail : flat_map item_text
                    match rest with
                    | [] => [Plain (slice_from text stop)]
                    | _ :: _ => []
                    end ++ flat_map item_text (extract_loop text rest stop)
                  = slice_from text stop).
  { destruct rest as [|sp rest'].
    - cbn. rewrite !app_nil_r. reflexivity.
    - cbn [flat_map app]. apply IH; [discriminate | exact Hrest]. }
  rewrite Htail. unfold slice, slice_from.
  rewrite slice_slice_from by lia. apply slice_slice_from; lia.
Qed.

Lemma entity_items_app a b :
  entity_items (a ++ b) = entity_items a ++ entity_items b.
Proof.
  induction a as [|[s|l] a IH]; cbn [app entity_items]; [reflexivity | exact IH|].
  rewrite IH. reflexivity.
Qed.

Lemma entity_items_extract_loop text : forall spans prev,
  entity_items (extract_loop text spans prev)
  = map (fun sp => [slice text (fst sp) (snd sp)]) spans.
Proof.
  induction spans as [|[start stop] rest IH]; intros prev; [reflexivity|].
  cbn [extract_loop map fst snd]. rewrite !entity_items_app, IH.
  destruct (nonempty (slice text prev start)); destruct rest; reflexivity.
Qed.

Lemma entity_items_extract text spans :
  entity_items (extract_entity_tokens text spans)
  = map (fun sp => [slice text (fst sp) (snd sp)]) spans.
Proof.
  destruct spans as [|sp rest]; [reflexivity|].
  apply (entity_items_extract_loop text (sp :: rest) 0).
Qed.

Lemma slice_from_0 (text : str) : slice_from text 0 = text.
Proof.
  unfold slice_from. rewrite clamp_id by (pose proof (len_nonneg text); lia).
  reflexivity.
Qed.

(** X1.  The elements of [token_list] are the text cut at the spans: when
    the spans, read as slices read them, follow each other from the start
    of the text, the elements put together give the text back, nothing
    lost and nothing twice; and in any case the entity elements are the
    slices of the spans, one for each span and in their order. *)
Theorem extract_entity_tokens_covers_text :
  forall (text : str) (spans : list (Z * Z)),
    entity_items (extract_entity_tokens text spans)
    = map (fun sp => [slice text (fst sp) (snd sp)]) spans
    /\ (pairs_ok 0 (map (norm_span text) spans) = true ->
        flat_map item_text (extract_entity_tokens text spans) = text).
Proof.
  intros text spans. split; [apply entity_items_extract|].
  intros Hok. destruct spans as [|sp rest].
  - cbn. apply app_nil_r.
  - unfold extract_entity_tokens.
    rewrite extract_loop_text; [apply slice_from_0 | discriminate |].
    rewrite clamp_id by (pose proof (len_nonneg text); lia). exact Hok.
Qed.

Lemma extract_entity_tokens_covers_text_witness :
  flat_map item_text
    (extract_entity_tokens (lit "NO is there.") [(-12, -10); (-6, -1)])
  = lit "NO is there.".
Proof.
  apply (extract_entity_tokens_covers_text (lit "NO is there.")
           [(-12, -10); (-6, -1)]).
  vm_compute. reflexivity.
Defined.

(** ** Tokens and the entity index *)

Section TokenListFacts.
Variable cwt_tokenize : str -> list str.
Variable split_token : str -> list str.

Lemma process_items_singletons : forall items tokens idxs,
  Forall (fun l : list str => exists x, l = [x]) (entity_items items) ->
  exists more new,
    process_items cwt_tokenize split_token items (tokens, idxs)
      = Ok (tokens ++ more, idxs ++ new)
    /\ map (fun e : idx_entry => [fst e]) new = entity_items items
    /\ Forall (fun e : idx_entry =>
                 len tokens <= snd e
                 /\ nth_error (tokens ++ more) (Z.to_nat (snd e))
                    = Some (fst e)) new.
Proof.
  induction items as [|[s|l] rest IH]; intros tokens idxs Hall.
  - exists [], []. rewrite !app_nil_r.
    split; [reflexivity|]. split; [reflexivity | constructor].
  - cbn [entity_items] in Hall.
    destruct (IH (tokens ++ flat_map split_token (cwt_tokenize s)) idxs Hall)
      as (more & new & Hrun & Hnames & Hidx).
    exists (flat_map split_token (cwt_tokenize s) ++ more), new.
    cbn [process_items process_item bind]. rewrite Hrun, <- app_assoc.
    split; [reflexivity|]. split; [exact Hnames|].
    eapply Forall_impl; [|exact Hidx]. cbv beta. intros e [H1 H2].
    rewrite len_app in H1.
    pose proof (len_nonneg (flat_map split_token (cwt_tokenize s))).
    split; [lia|]. rewrite app_assoc. exact H2.
  - cbn [entity_items] in Hall. inversion Hall as [|? ? [x ->] Hrest]; subst.
    destruct (IH (tokens ++ [x]) (idxs ++ [(x, len (tokens ++ [x]) - 1)]) Hrest)
      as (more & new & Hrun & Hnames & Hidx).
    exists ([x] ++ more), ((x, len (tokens ++ [x]) - 1) :: new).
    cbn [process_items process_item bind]. unfold subscript.
    cbn [Z.ltb Z.compare orb nth_error Z.to_nat]. 
    change (len [x] <=? 0) with false. cbn [bind]. rewrite Hrun.
    rewrite <- !app_assoc. cbn [app].
    split; [reflexivity|]. split; [cbn [map fst entity_items]; rewrite Hnames; reflexivity|].
    rewrite len_app, len_cons, len_nil.
    constructor.
    + cbn [fst snd]. split; [lia|].
      replace (Z.to_nat (len tokens + (1 + 0) - 1)) with (List.length tokens)
        by (unfold len; lia).
      rewrite nth_error_app2 by lia. rewrite Nat.sub_diag. reflexivity.
    + eapply Forall_impl; [|exact Hidx]. cbv beta. intros e [H1 H2].
      rewrite len_app, len_cons, len_nil in H1. split; [lia|].
      rewrite <- app_assoc in H2. exact H2.
Qed.

Lemma entity_index_points_at_entity_aux text spans :
  exists tokens idxs,
    process_token_list cwt_tokenize split_token
                       (extract_entity_tokens text spans)
      = Ok (tokens, idxs)
    /\ map fst idxs = map (fun sp => slice text (fst sp) (snd sp)) spans.
Proof.
  unfold process_token_list.
  destruct (process_items_singletons (extract_entity_tokens text spans) [] [])
    as (more & new & Hrun & Hnames & _).
  - rewrite entity_items_extract.
    apply Forall_forall. intros l Hl. apply in_map_iff in Hl as (sp & <- & _).
    eauto.
  - exists more, new. split; [exact Hrun|].
    rewrite entity_items_extract in Hnames.
    clear - Hnames. revert spans Hnames.
    induction new as [|e new IH]; intros [|sp spans] H; try discriminate;
      [reflexivity|].
    cbn [map] in *. injection H as H1 H2. rewrite H1, (IH _ H2). reflexivity.
Qed.

(** X2.  [process_token_list] returns for every [token_list] that
    [extract_entity_tokens] builds.  The entity index it returns has one
    entry for each span, in the order of the spans, named by the slice of
    the span; and the index of an entry is the place of its name in the
    token list returned. *)
Theorem entity_index_points_at_entity :
  forall (text : str) (spans : list (Z * Z)),
  exists tokens idxs,
    process_token_list cwt_tokenize split_token
                       (extract_entity_tokens text spans)
      = Ok (tokens, idxs)
    /\ map fst idxs = map (fun sp => slice text (fst sp) (snd sp)) spans
    /\ Forall (fun e : idx_entry =>
                 0 <= snd e
                 /\ nth_error tokens (Z.to_nat (snd e)) = Some (fst e)) idxs.
Proof.
  intros text spans. unfold process_token_list.
  destruct (process_items_singletons (extract_entity_tokens text spans) [] [])
    as (more & new & Hrun & Hnames & Hidx).
  - rewrite entity_items_extract.
    apply Forall_forall. intros l Hl. apply in_map_iff in Hl as (sp & <- & _).
    eauto.
  - exists more, new. split; [exact Hrun|]. split.
    + rewrite entity_items_extract in Hnames.
      clear - Hnames. revert spans Hnames.
      induction new as [|e new IH]; intros [|sp spans] H; try discriminate;
        [reflexivity|].
      cbn [map] in *. injection H as H1 H2. rewrite H1, (IH _ H2). reflexivity.
    + eapply Forall_impl; [|exact Hidx]. cbv beta. intros e [H1 H2].
      rewrite len_nil in H1. split; [exact H1 | exact H2].
Qed.
End TokenListFacts.

(** ** The shape of a normalization run *)

Lemma iget_absent {V} (d : idict V) k :
  ~ In k (map fst d) -> iget d k = None.
Proof.
  unfold iget. induction d as [|[k' v] d IH]; cbn; [reflexivity|].
  intros H. destruct (Z.eqb_spec k k') as [->|Hne]; [tauto|].
  apply IH. tauto.
Qed.

Lemma iset_absent {V} (d : idict V) k v :
  ~ In k (map fst d) -> iset d k v = d ++ [(k, v)].
Proof.
  unfold iset. induction d as [|[k' v'] d IH]; cbn; [reflexivity|].
  intros H. destruct (Z.eqb_spec k k') as [->|Hne]; [tauto|].
  rewrite IH by tauto. reflexivity.
Qed.

Lemma iget_present {V} (d : idict V) k :
  In k (map fst d) -> exists v, iget d k = Some v.
Proof.
  unfold iget. induction d as [|[k' v] d IH]; cbn; [tauto|].
  intros [->|H].
  - rewrite Z.eqb_refl. eauto.
  - destruct (k =? k'); [eauto | apply IH, H].
Qed.

Lemma aligned_step p i recs text2 :
  aligned p -> i = len (normalized_texts p) ->
  map fst (iset (entities_per_text p) i recs)
  = map Z.of_nat (seq 0 (List.length (normalized_texts p ++ [text2]))).
Proof.
  unfold aligned. intros Ha ->.
  rewrite iset_absent.
  - rewrite map_app, Ha, length_app. cbn [List.length map fst].
    rewrite Nat.add_1_r, seq_S, map_app. reflexivity.
  - rewrite Ha. intros Hin. apply in_map_iff in Hin as (n & Hn & Hin).
    apply in_seq in Hin. unfold len in Hn. lia.
Qed.

Lemma insert_by_length {A} (key : A -> Z) x l :
  List.length (insert_by key x l) = S (List.length l).
Proof.
  induction l as [|y l IH]; cbn; [reflexivity|].
  destruct (key x <? key y); cbn; [reflexivity | rewrite IH; reflexivity].
Qed.

Lemma sort_by_length {A} (key : A -> Z) l :
  List.length (sort_by key l) = List.length l.
Proof.
  unfold sort_by.
  assert (H : forall l acc,
             List.length (fold_left (fun acc x => insert_by key x acc) l acc)
             = (List.length acc + List.length l)%nat).
  { clear l. induction l as [|x l IH]; intros acc; cbn [fold_left List.length].
    - lia.
    - rewrite IH, insert_by_length. lia. }
  rewrite H. reflexivity.
Qed.

Lemma replace_entities_length wb e2c : forall ents t ic acc t' ic' recs,
  replace_entities wb e2c ents (t, ic, acc) = Ok (t', ic', recs) ->
  List.length recs = (List.length acc + List.length ents)%nat.
Proof.
  induction ents as [|[[name s] e] rest IH]; intros t ic acc t' ic' recs H.
  - cbn in H. injection H as <- <- <-. cbn. lia.
  - cbn [replace_entities] in H. unfold replace_step in H.
    destruct (sitem e2c name) as [v|err]; cbn [bind] in H; [|discriminate].
    destruct wb; cbn [bind] in H; apply IH in H; rewrite H, length_app;
      cbn [List.length]; lia.
Qed.

Lemma save_point_clean_texts save save_freq i last p p' :
  save_point save save_freq i last p = Ok p' ->
  clean_texts p' = clean_texts p.
Proof.
  unfold save_point. destruct (save_freq =? 0); [discriminate|].
  destruct (_ || _); [destruct save|]; intros [= <-]; reflexivity.
Qed.

Lemma search_loop_clean_texts gc name : forall n p c p',
  search_loop gc name n p = Ok (c, p') -> clean_texts p' = clean_texts p.
Proof.
  induction n as [|n IH]; intros p c p' H; cbn [search_loop] in H.
  - injection H as _ <-. reflexivity.
  - destruct (gc _ name); [apply IH in H; exact H | | discriminate].
    injection H as _ <-. reflexivity.
Qed.

Lemma resolve_cem_clean_texts gc attempts p c p' ent :
  resolve_cem gc attempts p c = Ok (p', ent) ->
  clean_texts p' = clean_texts p.
Proof.
  unfold resolve_cem.
  destruct (mention_name (cem_text c)) as [name|]; cbn [bind]; [|discriminate].
  destruct (negb _).
  - unfold register_new, search_pubchem.
    destruct (search_loop gc name (Z.to_nat attempts) p) as [[cs p1]|] eqn:E;
      cbn [bind]; [|discriminate].
    apply search_loop_clean_texts in E.
    destruct cs as [|c0 ?]; [|destruct (iupac_name c0)]; cbn [bind];
      intros [= <- _]; exact E.
  - unfold count_again.
    destruct (sitem (entity_to_cid p) name); cbn [bind]; [|discriminate].
    destruct (sitem (entity_counts p) _); cbn [bind]; [|discriminate].
    intros [= <- _]. reflexivity.
Qed.

Lemma resolve_cems_clean_texts gc attempts : forall cems p p' ents,
  resolve_cems gc attempts p cems = Ok (p', ents) ->
  clean_texts p' = clean_texts p.
Proof.
  induction cems as [|c cems IH]; intros p p' ents H; cbn [resolve_cems] in H.
  - injection H as <- _. reflexivity.
  - destruct (resolve_cem gc attempts p c) as [[p1 ent]|] eqn:E1;
      cbn [bind] in H; [|discriminate].
    destruct (resolve_cems gc attempts p1 cems) as [[p2 ents2]|] eqn:E2;
      cbn [bind] in H; [|discriminate].
    injection H as <- _.
    rewrite (IH _ _ _ E2). eapply resolve_cem_clean_texts, E1.
Qed.

Section RunShape.
Variable get_compounds : nat -> str -> reply.
Variable doc_cems : str -> list cem.
Variable doc_abbvs : str -> list abbv_def.

Lemma resolve_cems_length attempts : forall cems p p' ents,
  resolve_cems get_compounds attempts p cems = Ok (p', ents) ->
  List.length ents = List.length cems.
Proof.
  induction cems as [|c cems IH]; intros p p' ents H.
  - cbn in H. injection H as <- <-. reflexivity.
  - cbn [resolve_cems] in H.
    destruct (resolve_cem get_compounds attempts p c) as [[p1 ent]|err];
      cbn [bind] in H; [|discriminate].
    destruct (resolve_cems get_compounds attempts p1 cems) as [[p2 ents']|err]
      eqn:E; cbn [bind] in H; [|discriminate].
    injection H as <- <-. cbn [List.length]. f_equal. eapply IH, E.
Qed.

Hypothesis Hans : answers get_compounds.

(** One text of a run in which no request fails: the exception can only
    come from the removal of abbreviations; otherwise one text and one
    list of records are added, with a record for each mention the
    recogniser reports. *)
Lemma normalize_text_shape remove_abbr write_bold attempts p i text :
  override_inv p ->
  match normalize_text get_compounds doc_cems doc_abbvs remove_abbr
                       write_bold attempts p i text with
  | Ok p' =>
      override_inv p'
      /\ clean_texts p' = clean_texts p
      /\ exists text1 recs text2,
           abbreviations_removed doc_cems doc_abbvs remove_abbr text = Ok text1
           /\ entities_per_text p' = iset (entities_per_text p) i recs
           /\ List.length recs = List.length (doc_cems text1)
           /\ normalized_texts p' = normalized_texts p ++ [text2]
  | Raise e =>
      abbreviations_removed doc_cems doc_abbvs remove_abbr text = Raise e
  end.
Proof.
  intros Hinv. unfold normalize_text.
  fold (abbreviations_removed doc_cems doc_abbvs remove_abbr text).
  destruct (abbreviations_removed doc_cems doc_abbvs remove_abbr text)
    as [text1|err]; cbn [bind]; [|reflexivity].
  destruct (resolve_cems_inv get_compounds Hans attempts (doc_cems text1) p Hinv)
    as (p1 & ents & Hrun & Hinv1 & _ & Hkn & _ & Ht1 & Ht2).
  rewrite Hrun. cbn [bind].
  assert (Hkn' : names_known (entity_to_cid p1)
                             (sort_by entity_start ents) = true).
  { unfold names_known in *. rewrite forallb_forall in *.
    intros x Hx. apply Hkn, sort_by_in with (key := entity_start), Hx. }
  destruct (replace_entities_records write_bold (entity_to_cid p1)
              (sort_by entity_start ents) text1 0 [] Hkn')
    as (t' & ic' & recs & Hrep & _).
  rewrite Hrep. cbn [bind app].
  split; [exact Hinv1|].
  split; [cbn; eapply resolve_cems_clean_texts, Hrun|].
  exists text1, recs, t'.
  split; [reflexivity|]. cbn. rewrite Ht1, Ht2.
  split; [reflexivity|]. split; [|reflexivity].
  apply replace_entities_length in Hrep. cbn in Hrep.
  rewrite Hrep, sort_by_length. eapply resolve_cems_length, Hrun.
Qed.

Lemma normalize_loop_shape remove_abbr write_bold attempts save save_freq last :
  forall texts p i,
    override_inv p ->
    match normalize_loop get_compounds doc_cems doc_abbvs remove_abbr
                         write_bold attempts save save_freq last
                         p i texts with
    | Ok p' =>
        List.length (normalized_texts p')
        = (List.length (normalized_texts p) + List.length texts)%nat
        /\ clean_texts p' = clean_texts p
        /\ (aligned p -> i = len (normalized_texts p) -> aligned p')
        /\ (forall j, j < i ->
              iget (entities_per_text p') j = iget (entities_per_text p) j)
        /\ (forall k text,
              nth_error texts k = Some text ->
              exists text1 recs,
                abbreviations_removed doc_cems doc_abbvs remove_abbr text
                  = Ok text1
                /\ iget (entities_per_text p') (i + Z.of_nat k) = Some recs
                /\ List.length recs = List.length (doc_cems text1))
    | Raise e =>
        remove_abbr = true
        \/ (e = ZeroDivisionError /\ save_freq = 0 /\ texts <> [])
    end.
Proof.
  induction texts as [|text rest IH]; intros p i Hinv; cbn [normalize_loop].
  - split; [cbn; lia|]. split; [reflexivity|]. split; [auto|]. split; [auto|].
    intros k ? H. destruct k; discriminate.
  - pose proof (normalize_text_shape remove_abbr write_bold attempts p i text
                                     Hinv) as Hstep.
    destruct (normalize_text _ _ _ _ _ _ p i text) as [p1|err]; cbn [bind].
    2:{ left. unfold abbreviations_removed in Hstep. destruct remove_abbr;
          [reflexivity | discriminate]. }
    destruct Hstep as (Hinv1 & Hct1 & text1 & recs & text2 & Hab & Hept & Hlen & Hnt).
    pose proof (save_point_spec save save_freq i last p1) as Hsave.
    destruct (save_point save save_freq i last p1) as [p2|err] eqn:Esave;
      cbn [bind].
    2:{ right. destruct Hsave as [-> ->].
        split; [reflexivity|]. split; [reflexivity | discriminate]. }
    pose proof (save_point_override _ _ _ _ _ _ Esave Hinv1) as Hinv2.
    pose proof (save_point_clean_texts _ _ _ _ _ _ Esave) as Hct2.
    destruct Hsave as (_ & _ & _ & _ & [Hnt2 Hept2] & _).
    specialize (IH p2 (i + 1) Hinv2).
    destruct (normalize_loop _ _ _ _ _ _ _ _ _ p2 (i + 1) rest) as [p3|err2].
    2:{ destruct IH as [IH|(He & Hf & _)]; [left; exact IH|].
        right. split; [exact He|]. split; [exact Hf | discriminate]. }
    destruct IH as (Hl & Hct3 & Hal & Hbelow & Hrecs).
    split; [rewrite Hl, Hnt2, Hnt, length_app; cbn [List.length]; lia|].
    split; [congruence|].
    split.
    + intros Ha Hi. apply Hal.
      * unfold aligned. rewrite Hept2, Hnt2, Hept, Hnt.
        apply aligned_step; assumption.
      * rewrite Hnt2, Hnt, len_app, len_cons, len_nil. lia.
    + split.
      * intros j Hj. rewrite Hbelow by lia. rewrite Hept2, Hept.
        apply iget_iset_other. lia.
      * intros k t Hk. destruct k as [|k].
        -- cbn in Hk. injection Hk as <-. exists text1, recs.
           split; [exact Hab|]. split; [|exact Hlen].
           rewrite Z.add_0_r, Hbelow by lia. rewrite Hept2, Hept.
           apply iget_iset_same.
        -- cbn in Hk. destruct (Hrecs k t Hk) as (t1 & r & A & B & C).
           exists t1, r. split; [exact A|]. split; [|exact C].
           rewrite <- B. f_equal. lia.
Qed.

(** A whole run in which no request fails.  It raises [AttributeError]
    when the texts are the default and the processor has none; otherwise
    only the removal of abbreviations, or a [save_freq] of zero with at
    least one text, makes it raise. *)
Lemma normalize_run_shape texts remove_abbr write_bold attempts save save_freq p :
  match normalize_chemical_entities get_compounds doc_cems doc_abbvs texts
          remove_abbr write_bold attempts save save_freq p with
  | Ok p' =>
      exists l,
        run_texts texts p = Some l
        /\ List.length (normalized_texts p')
           = (List.length (normalized_texts p) + List.length l)%nat
        /\ clean_texts p' = clean_texts p
        /\ (aligned p -> aligned p')
        /\ (forall k text,
              nth_error l k = Some text ->
              exists text1 recs,
                abbreviations_removed doc_cems doc_abbvs remove_abbr text
                  = Ok text1
                /\ iget (entities_per_text p')
                        (len (normalized_texts p) + Z.of_nat k) = Some recs
                /\ List.length recs = List.length (doc_cems text1))
  | Raise e =>
      remove_abbr = true
      \/ (e = AttributeError /\ run_texts texts p = None)
      \/ (e = ZeroDivisionError /\ save_freq = 0
          /\ exists l, run_texts texts p = Some l /\ l <> [])
  end.
Proof.
  unfold normalize_chemical_entities.
  destruct (run_texts texts p) as [l|] eqn:Hl.
  - assert (Htexts : match texts with
                     | Some l => Ok l
                     | None =>
                         match clean_texts (set_timedout_entities [] p) with
                         | Some l => Ok l
                         | None => Raise AttributeError
                         end
                     end = Ok l).
    { unfold run_texts in Hl. destruct texts as [l'|]; [congruence|].
      cbn [clean_texts set_timedout_entities]. rewrite Hl. reflexivity. }
    rewrite Htexts. cbn [bind].
    set (p1 := seed_counts (hardcode_entities (set_timedout_entities [] p))).
    assert (Hinv : override_inv p1)
      by (split; [apply seed_counts_ok | apply hardcode_CO]).
    pose proof (normalize_loop_shape remove_abbr write_bold attempts save
                  save_freq (len l + len (normalized_texts p1) - 1)
                  l p1 (len (normalized_texts p1)) Hinv) as H.
    destruct (normalize_loop _ _ _ _ _ _ _ _ _ p1 _ _) as [p'|err].
    + destruct H as (Hlen & Hct & Hal & _ & Hrecs).
      exists l. split; [reflexivity|]. split; [exact Hlen|].
      split; [exact Hct|]. split; [|exact Hrecs].
      intros Ha. apply Hal; [exact Ha | reflexivity].
    + destruct H as [H|(He & Hf & Hne)]; [left; exact H|].
      right. right. split; [exact He|]. split; [exact Hf|]. eauto.
  - assert (Htexts : match texts with
                     | Some l => Ok l
                     | None =>
                         match clean_texts (set_timedout_entities [] p) with
                         | Some l => Ok l
                         | None => Raise AttributeError
                         end
                     end = Raise AttributeError).
    { unfold run_texts in Hl. destruct texts as [l'|]; [discriminate|].
      cbn [clean_texts set_timedout_entities]. rewrite Hl. reflexivity. }
    rewrite Htexts. cbn [bind]. right. left. split; reflexivity.
Qed.
End RunShape.

(** X10.  Without the removal of abbreviations, with texts to work on
    (given, or the cleaned abstracts of the processor) and a [save_freq]
    that is not zero, a run of [normalize_chemical_entities] in which no
    request to PubChem fails always returns, whatever the caches held,
    whatever the recogniser reports (spans in any order, overlapping or
    outside the text) and whichever requests time out.  It adds one
    normalized text for each text, and files for the k-th text, under the
    index [start_idx + k], one record for each mention the recogniser
    reports in it.  With the default texts on a processor that has no
    cleaned abstracts the run raises [AttributeError]; with a [save_freq]
    of zero and a text to work on it raises [ZeroDivisionError], saving or
    not. *)
Theorem normalize_without_abbreviations_returns :
  forall (get_compounds : nat -> str -> reply) (doc_cems : str -> list cem)
         (doc_abbvs : str -> list abbv_def) (texts : option (list str))
         (write_bold : bool) (attempts : Z) (save : save_arg)
         (save_freq : Z) (p : processor),
    answers get_compounds ->
    (forall l,
        run_texts texts p = Some l -> save_freq <> 0 ->
        exists p',
          normalize_chemical_entities get_compounds doc_cems doc_abbvs texts
            false write_bold attempts save save_freq p = Ok p'
          /\ List.length (normalized_texts p')
             = (List.length (normalized_texts p) + List.length l)%nat
          /\ forall k text,
               nth_error l k = Some text ->
               exists recs,
                 iget (entities_per_text p')
                      (len (normalized_texts p) + Z.of_nat k) = Some recs
                 /\ List.length recs = List.length (doc_cems text))
    /\ (run_texts texts p = None ->
        normalize_chemical_entities get_compounds doc_cems doc_abbvs texts
          false write_bold attempts save save_freq p = Raise AttributeError)
    /\ (forall l,
          run_texts texts p = Some l -> l <> [] -> save_freq = 0 ->
          normalize_chemical_entities get_compounds doc_cems doc_abbvs texts
            false write_bold attempts save save_freq p
          = Raise ZeroDivisionError).
Proof.
  intros gc dc da texts wb attempts save save_freq p Hans.
  pose proof (normalize_run_shape gc dc da Hans texts false wb attempts save
                                  save_freq p) as H.
  split; [|split].
  - intros l Hl Hfreq.
    destruct (normalize_chemical_entities gc dc da texts false wb attempts
                save save_freq p) as [p'|e].
    + destruct H as (l' & Hl' & Hlen & _ & _ & Hrecs).
      assert (l' = l) as -> by congruence.
      exists p'. split; [reflexivity|]. split; [exact Hlen|].
      intros k text Hk. destruct (Hrecs k text Hk) as (t1 & recs & A & B & C).
      cbn in A. injection A as <-. exists recs. split; [exact B | exact C].
    + exfalso. destruct H as [H|[[_ H]|(_ & H & _)]];
        [discriminate | congruence | contradiction].
  - intros Hl. unfold normalize_chemical_entities.
    unfold run_texts in Hl. destruct texts as [l'|]; [discriminate|].
    cbn [clean_texts set_timedout_entities]. rewrite Hl. reflexivity.
  - intros l Hl Hne ->.
    destruct (normalize_chemical_entities gc dc da texts false wb attempts
                save 0 p) as [p'|e] eqn:E.
    + exfalso. unfold normalize_chemical_entities in E.
      assert (Htexts : match texts with
                       | Some l => Ok l
                       | None =>
                           match clean_texts (set_timedout_entities [] p) with
                           | Some l => Ok l
                           | None => Raise AttributeError
                           end
                       end = Ok l).
      { unfold run_texts in Hl. destruct texts as [l'|]; [congruence|].
        cbn [clean_texts set_timedout_entities]. rewrite Hl. reflexivity. }
      rewrite Htexts in E. cbn [bind] in E.
      destruct l as [|t rest]; [congruence|]. cbn [normalize_loop] in E.
      destruct (normalize_text _ _ _ _ _ _ _ _ t) in E; cbn [bind] in E;
        [|discriminate].
      unfold save_point in E. cbn [Z.eqb bind] in E. discriminate.
    + destruct H as [H|[[_ H]|(-> & _)]];
        [discriminate | congruence | reflexivity].
Qed.

Lemma normalize_without_abbreviations_returns_witness :
  (exists p',
      normalize_chemical_entities silent_pubchem sample_cems sample_abbvs
        None false false 10 (Saving (fun l => l)) 1
        (new_processor [lit "CO binds"; lit "nothing here"]) = Ok p'
      /\ List.length (normalized_texts p') = 2%nat
      /\ exists recs, iget (entities_per_text p') 0 = Some recs
                      /\ List.length recs = 1%nat)
  /\ normalize_chemical_entities silent_pubchem sample_cems sample_abbvs
       None false false 10 NoSave 100 bare_processor = Raise AttributeError.
Proof.
  assert (Hans : answers silent_pubchem) by (intros n name H; discriminate H).
  split.
  - destruct (proj1 (normalize_without_abbreviations_returns silent_pubchem
                sample_cems sample_abbvs None false 10 (Saving (fun l => l)) 1
                (new_processor [lit "CO binds"; lit "nothing here"]) Hans)
                [lit "CO binds"; lit "nothing here"] eq_refl)
      as (p' & Hrun & Hlen & Hrecs); [discriminate|].
    exists p'. split; [exact Hrun|]. split; [exact Hlen|].
    exact (Hrecs 0%nat (lit "CO binds") eq_refl).
  - apply (proj1 (proj2 (normalize_without_abbreviations_returns silent_pubchem
             sample_cems sample_abbvs None false 10 NoSave 100 bare_processor
             Hans))).
    reflexivity.
Defined.

(** ** From normalization to tokenization *)

Section PipelineFacts.
Variable cwt_tokenize : str -> list str.
Variable split_token : str -> list str.
Variable mtp_process : list str -> bool -> list str.
Variable para_sentences : str -> list (str * Z).

Lemma process_token_list_total text spans :
  exists r,
    process_token_list cwt_tokenize split_token
                       (extract_entity_tokens text spans) = Ok r.
Proof.
  unfold process_token_list.
  destruct (process_items_singletons cwt_tokenize split_token
              (extract_entity_tokens text spans) [] [])
    as (more & new & Hrun & _).
  - rewrite entity_items_extract. apply Forall_forall. intros l Hl.
    apply in_map_iff in Hl as (sp & <- & _). eauto.
  - eauto.
Qed.

Lemma tokenize_sentences_total exclude_punct spans : forall sentences prior,
  exists r,
    tokenize_sentences cwt_tokenize split_token mtp_process exclude_punct
                       spans sentences prior = Ok r.
Proof.
  induction sentences as [|[sentence split] rest IH]; intros prior.
  - cbn. eauto.
  - cbn [tokenize_sentences].
    destruct (process_token_list_total sentence
                (sentence_entities spans prior split)) as [[toks idxs] H].
    rewrite H. cbn [bind]. destruct (IH split) as [[t i] H2].
    rewrite H2. cbn [bind]. eauto.
Qed.

Lemma tokenize_text_total entities use_entities keep_sentences exclude_punct
      p i text :
  (use_entities = true -> exists entry, iget entities i = Some entry) ->
  exists p',
    tokenize_text cwt_tokenize split_token mtp_process para_sentences
                  entities use_entities keep_sentences exclude_punct p i text
    = Ok p'.
Proof.
  intros Hkey. unfold tokenize_text.
  assert (Hfirst : exists text1 spans,
             (if use_entities
              then entry <- iitem entities i ;; Ok (place_entities text entry)
              else Ok (text, [])) = Ok (text1, spans)).
  { destruct use_entities; [|eauto].
    destruct (Hkey eq_refl) as [entry He].
    unfold iitem, PyDict.item. fold (iget entities i). rewrite He. cbn [bind].
    destruct (place_entities text entry). eauto. }
  destruct Hfirst as (text1 & spans & ->). cbn [bind].
  destruct keep_sentences; cbn [negb].
  - destruct (tokenize_sentences_total exclude_punct spans
                (para_sentences text1) 0) as [[t ix] H].
    rewrite H. cbn [bind]. eauto.
  - destruct (process_token_list_total text1 spans) as [[t ix] H].
    rewrite H. cbn [bind]. eauto.
Qed.

Lemma tokenize_loop_total entities use_entities keep_sentences exclude_punct :
  forall texts p i,
    (use_entities = true ->
     forall j, i <= j < i + len texts ->
               exists entry, iget entities j = Some entry) ->
    exists p',
      tokenize_loop cwt_tokenize split_token mtp_process para_sentences
                    entities use_entities keep_sentences exclude_punct
                    p i texts = Ok p'.
Proof.
  induction texts as [|text rest IH]; intros p i Hkeys; cbn [tokenize_loop].
  - eauto.
  - rewrite len_cons in Hkeys. pose proof (len_nonneg rest) as Hpos.
    destruct (tokenize_text_total entities use_entities keep_sentences
                exclude_punct p i text) as [p1 H1].
    { intros Hu. apply (Hkeys Hu). lia. }
    rewrite H1. cbn [bind]. apply IH.
    intros Hu j Hj. apply (Hkeys Hu). lia.
Qed.

Lemma tokenize_aligned use_entities keep_sentences exclude_punct p :
  aligned p ->
  exists p',
    tokenize cwt_tokenize split_token mtp_process para_sentences
             None None use_entities keep_sentences exclude_punct p = Ok p'.
Proof.
  unfold aligned. intros Ha. unfold tokenize.
  assert (Hlen : len (normalized_texts p) = len (entities_per_text p)).
  { unfold len. f_equal.
    rewrite <- (length_map fst (entities_per_text p)), Ha, length_map,
      length_seq. reflexivity. }
  rewrite Hlen, Z.eqb_refl, andb_false_r.
  apply tokenize_loop_total. intros _ j Hj. apply iget_present.
  rewrite Ha. apply in_map_iff. exists (Z.to_nat j).
  split; [lia|]. apply in_seq. unfold len in Hj. lia.
Qed.
End PipelineFacts.

(** X3.  A new processor, of either type, has its records filed in step
    with its texts, and has cleaned abstracts exactly when its type is
    'abstract'.  A run of [normalize_chemical_entities] from such a
    state, in which no request to PubChem fails, leaves such a state when
    it returns; and in such a state [tokenize] with its default texts and
    entities returns, with or without entity awareness and with or without
    sentences: the assertion on the two sizes holds and no index is
    missing from the records.  The run itself raises only in the removal
    of abbreviations, for want of [clean_texts] when the texts are the
    default ([AttributeError]), or on a [save_freq] of zero
    ([ZeroDivisionError]). *)
Theorem normalize_then_tokenize_returns :
  forall (get_compounds : nat -> str -> reply) (doc_cems : str -> list cem)
         (doc_abbvs : str -> list abbv_def)
         (cwt_tokenize : str -> list str) (split_token : str -> list str)
         (mtp_process : list str -> bool -> list str)
         (para_sentences : str -> list (str * Z)),
    (forall clean_abstract texts type p,
        init clean_abstract texts type = Ok p ->
        aligned p
        /\ (run_texts None p = None <-> type <> lit "abstract"))
    /\ (forall cleaned, aligned (new_processor cleaned))
    /\ forall texts remove_abbr write_bold attempts save save_freq
              use_entities keep_sentences exclude_punct p,
        answers get_compounds ->
        aligned p ->
        match normalize_chemical_entities get_compounds doc_cems doc_abbvs
                texts remove_abbr write_bold attempts save save_freq p with
        | Ok p1 =>
            aligned p1
            /\ exists p2,
                 tokenize cwt_tokenize split_token mtp_process para_sentences
                          None None use_entities keep_sentences exclude_punct
                          p1 = Ok p2
        | Raise e =>
            remove_abbr = true
            \/ (e = AttributeError /\ run_texts texts p = None)
            \/ (e = ZeroDivisionError /\ save_freq = 0)
        end.
Proof.
  intros gc dc da cwt st mtp para.
  split; [|split; [reflexivity|]].
  { intros clean texts type p Hinit. unfold init in Hinit.
    destruct (str_eqb type "abstract") eqn:Ht.
    - apply str_eqb_eq in Ht.
      destruct (init_clean clean texts) as [c [e|]]; [discriminate|].
      injection Hinit as <-. split; [reflexivity|].
      cbn. split; [discriminate | intros H; contradiction].
    - injection Hinit as <-. split; [reflexivity|].
      cbn. split; [|reflexivity]. intros _ ->.
      rewrite str_eqb_refl in Ht. discriminate. }
  intros texts remove_abbr wb attempts save save_freq use keep excl p Hans Ha.
  pose proof (normalize_run_shape gc dc da Hans texts remove_abbr wb attempts
                                  save save_freq p) as H.
  destruct (normalize_chemical_entities gc dc da texts remove_abbr wb attempts
              save save_freq p) as [p'|err].
  - destruct H as (l & _ & _ & _ & Hal & _).
    split; [exact (Hal Ha)|]. apply tokenize_aligned, Hal, Ha.
  - destruct H as [H|[H|(He & Hf & _)]]; [left; exact H | right; left; exact H|].
    right. right. split; assumption.
Qed.

Lemma normalize_then_tokenize_returns_witness :
  exists p1 p2,
    normalize_chemical_entities sample_pubchem sample_cems sample_abbvs
      (Some [lit "CO binds"]) false false 10 NoSave 100 (new_processor [])
      = Ok p1
    /\ tokenize (fun s => [s]) (fun t => [t]) (fun l _ => l)
                (fun s => [(s, len s)]) None None true true false p1
       = Ok p2.
Proof.
  assert (Hans : answers sample_pubchem).
  { intros n name. unfold sample_pubchem.
    destruct (_ || _); [discriminate|].
    destruct (str_eqb _ _); discriminate. }
  pose proof (proj2 (proj2 (normalize_then_tokenize_returns sample_pubchem
                       sample_cems sample_abbvs (fun s => [s]) (fun t => [t])
                       (fun l _ => l) (fun s => [(s, len s)])))
                (Some [lit "CO binds"]) false false 10 NoSave 100
                true true false (new_processor []) Hans eq_refl) as H.
  destruct (normalize_chemical_entities sample_pubchem sample_cems
              sample_abbvs (Some [lit "CO binds"]) false false 10 NoSave 100
              (new_processor [])) as [p1|e].
  - destruct H as [_ [p2 H]]. exists p1, p2. split; [reflexivity | exact H].
  - exfalso. destruct H as [H|[[_ H]|[_ H]]]; discriminate H.
Defined.

(** ** Which sentence keeps a span *)

Lemma sentence_entities_kept spans prior split :
  sentence_entities spans prior split
  = map (fun span => (fst span - split, snd span - split))
        (filter (fun span => kept_for span (prior, split)) spans).
Proof. reflexivity. Qed.

Lemma sentence_bounds_later : forall ends prior b,
  ascending (fun x : Z => x) prior ends ->
  In b (sentence_bounds ends prior) -> prior <= fst b /\ prior <= snd b.
Proof.
  induction ends as [|e rest IH]; intros prior b Hasc Hin; [destruct Hin|].
  destruct Hasc as [He Hrest]. destruct Hin as [<-|Hin].
  - cbn. lia.
  - destruct (IH e b Hrest Hin). lia.
Qed.

Lemma sentence_bounds_around : forall ends prior x b,
  ascending (fun x : Z => x) prior ends ->
  In x ends -> In b (sentence_bounds ends prior) ->
  snd b <= x \/ x <= fst b.
Proof.
  induction ends as [|e rest IH]; intros prior x b Hasc Hx Hb; [destruct Hx|].
  destruct Hasc as [He Hrest]. destruct Hb as [<-|Hb].
  - left. cbn. destruct Hx as [->|Hx]; [lia|].
    clear - Hrest Hx. revert e Hrest.
    induction rest as [|y rest IH]; intros e Hrest; [destruct Hx|].
    destruct Hrest as [Hy Hr]. destruct Hx as [->|Hx]; [exact Hy|].
    specialize (IH Hx y Hr). lia.
  - destruct Hx as [->|Hx].
    + right. apply (sentence_bounds_later rest x b Hrest Hb).
    + apply (IH e x b Hrest Hx Hb).
Qed.

Section SentenceFacts.
Variable cwt_tokenize : str -> list str.
Variable split_token : str -> list str.
Variable mtp_process : list str -> bool -> list str.

Lemma tokenize_sentences_names exclude_punct spans : forall sentences prior,
  exists tokens idxs,
    tokenize_sentences cwt_tokenize split_token mtp_process exclude_punct
                       spans sentences prior = Ok (tokens, idxs)
    /\ map (map fst) idxs
       = map (fun sb : str * (Z * Z) =>
                map (fun span => slice (fst sb) (fst span - snd (snd sb))
                                       (snd span - snd (snd sb)))
                    (filter (fun span => kept_for span (snd sb)) spans))
             (combine (map fst sentences)
                      (sentence_bounds (map snd sentences) prior)).
Proof.
  induction sentences as [|[sentence split] rest IH]; intros prior.
  - exists [], []. split; reflexivity.
  - cbn [tokenize_sentences].
    destruct (entity_index_points_at_entity_aux cwt_tokenize split_token
                sentence (sentence_entities spans prior split))
      as (toks & idxs & Hrun & Hnames).
    rewrite Hrun. cbn [bind].
    destruct (IH split) as (tokens & idxss & Hrest & Hn).
    rewrite Hrest. cbn [bind]. do 2 eexists. split; [reflexivity|].
    cbn [map fst snd sentence_bounds combine]. rewrite Hn, Hnames.
    f_equal. rewrite sentence_entities_kept, map_map. reflexivity.
Qed.
End SentenceFacts.

Lemma kept_at_most_once span : forall ends prior,
  ascending (fun x : Z => x) prior ends ->
  fst span <= snd span ->
  (List.length (filter (kept_for span) (sentence_bounds ends prior)) <= 1)%nat.
Proof.
  induction ends as [|e rest IH]; intros prior Hasc Hspan; [cbn; lia|].
  destruct Hasc as [He Hrest]. cbn [sentence_bounds filter].
  destruct (kept_for span (prior, e)) eqn:E.
  - rewrite filter_none; [cbn; lia|].
    intros b Hb. destruct (sentence_bounds_later rest e b Hrest Hb) as [H1 _].
    unfold kept_for in *. cbn [fst snd] in E.
    apply andb_prop in E as [E1 _]. apply Z.ltb_lt in E1.
    apply andb_false_intro2. apply Z.leb_gt. lia.
  - apply IH; assumption.
Qed.

(** X4.  With sentence ends in ascending order, sentence-level
    tokenization returns, the entity index of each sentence names the
    spans that pass the test of l. 642 for that sentence, cut from the
    sentence by their end-relative bounds, and a span (start <= end)
    passes the test for one sentence at most: no entity is filed under
    two sentences. *)
Theorem span_kept_for_one_sentence_at_most :
  forall (cwt_tokenize : str -> list str) (split_token : str -> list str)
         (mtp_process : list str -> bool -> list str) (exclude_punct : bool)
         (spans : list (Z * Z)) (sentences : list (str * Z)),
    ascending (fun x : Z => x) 0 (map snd sentences) ->
    (exists tokens idxs,
        tokenize_sentences cwt_tokenize split_token mtp_process exclude_punct
                           spans sentences 0 = Ok (tokens, idxs)
        /\ map (map fst) idxs
           = map (fun sb : str * (Z * Z) =>
                    map (fun span => slice (fst sb) (fst span - snd (snd sb))
                                           (snd span - snd (snd sb)))
                        (filter (fun span => kept_for span (snd sb)) spans))
                 (combine (map fst sentences)
                          (sentence_bounds (map snd sentences) 0)))
    /\ forall span,
         fst span <= snd span ->
         (List.length (filter (kept_for span)
                              (sentence_bounds (map snd sentences) 0)) <= 1)%nat.
Proof.
  intros cwt st mtp excl spans sentences Hasc. split.
  - apply tokenize_sentences_names.
  - intros span Hspan. apply kept_at_most_once; assumption.
Qed.

Lemma span_kept_for_one_sentence_at_most_witness :
  (List.length (filter (kept_for (12%Z, 14%Z))
                       (sentence_bounds
                          (map snd [(lit "CO is here.", 11%Z);
                                    (lit "NO is there.", 24%Z)]) 0%Z)) <= 1)%nat.
Proof.
  apply (span_kept_for_one_sentence_at_most
           (fun s => [s]) (fun t => [t]) (fun l _ => l) false
           [(0, 2); (12, 14)]
           [(lit "CO is here.", 11); (lit "NO is there.", 24)]).
  - cbn. lia.
  - cbn. lia.
Defined.

(** X5.  With sentence ends in ascending order, a span that begins before
    the end of some sentence and does not end before it (it crosses the
    boundary, or ends exactly where the sentence ends) passes the test of
    l. 642 for no sentence: it appears in no entity index and its text is
    tokenized as plain text. *)
Theorem span_over_sentence_end_is_dropped :
  forall (ends : list Z) (prior_split : Z) (span : Z * Z) (x : Z),
    ascending (fun x : Z => x) prior_split ends ->
    In x ends ->
    fst span < x <= snd span ->
    filter (kept_for span) (sentence_bounds ends prior_split) = []
    /\ forall spans b,
         In b (sentence_bounds ends prior_split) ->
         ~ In span (filter (fun s => kept_for s b) spans).
Proof.
  intros ends prior span x Hasc Hx Hspan.
  assert (Hnone : forall b, In b (sentence_bounds ends prior) ->
                            kept_for span b = false).
  { intros b Hb. unfold kept_for.
    destruct (sentence_bounds_around ends prior x b Hasc Hx Hb) as [H|H].
    - apply andb_false_intro1. apply Z.ltb_ge. lia.
    - apply andb_false_intro2. apply Z.leb_gt. lia. }
  split; [apply filter_none, Hnone|].
  intros spans b Hb Hin. apply filter_In in Hin as [_ Hk].
  rewrite (Hnone b Hb) in Hk. discriminate.
Qed.

Lemma span_over_sentence_end_is_dropped_witness :
  filter (kept_for (9, 11)) (sentence_bounds [11; 24] 0) = [].
Proof.
  apply (span_over_sentence_end_is_dropped [11; 24] 0 (9, 11) 11).
  - cbn. lia.
  - left. reflexivity.
  - cbn. lia.
Defined.

(** ** Requests to PubChem *)

Section SearchFacts.
Variable get_compounds : nat -> str -> reply.

Lemma search_loop_timeouts name : forall n p,
  (forall j, (j < n)%nat ->
             get_compounds (List.length (requests p) + j) name = Timeout) ->
  search_loop get_compounds name n p
  = Ok ([], set_timedout_entities (timedout_entities p ++ [name])
              (set_requests (requests p ++ repeat name n) p)).
Proof.
  induction n as [|n IH]; intros p Hall; cbn [search_loop repeat].
  - rewrite app_nil_r. destruct p; reflexivity.
  - rewrite <- (Nat.add_0_r (List.length (requests p))).
    rewrite (Hall 0%nat) by lia.
    rewrite IH.
    + cbn. rewrite <- app_assoc. reflexivity.
    + intros j Hj. cbn [requests set_requests]. rewrite length_app.
      cbn [List.length]. rewrite <- Nat.add_assoc. apply Hall. lia.
Qed.

Lemma search_loop_answer name cs : forall j n p,
  (j < n)%nat ->
  (forall i, (i < j)%nat ->
             get_compounds (List.length (requests p) + i) name = Timeout) ->
  get_compounds (List.length (requests p) + j) name = Compounds cs ->
  search_loop get_compounds name n p
  = Ok (cs, set_requests (requests p ++ repeat name (S j)) p).
Proof.
  induction j as [|j IH]; intros n p Hn Hbefore Hans;
    (destruct n as [|n]; [lia|]); cbn [search_loop].
  - rewrite Nat.add_0_r in Hans. rewrite Hans. reflexivity.
  - rewrite <- (Nat.add_0_r (List.length (requests p))).
    rewrite (Hbefore 0%nat) by lia.
    rewrite (IH n); [| lia | |].
    + cbn. rewrite <- app_assoc. reflexivity.
    + intros i Hi. cbn [requests set_requests]. rewrite length_app.
      cbn [List.length]. rewrite <- Nat.add_assoc. apply Hbefore. lia.
    + cbn [requests set_requests]. rewrite length_app.
      cbn [List.length]. rewrite <- Nat.add_assoc. exact Hans.
Qed.

Lemma search_loop_failure name : forall j n p,
  (j < n)%nat ->
  (forall i, (i < j)%nat ->
             get_compounds (List.length (requests p) + i) name = Timeout) ->
  get_compounds (List.length (requests p) + j) name = Fails ->
  search_loop get_compounds name n p = Raise RequestError.
Proof.
  induction j as [|j IH]; intros n p Hn Hbefore Hf;
    (destruct n as [|n]; [lia|]); cbn [search_loop].
  - rewrite Nat.add_0_r in Hf. rewrite Hf. reflexivity.
  - rewrite <- (Nat.add_0_r (List.length (requests p))).
    rewrite (Hbefore 0%nat) by lia.
    apply IH; [lia | |].
    + intros i Hi. cbn [requests set_requests]. rewrite length_app.
      cbn [List.length]. rewrite <- Nat.add_assoc. apply Hbefore. lia.
    + cbn [requests set_requests]. rewrite length_app.
      cbn [List.length]. rewrite <- Nat.add_assoc. exact Hf.
Qed.

(** X6.  [search_pubchem] sends at most [attempts] requests, all for the
    name it is given, and touches no cache.  The first reply that is not a
    timeout decides: a list of compounds is returned, and no further
    request is sent; a failure of the request leaves the function as an
    exception, and that is the only way it raises.  When all [attempts]
    requests time out (also when [attempts] is zero or negative, and none
    is sent) it returns the empty list and adds the name to
    [timedout_entities]. *)
Theorem search_pubchem_bounded :
  forall (name : str) (attempts : Z) (p : processor),
    match search_pubchem get_compounds name attempts p with
    | Ok (_, p') =>
        exists k,
          (k <= Z.to_nat attempts)%nat
          /\ requests p' = requests p ++ repeat name k
          /\ entity_to_cid p' = entity_to_cid p
          /\ entity_counts p' = entity_counts p
          /\ entity_to_synonyms p' = entity_to_synonyms p
    | Raise e =>
        e = RequestError
        /\ exists j,
             (j < Z.to_nat attempts)%nat
             /\ get_compounds (List.length (requests p) + j) name = Fails
    end
    /\ (forall j cs,
          (j < Z.to_nat attempts)%nat ->
          (forall i, (i < j)%nat ->
             get_compounds (List.length (requests p) + i) name = Timeout) ->
          get_compounds (List.length (requests p) + j) name = Compounds cs ->
          search_pubchem get_compounds name attempts p
          = Ok (cs, set_requests (requests p ++ repeat name (S j)) p))
    /\ (forall j,
          (j < Z.to_nat attempts)%nat ->
          (forall i, (i < j)%nat ->
             get_compounds (List.length (requests p) + i) name = Timeout) ->
          get_compounds (List.length (requests p) + j) name = Fails ->
          search_pubchem get_compounds name attempts p = Raise RequestError)
    /\ ((forall j, (j < Z.to_nat attempts)%nat ->
           get_compounds (List.length (requests p) + j) name = Timeout) ->
        search_pubchem get_compounds name attempts p
        = Ok ([], set_timedout_entities (timedout_entities p ++ [name])
                    (set_requests
                       (requests p ++ repeat name (Z.to_nat attempts)) p))).
Proof.
  intros name attempts p. unfold search_pubchem. split; [|split; [|split]].
  - pose proof (search_loop_spec get_compounds name (Z.to_nat attempts) p) as H.
    destruct (search_loop get_compounds name (Z.to_nat attempts) p)
      as [[c p']|e]; [|exact H].
    destruct H as (k & Hk & Hr & He & Hc & Hs & _). exists k. auto.
  - intros j cs Hj Hbefore Hans. apply search_loop_answer; assumption.
  - intros j Hj Hbefore Hf. eapply search_loop_failure; eassumption.
  - apply search_loop_timeouts.
Qed.

(** X8.  Resolving a mention whose name is in the cache already sends no
    request and leaves the cache, the synonyms and the list of timeouts
    as they are; the count kept for the name (under its canonical name
    when it has one) goes up by exactly one and no other count moves. *)
Theorem cached_mention_counts_once :
  forall (attempts : Z) (p : processor) (c : cem) (name : str)
         (v : cid_entry) (n : Z),
    mention_name (cem_text c) = Ok name ->
    sget (entity_to_cid p) name = Some v ->
    sget (entity_counts p) (count_key name v) = Some n ->
    exists p',
      resolve_cem get_compounds attempts p c
        = Ok (p', (name, cem_start c, cem_end c))
      /\ entity_to_cid p' = entity_to_cid p
      /\ entity_to_synonyms p' = entity_to_synonyms p
      /\ requests p' = requests p
      /\ timedout_entities p' = timedout_entities p
      /\ sget (entity_counts p') (count_key name v) = Some (n + 1)
      /\ forall k, k <> count_key name v ->
                   sget (entity_counts p') k = sget (entity_counts p) k.
Proof.
  intros attempts p c name v n Hname Hv Hn.
  unfold resolve_cem. rewrite Hname. cbn [bind].
  unfold smem, PyDict.mem. fold (sget (entity_to_cid p) name). rewrite Hv.
  cbn [negb]. unfold count_again.
  rewrite (sitem_sget _ _ _ Hv). cbn [bind].
  rewrite (sitem_sget _ _ _ Hn). cbn [bind].
  eexists. split; [reflexivity|]. cbn.
  repeat (split; [reflexivity|]).
  split; [apply sget_sset_same|].
  intros k Hk. apply sget_sset_other. congruence.
Qed.
End SearchFacts.

Lemma cached_mention_counts_once_witness :
  exists p',
    resolve_cem silent_pubchem 10
                (seed_counts (hardcode_entities (new_processor [])))
                (mkCem "Co" 3 5)
      = Ok (p', (lit "Co", 3, 5))
    /\ sget (entity_counts p') "cobalt" = Some 2.
Proof.
  destruct (cached_mention_counts_once silent_pubchem 10
              (seed_counts (hardcode_entities (new_processor [])))
              (mkCem "Co" 3 5) (lit "Co")
              (Some 104730, Some (lit "cobalt")) 1)
    as (p' & Hrun & _ & _ & _ & _ & Hc & _);
    [vm_compute; reflexivity | vm_compute; reflexivity
     | vm_compute; reflexivity |].
  exists p'. split; [exact Hrun | exact Hc].
Defined.

Lemma search_pubchem_bounded_witness :
  search_pubchem silent_pubchem "water" 3 (new_processor [])
  = Ok ([], set_timedout_entities [lit "water"]
              (set_requests [lit "water"; lit "water"; lit "water"]
                            (new_processor []))).
Proof.
  apply (search_pubchem_bounded silent_pubchem "water" 3 (new_processor [])).
  intros j _. reflexivity.
Defined.

(** ** What the caches keep *)

Lemma cache_grows_refl p : cache_grows p p.
Proof.
  split; [auto|]. intros k l H. exists []. rewrite app_nil_r. exact H.
Qed.

Lemma cache_grows_trans p1 p2 p3 :
  cache_grows p1 p2 -> cache_grows p2 p3 -> cache_grows p1 p3.
Proof.
  intros [A1 B1] [A2 B2]. split; [auto|].
  intros k l H. destruct (B1 k l H) as [m1 H1].
  destruct (B2 k _ H1) as [m2 H2]. exists (m1 ++ m2).
  rewrite app_assoc. exact H2.
Qed.

Lemma cache_grows_same p p' :
  entity_to_cid p' = entity_to_cid p ->
  entity_to_synonyms p' = entity_to_synonyms p ->
  cache_grows p p'.
Proof.
  intros He Hs. unfold cache_grows. rewrite He, Hs. apply cache_grows_refl.
Qed.

Lemma smem_false_sget {V} (d : sdict V) k : smem d k = false -> sget d k = None.
Proof.
  unfold smem, PyDict.mem. fold (sget d k). destruct (sget d k); congruence.
Qed.

Section CacheFacts.
Variable get_compounds : nat -> str -> reply.
Variable doc_cems : str -> list cem.
Variable doc_abbvs : str -> list abbv_def.

Lemma register_new_grows name attempts p p' :
  register_new get_compounds name attempts p = Ok p' ->
  smem (entity_to_cid p) name = false ->
  cache_grows p p'.
Proof.
  intros Hrun Hnew. apply smem_false_sget in Hnew.
  unfold register_new, search_pubchem in Hrun.
  pose proof (search_loop_spec get_compounds name (Z.to_nat attempts) p) as H.
  destruct (search_loop get_compounds name (Z.to_nat attempts) p)
    as [[c p1]|e]; cbn [bind] in Hrun; [|discriminate].
  destruct H as (k & _ & _ & He & _ & Hs & _).
  assert (Hcid : forall entry k' v,
             sget (entity_to_cid p) k' = Some v ->
             sget (sset (entity_to_cid p1) name entry) k' = Some v).
  { intros entry k' v H. rewrite He. rewrite sget_sset_other; [exact H|].
    intros ->. congruence. }
  assert (Hsame : forall k' l,
             sget (entity_to_synonyms p) k' = Some l ->
             exists more, sget (entity_to_synonyms p1) k' = Some (l ++ more)).
  { intros k' l H. exists []. rewrite Hs, app_nil_r. exact H. }
  destruct c as [|c0 cs]; [|destruct (iupac_name c0) as [iupac|]];
    injection Hrun as <-.
  - split; fields; [apply Hcid | exact Hsame].
  - split; fields; [apply Hcid|].
    intros k' l H. rewrite Hs.
    destruct (str_eq_dec iupac k') as [->|Hne].
    + rewrite H. rewrite sget_sset_same. eauto.
    + destruct (sget (entity_to_synonyms p) iupac);
        rewrite sget_sset_other by exact Hne;
        exists []; rewrite app_nil_r; exact H.
  - split; fields; [apply Hcid | exact Hsame].
Qed.

Lemma resolve_cem_grows attempts p c p' ent :
  resolve_cem get_compounds attempts p c = Ok (p', ent) ->
  cache_grows p p'.
Proof.
  unfold resolve_cem.
  destruct (mention_name (cem_text c)) as [name|e]; cbn [bind]; [|discriminate].
  destruct (smem (entity_to_cid p) name) eqn:Hmem; cbn [negb].
  - unfold count_again.
    destruct (sitem (entity_to_cid p) name) as [v|e]; cbn [bind]; [|discriminate].
    destruct (sitem (entity_counts p) (count_key name v)) as [n|e];
      cbn [bind]; [|discriminate].
    intros [= <- _]. apply cache_grows_same; reflexivity.
  - destruct (register_new get_compounds name attempts p) as [p1|e] eqn:E;
      cbn [bind]; [|discriminate].
    intros [= <- _]. eapply register_new_grows; eassumption.
Qed.

Lemma resolve_cems_grows attempts : forall cems p p' ents,
  resolve_cems get_compounds attempts p cems = Ok (p', ents) ->
  cache_grows p p'.
Proof.
  induction cems as [|c cems IH]; intros p p' ents H.
  - cbn in H. injection H as <- _. apply cache_grows_refl.
  - cbn [resolve_cems] in H.
    destruct (resolve_cem get_compounds attempts p c) as [[p1 ent]|err] eqn:E1;
      cbn [bind] in H; [|discriminate].
    destruct (resolve_cems get_compounds attempts p1 cems) as [[p2 es]|err]
      eqn:E2; cbn [bind] in H; [|discriminate].
    injection H as <- _.
    eapply cache_grows_trans; [eapply resolve_cem_grows, E1 | eapply IH, E2].
Qed.

Lemma normalize_text_grows remove_abbr write_bold attempts p i text p' :
  normalize_text get_compounds doc_cems doc_abbvs remove_abbr write_bold
                 attempts p i text = Ok p' ->
  cache_grows p p'.
Proof.
  unfold normalize_text.
  destruct (if remove_abbr then _ else _) as [text1|e]; cbn [bind];
    [|discriminate].
  destruct (resolve_cems get_compounds attempts p (doc_cems text1))
    as [[p1 ents]|e] eqn:E; cbn [bind]; [|discriminate].
  destruct (replace_entities _ _ _ _) as [[[t2 ic] recs]|e]; cbn [bind];
    [|discriminate].
  intros [= <-]. apply resolve_cems_grows in E.
  destruct E as [A B]. split; fields; assumption.
Qed.

(** Without saving, both caches only grow from text to text. *)
Lemma normalize_loop_grows remove_abbr write_bold attempts save_freq last :
  forall texts p i p',
    normalize_loop get_compounds doc_cems doc_abbvs remove_abbr write_bold
                   attempts NoSave save_freq last p i texts = Ok p' ->
    cache_grows p p'.
Proof.
  induction texts as [|text rest IH]; intros p i p' H; cbn [normalize_loop] in H.
  - injection H as <-. apply cache_grows_refl.
  - destruct (normalize_text _ _ _ _ _ _ p i text) as [p1|e] eqn:E;
      cbn [bind] in H; [|discriminate].
    pose proof (save_point_spec NoSave save_freq i last p1) as Hs.
    destruct (save_point NoSave save_freq i last p1) as [p2|e];
      cbn [bind] in H; [|discriminate].
    destruct Hs as (_ & _ & _ & _ & _ & Hsame).
    rewrite (Hsame eq_refl) in H.
    eapply cache_grows_trans;
      [eapply normalize_text_grows, E | eapply IH, H].
Qed.

(** Saving or not, the entries of [entity_to_cid] stay. *)
Lemma normalize_loop_keeps_cid remove_abbr write_bold attempts save save_freq
      last :
  forall texts p i p' k v,
    normalize_loop get_compounds doc_cems doc_abbvs remove_abbr write_bold
                   attempts save save_freq last p i texts = Ok p' ->
    sget (entity_to_cid p) k = Some v ->
    sget (entity_to_cid p') k = Some v.
Proof.
  induction texts as [|text rest IH]; intros p i p' k v H Hv;
    cbn [normalize_loop] in H.
  - injection H as <-. exact Hv.
  - destruct (normalize_text _ _ _ _ _ _ p i text) as [p1|e] eqn:E;
      cbn [bind] in H; [|discriminate].
    pose proof (save_point_spec save save_freq i last p1) as Hs.
    destruct (save_point save save_freq i last p1) as [p2|e];
      cbn [bind] in H; [|discriminate].
    destruct Hs as (He & _).
    apply normalize_text_grows in E. destruct E as [Hcid _].
    eapply IH; [exact H|]. rewrite He. apply Hcid, Hv.
Qed.
End CacheFacts.

(** X9.  An entry of [entity_to_cid] under a name that is not hard coded
    survives every run of [normalize_chemical_entities] that returns,
    saving or not: no lookup overwrites what an earlier one (or a loaded
    search history) has stored, whatever PubChem replies this time. *)
Theorem cached_entries_survive_runs :
  forall (get_compounds : nat -> str -> reply) (doc_cems : str -> list cem)
         (doc_abbvs : str -> list abbv_def) (texts : option (list str))
         (remove_abbr write_bold : bool) (attempts : Z)
         (save : save_arg) (save_freq : Z) (p p' : processor)
         (k : str) (v : cid_entry),
    normalize_chemical_entities get_compounds doc_cems doc_abbvs texts
      remove_abbr write_bold attempts save save_freq p = Ok p' ->
    ~ In k hardcoded_names ->
    sget (entity_to_cid p) k = Some v ->
    sget (entity_to_cid p') k = Some v.
Proof.
  intros gc dc da texts ra wb attempts save save_freq p p' k v Hrun Hk Hv.
  unfold normalize_chemical_entities in Hrun.
  destruct (match texts with Some l => Ok l | None => _ end) as [l|e];
    cbn [bind] in Hrun; [|discriminate].
  eapply normalize_loop_keeps_cid; [exact Hrun|].
  unfold seed_counts, hardcode_entities. fields.
  unfold hardcoded_names in Hk. cbn [In] in Hk.
  rewrite !sget_sset_other by (intros <-; tauto). exact Hv.
Qed.

Lemma cached_entries_survive_runs_witness :
  exists p',
    normalize_chemical_entities sample_pubchem sample_cems sample_abbvs
      (Some [lit "CO binds"]) true false 10 (Saving (@rev str)) 100
      (set_entity_to_cid sample_table (new_processor [])) = Ok p'
    /\ sget (entity_to_cid p') "water"
       = Some (Some 962, Some (lit "oxidane")).
Proof.
  destruct (normalize_chemical_entities sample_pubchem sample_cems
              sample_abbvs (Some [lit "CO binds"]) true false 10
              (Saving (@rev str)) 100
              (set_entity_to_cid sample_table (new_processor [])))
    as [p'|e] eqn:E; [|vm_compute in E; discriminate E].
  exists p'. split; [reflexivity|].
  apply (cached_entries_survive_runs sample_pubchem sample_cems sample_abbvs
           (Some [lit "CO binds"]) true false 10 (Saving (@rev str)) 100
           (set_entity_to_cid sample_table (new_processor [])) p'
           (lit "water") _ E).
  - vm_compute. intuition discriminate.
  - reflexivity.
Defined.

(** X21.  During the resolution of the mentions of a text, every list of
    synonyms keeps the names it has, in their order, and only gets names
    added behind them; and so from the first text to the last of a run
    that returns and does not save, for every canonical name that is not
    one of the four that l. 324-327 assign.  A run that saves replaces
    each list at its save points by [list(set(...))], which is free to
    reorder it: where that lists the names backwards, the synonyms of
    "carbon monoxide" end as "carbon monoxide", "CO". *)
Theorem synonyms_grow_within_run :
  forall (get_compounds : nat -> str -> reply) (doc_cems : str -> list cem)
         (doc_abbvs : str -> list abbv_def),
    (forall attempts cems p p' ents k l,
        resolve_cems get_compounds attempts p cems = Ok (p', ents) ->
        sget (entity_to_synonyms p) k = Some l ->
        exists more, sget (entity_to_synonyms p') k = Some (l ++ more))
    /\ (forall texts remove_abbr write_bold attempts save_freq p p' k l,
          normalize_chemical_entities get_compounds doc_cems doc_abbvs texts
            remove_abbr write_bold attempts NoSave save_freq p = Ok p' ->
          ~ In k hardcoded_canonical ->
          sget (entity_to_synonyms p) k = Some l ->
          exists more, sget (entity_to_synonyms p') k = Some (l ++ more))
    /\ synonyms_after
         (normalize_chemical_entities sample_pubchem sample_cems sample_abbvs
            (Some [lit "carbon monoxide binds"]) true false 10
            (Saving (@rev str)) 100 (new_processor []))
         "carbon monoxide" = Some [lit "carbon monoxide"; lit "CO"].
Proof.
  intros gc dc da. split; [|split].
  - intros attempts cems p p' ents k l Hrun Hl.
    apply resolve_cems_grows in Hrun. destruct Hrun as [_ Hs]. apply Hs, Hl.
  - intros texts ra wb attempts save_freq p p' k l Hrun Hk Hl.
    unfold normalize_chemical_entities in Hrun.
    destruct (match texts with Some l => Ok l | None => _ end) as [l0|e];
      cbn [bind] in Hrun; [|discriminate].
    apply normalize_loop_grows in Hrun. destruct Hrun as [_ Hs].
    apply Hs. unfold seed_counts, hardcode_entities. fields.
    unfold hardcoded_canonical in Hk. cbn [In] in Hk.
    rewrite !sget_sset_other by (intros <-; tauto). exact Hl.
  - vm_compute. reflexivity.
Qed.

Lemma synonyms_grow_within_run_witness :
  exists p' more,
    resolve_cems sample_pubchem 10
      (set_entity_to_synonyms [(lit "oxidane", [lit "water"])]
         (seed_counts (hardcode_entities (new_processor []))))
      [mkCem "H2O" 20 23] = Ok (p', [(lit "H2O", 20, 23)])
    /\ sget (entity_to_synonyms p') "oxidane" = Some ([lit "water"] ++ more).
Proof.
  destruct (resolve_cems sample_pubchem 10
              (set_entity_to_synonyms [(lit "oxidane", [lit "water"])]
                 (seed_counts (hardcode_entities (new_processor []))))
              [mkCem "H2O" 20 23]) as [[p' ents]|e] eqn:E;
    [|vm_compute in E; discriminate E].
  assert (ents = [(lit "H2O", 20, 23)]) as ->
    by (vm_compute in E; injection E as _ <-; reflexivity).
  destruct (proj1 (synonyms_grow_within_run sample_pubchem sample_cems
                     sample_abbvs) _ _ _ _ _ (lit "oxidane") [lit "water"] E)
    as [more Hm]; [reflexivity|].
  exists p', more. split; [reflexivity | exact Hm].
Defined.

(** X7.  When every request for a new name times out, the name is put in
    the cache as a name without compound, [[None, None]], with the count
    1, and in [timedout_entities].  From then on it is a cached name: a
    later mention of it sends no request, even to a PubChem that would
    answer, and its entry stays. *)
Theorem timed_out_name_is_cached_unresolved :
  forall (get_compounds : nat -> str -> reply) (attempts : Z)
         (p : processor) (c : cem) (name : str),
    counts_ok p = true ->
    mention_name (cem_text c) = Ok name ->
    smem (entity_to_cid p) name = false ->
    (forall j, (j < Z.to_nat attempts)%nat ->
       get_compounds (List.length (requests p) + j)%nat name = Timeout) ->
    exists p',
      resolve_cem get_compounds attempts p c
        = Ok (p', (name, cem_start c, cem_end c))
      /\ sget (entity_to_cid p') name = Some (None, None)
      /\ sget (entity_counts p') name = Some 1
      /\ timedout_entities p' = timedout_entities p ++ [name]
      /\ forall (get_compounds' : nat -> str -> reply) attempts' c',
           mention_name (cem_text c') = Ok name ->
           exists p'',
             resolve_cem get_compounds' attempts' p' c'
               = Ok (p'', (name, cem_start c', cem_end c'))
             /\ requests p'' = requests p'
             /\ sget (entity_to_cid p'') name = Some (None, None).
Proof.
  intros gc attempts p c name Hok Hname Hnew Hall.
  set (p1 := set_entity_counts
                (sset (entity_counts p) name 1)
                (set_entity_to_cid
                   (sset (entity_to_cid p) name (None, None))
                   (set_timedout_entities (timedout_entities p ++ [name])
                      (set_requests
                         (requests p ++ repeat name (Z.to_nat attempts))
                         p)))).
  assert (Hreg : register_new gc name attempts p = Ok p1).
  { unfold register_new, search_pubchem.
    rewrite search_loop_timeouts by exact Hall. reflexivity. }
  exists p1.
  assert (Hcid : sget (entity_to_cid p1) name = Some (None, None))
    by (unfold p1; fields; apply sget_sset_same).
  split; [|split; [exact Hcid | split; [|split]]].
  - unfold resolve_cem. rewrite Hname. cbn [bind]. rewrite Hnew. cbn [negb].
    rewrite Hreg. reflexivity.
  - unfold p1. fields. apply sget_sset_same.
  - reflexivity.
  - intros gc' attempts' c' Hname'.
    pose proof (register_new_spec gc name attempts p Hok) as Hspec.
    rewrite Hreg in Hspec. destruct Hspec as (_ & _ & _ & Hok' & _).
    assert (Hmem : smem (entity_to_cid p1) name = true).
    { unfold smem, PyDict.mem. fold (sget (entity_to_cid p1) name).
      rewrite Hcid. reflexivity. }
    destruct (resolve_cem_cached gc' attempts' p1 c' name Hok' Hname' Hmem)
      as (p'' & Hrun & He & _ & Hr & _).
    exists p''. split; [exact Hrun|]. split; [exact Hr|].
    rewrite He. exact Hcid.
Qed.

Lemma timed_out_name_is_cached_unresolved_witness :
  exists p',
    resolve_cem silent_pubchem 2
                (seed_counts (hardcode_entities (new_processor [])))
                (mkCem "Water" 0 5)
      = Ok (p', (lit "water", 0, 5))
    /\ sget (entity_to_cid p') "water" = Some (None, None)
    /\ timedout_entities p' = [lit "water"].
Proof.
  destruct (timed_out_name_is_cached_unresolved silent_pubchem 2
              (seed_counts (hardcode_entities (new_processor [])))
              (mkCem "Water" 0 5) (lit "water"))
    as (p' & Hrun & Hcid & _ & Ht & _);
    [vm_compute; reflexivity | vm_compute; reflexivity
     | vm_compute; reflexivity | intros j _; reflexivity |].
  exists p'. split; [exact Hrun|]. split; [exact Hcid | exact Ht].
Defined.

(** ** Mentions reported in any order *)

Lemma apart_sym a b : apart a b = apart b a.
Proof. unfold apart. apply orb_comm. Qed.

Lemma insert_spans_ok n x : forall l lo,
  spans_ok lo n l = true ->
  lo <= fst (entity_span x) -> fst (entity_span x) < snd (entity_span x) ->
  snd (entity_span x) <= n ->
  forallb (fun y => apart (entity_span x) (entity_span y)) l = true ->
  spans_ok lo n (insert_by entity_start x l) = true.
Proof.
  destruct x as [[nx sx] ex]. cbn [entity_span fst snd].
  induction l as [|[[ny sy] ey] l IH]; intros lo Hok Hlo Hx Hn Hap.
  - cbn. apply andb_true_intro. split; [|reflexivity].
    apply andb_true_intro. split; [apply andb_true_intro; split|];
      apply Z.leb_le; lia.
  - cbn [spans_ok] in Hok. apply andb_prop in Hok as [Hok Hrest].
    apply andb_prop in Hok as [Hok He]. apply andb_prop in Hok as [Hs Hse].
    apply Z.leb_le in Hs, Hse, He.
    cbn [forallb] in Hap. apply andb_prop in Hap as [Hxy Hap].
    unfold apart in Hxy. cbn [entity_span fst snd] in Hxy.
    apply orb_prop in Hxy.
    cbn [insert_by]. unfold entity_start at 1 2. cbn [fst snd].
    destruct (sx <? sy) eqn:E.
    + apply Z.ltb_lt in E.
      assert (ex <= sy) by (destruct Hxy as [H|H]; apply Z.leb_le in H; lia).
      cbn [spans_ok]. rewrite Hrest.
      repeat (apply andb_true_intro; split); try apply Z.leb_le; try lia;
        reflexivity.
    + apply Z.ltb_ge in E.
      assert (ey <= sx) by (destruct Hxy as [H|H]; apply Z.leb_le in H; lia).
      cbn [spans_ok]. rewrite (IH ey) by (assumption || lia).
      repeat (apply andb_true_intro; split); try apply Z.leb_le; try lia;
        reflexivity.
Qed.

Lemma sort_spans_ok n : forall l acc,
  spans_ok 0 n acc = true ->
  spans_inside n (map entity_span l) = true ->
  spans_apart (map entity_span l) = true ->
  (forall x, In x l ->
     forallb (fun y => apart (entity_span x) (entity_span y)) acc = true) ->
  spans_ok 0 n (fold_left (fun acc x => insert_by entity_start x acc) l acc)
  = true.
Proof.
  induction l as [|x l IH]; intros acc Hacc Hin Hap Hcross; [exact Hacc|].
  cbn [map spans_inside forallb] in Hin. apply andb_prop in Hin as [Hx Hin].
  apply andb_prop in Hx as [Hx Hxn]. apply andb_prop in Hx as [Hx0 Hxs].
  apply Z.leb_le in Hx0, Hxn. apply Z.ltb_lt in Hxs.
  cbn [map spans_apart] in Hap. apply andb_prop in Hap as [Hxl Hap].
  cbn [fold_left]. apply IH; [| exact Hin | exact Hap |].
  - apply insert_spans_ok; try assumption. apply Hcross. left. reflexivity.
  - intros y Hy. apply forallb_forall. intros z Hz.
    destruct (insert_by_in _ _ _ _ Hz) as [->|Hz'].
    + rewrite apart_sym. rewrite forallb_forall in Hxl.
      apply Hxl. apply in_map. exact Hy.
    + specialize (Hcross y (or_intror Hy)). rewrite forallb_forall in Hcross.
      apply Hcross, Hz'.
Qed.

Section AnyOrder.
Variable get_compounds : nat -> str -> reply.
Variable doc_cems : str -> list cem.
Variable doc_abbvs : str -> list abbv_def.

Lemma resolve_cems_spans attempts : forall cems p p' ents,
  resolve_cems get_compounds attempts p cems = Ok (p', ents) ->
  map entity_span ents = map cem_span cems.
Proof.
  induction cems as [|c cems IH]; intros p p' ents H.
  - cbn in H. injection H as _ <-. reflexivity.
  - cbn [resolve_cems] in H.
    destruct (resolve_cem get_compounds attempts p c) as [[p1 ent]|err] eqn:E1;
      cbn [bind] in H; [|discriminate].
    destruct (resolve_cems get_compounds attempts p1 cems) as [[p2 ents']|err]
      eqn:E2; cbn [bind] in H; [|discriminate].
    injection H as _ <-. cbn [map]. rewrite (IH _ _ _ E2). f_equal.
    unfold resolve_cem in E1.
    destruct (mention_name (cem_text c)) as [name|e]; cbn [bind] in E1;
      [|discriminate].
    destruct (negb _).
    + destruct (register_new _ _ _ _); cbn [bind] in E1; [|discriminate].
      injection E1 as _ <-. reflexivity.
    + destruct (count_again name p); cbn [bind] in E1; [|discriminate].
      injection E1 as _ <-. reflexivity.
Qed.

(** X11.  The recogniser may report the mentions of a text in any order.
    When their spans are non-empty, lie in the text and do not overlap,
    and no request to PubChem fails, normalizing the text (without the
    removal of abbreviations) returns, and every record filed for the
    text cuts from the normalized text exactly what was put in for it:
    the replacement name, between the two escape sequences when
    [write_bold] is set. *)
Theorem records_delimit_replacements_in_any_order :
  forall (write_bold : bool) (attempts : Z) (p : processor) (i : Z)
         (text : str),
    answers get_compounds ->
    override_inv p ->
    spans_inside (len text) (map cem_span (doc_cems text)) = true ->
    spans_apart (map cem_span (doc_cems text)) = true ->
    exists p' text2 recs,
      normalize_text get_compounds doc_cems doc_abbvs false write_bold
                     attempts p i text = Ok p'
      /\ normalized_texts p' = normalized_texts p ++ [text2]
      /\ iget (entities_per_text p') i = Some recs
      /\ List.length recs = List.length (doc_cems text)
      /\ Forall (record_delimits write_bold text2) recs.
Proof.
  intros wb attempts p i text Hans Hinv Hin Hap.
  unfold normalize_text. cbn [bind].
  destruct (resolve_cems_inv get_compounds Hans attempts (doc_cems text) p Hinv)
    as (p1 & ents & Hrun & _ & _ & Hkn & _ & Ht1 & Ht2).
  rewrite Hrun. cbn [bind].
  pose proof (resolve_cems_spans _ _ _ _ _ Hrun) as Hspans.
  rewrite <- Hspans in Hin, Hap.
  assert (Hsorted : spans_ok 0 (len text) (sort_by entity_start ents) = true).
  { unfold sort_by. apply sort_spans_ok; try assumption; [reflexivity|].
    intros x _. reflexivity. }
  assert (Hkn' : names_known (entity_to_cid p1)
                             (sort_by entity_start ents) = true).
  { unfold names_known in *. rewrite forallb_forall in *.
    intros x Hx. apply Hkn, sort_by_in with (key := entity_start), Hx. }
  pose proof (len_nonneg text) as Hlen.
  destruct (replace_entities_from wb (entity_to_cid p1)
              (sort_by entity_start ents) text 0 [] 0)
    as (final & recs & Hrep & _ & _ & _ & Hrl & Hk);
    rewrite ?Z.sub_0_r; try assumption; try lia.
  exists (set_normalized_texts (normalized_texts p1 ++ [final])
            (set_entities_per_text (iset (entities_per_text p1) i recs) p1)),
         final, recs.
  match goal with
  | |- context [bind ?r _] =>
      replace r with (Ok (A := str * Z * list entity_record)
                         (final,
                          0 + drift_of wb (entity_to_cid p1)
                                (sort_by entity_start ents),
                          [] ++ recs))
        by (symmetry; exact Hrep)
  end.
  cbn [bind app].
  split; [reflexivity|]. fields. rewrite Ht1.
  split; [reflexivity|]. split; [apply iget_iset_same|].
  split.
  - rewrite Hrl, sort_by_length.
    rewrite <- (length_map entity_span), Hspans, length_map. reflexivity.
  - apply Forall_forall. intros r Hr.
    apply In_nth_error in Hr as [k Hk'].
    assert (Hlt : (k < List.length (sort_by entity_start ents))%nat).
    { rewrite <- Hrl. apply nth_error_Some. congruence. }
    destruct (nth_error (sort_by entity_start ents) k) as [[[name s] e]|]
      eqn:E; [|apply nth_error_None in E; lia].
    destruct (Hk k name s e E) as [Hrec Hslice].
    rewrite Hrec in Hk'. injection Hk' as <-.
    unfold record_delimits. exact Hslice.
Qed.
End AnyOrder.

Lemma records_delimit_replacements_in_any_order_witness :
  exists p' text2 recs,
    normalize_text sample_pubchem
      (fun _ => [mkCem "water" 7 12; mkCem "CO" 0 2]) sample_abbvs
      false false 10 (seed_counts (hardcode_entities (new_processor [])))
      0 (lit "CO and water") = Ok p'
    /\ normalized_texts p' = [text2]
    /\ iget (entities_per_text p') 0 = Some recs
    /\ Forall (record_delimits false text2) recs.
Proof.
  destruct (records_delimit_replacements_in_any_order sample_pubchem
              (fun _ => [mkCem "water" 7 12; mkCem "CO" 0 2]) sample_abbvs
              false 10 (seed_counts (hardcode_entities (new_processor [])))
              0 (lit "CO and water"))
    as (p' & text2 & recs & Hrun & Hnt & Hrecs & _ & Hall);
    [ intros n name; unfold sample_pubchem;
      destruct (_ || _); [discriminate|];
      destruct (str_eqb _ _); discriminate
    | split; vm_compute; reflexivity | vm_compute; reflexivity
    | vm_compute; reflexivity |].
  exists p', text2, recs. auto.
Defined.

(** ** Names of mentions with a valence *)

Lemma is_element_no_paren x :
  is_element x = true -> ~ In open_paren x.
Proof.
  assert (Hall : forallb (fun e => negb (in_chars open_paren e)) ELEMENTS = true)
    by (vm_compute; reflexivity).
  unfold is_element. intros H Hin.
  apply existsb_exists in H as (e & He & Heq). apply str_eqb_eq in Heq. subst x.
  rewrite forallb_forall in Hall. specialize (Hall e He).
  apply negb_true_iff in Hall. unfold in_chars in Hall.
  assert (existsb (fun x => if ascii_dec open_paren x then true else false)
                  (lit e) = true).
  { apply existsb_exists. exists open_paren. split; [exact Hin|].
    destruct (ascii_dec open_paren open_paren); congruence. }
  unfold in_chars, lit in *. congruence.
Qed.

Lemma formula_tokens_no_paren : forall n s,
  (List.length s <= n)%nat -> formula_tokens s = true -> ~ In open_paren s.
Proof.
  induction n as [|n IH]; intros s Hn Hf.
  - destruct s; [intros [] | cbn in Hn; lia].
  - destruct s as [|c1 r1]; [intros []|].
    cbn [formula_tokens] in Hf. cbn [List.length] in Hn.
    apply orb_prop in Hf as [Hf|Hf].
    + apply andb_prop in Hf as [H1 H2].
      assert (Hr : ~ In open_paren r1) by (apply IH; [lia | exact H2]).
      assert (Hc : c1 <> open_paren).
      { intros ->. revert H1. vm_compute. discriminate. }
      intros [E|E]; [congruence | tauto].
    + destruct r1 as [|c2 r2]; [discriminate|]. cbn [List.length] in Hn.
      apply orb_prop in Hf as [Hf|Hf].
      * apply andb_prop in Hf as [H1 H2].
        apply is_element_no_paren in H1.
        assert (Hr : ~ In open_paren r2) by (apply IH; [lia | exact H2]).
        intros [E|[E|E]]; [apply H1; left; exact E
                          | apply H1; right; left; exact E | tauto].
      * destruct r2 as [|c3 r3]; [discriminate|]. cbn [List.length] in Hn.
        apply andb_prop in Hf as [H1 H2].
        apply is_element_no_paren in H1.
        assert (Hr : ~ In open_paren r3) by (apply IH; [lia | exact H2]).
        intros [E|[E|[E|E]]];
          [apply H1; left; exact E | apply H1; right; left; exact E
           | apply H1; right; right; left; exact E | tauto].
Qed.

Lemma formula_tokens_paren l :
  In open_paren l -> formula_tokens l = false.
Proof.
  intros Hin. destruct (formula_tokens l) eqn:E; [|reflexivity].
  exfalso. eapply formula_tokens_no_paren; [reflexivity | exact E | exact Hin].
Qed.

Lemma FORMULA_REGX_no_paren a inner :
  inner <> [] -> FORMULA_REGX_match (a ++ open_paren :: inner) = false.
Proof.
  intros Hne. unfold FORMULA_REGX_match.
  rewrite (formula_tokens_paren (a ++ open_paren :: inner))
    by (apply in_or_app; right; left; reflexivity).
  rewrite (formula_tokens_paren (removelast (a ++ open_paren :: inner))).
  - rewrite !andb_false_r. reflexivity.
  - rewrite removelast_app by discriminate.
    destruct inner as [|c inner']; [congruence|].
    change (removelast (open_paren :: c :: inner'))
      with (open_paren :: removelast (c :: inner')).
    apply in_or_app. right. left. reflexivity.
Qed.

Lemma split_at_paren_shape : forall s a b,
  split_at_paren s = Some (a, b) -> exists inner, b = open_paren :: inner.
Proof.
  induction s as [|c r IH]; intros a b H; [discriminate|].
  cbn [split_at_paren] in H. destruct (ascii_dec c "("%char) as [->|].
  - injection H as _ <-. eauto.
  - destruct (split_at_paren r) as [[a' b']|] eqn:E; [|discriminate].
    injection H as _ <-. eapply IH. reflexivity.
Qed.

Lemma valence_groups_shape s elem v :
  valence_groups s = Some (elem, v) ->
  exists inner, v = open_paren :: inner /\ inner <> [].
Proof.
  unfold valence_groups.
  destruct (split_at_paren s) as [[a b]|] eqn:E; [|discriminate].
  destruct (split_at_paren_shape _ _ _ E) as [inner ->].
  destruct (rev (open_paren :: inner)) as [|l ?]; [discriminate|].
  destruct (is_element a); cbn [andb]; [|discriminate].
  destruct (if ascii_dec l ")"%char then true else false); cbn [andb];
    [|discriminate].
  destruct inner as [|c inner']; cbn [nonempty andb]; [discriminate|].
  destruct (valence_body _); [|discriminate].
  intros [= <- <-]. exists (c :: inner'). split; [reflexivity | discriminate].
Qed.

(** X12.  A mention that matches the valence pattern is never taken for a
    formula: its name, under which it is looked up, cached and counted,
    is the name of the element followed by the valence group in lower
    case, as in "iron(iii)" for "Fe(III)". *)
Theorem valence_mention_name_is_lowered :
  forall (t elem valence : str),
    VALENCE_REGX_match t = Some (elem, valence) ->
    exists elem_name,
      sget element_dict elem = Some elem_name
      /\ mention_name t = Ok (elem_name ++ lower valence).
Proof.
  intros t elem valence Hm.
  destruct (is_element_named elem (VALENCE_REGX_element _ _ _ Hm)) as [en Hen].
  exists en. split; [exact Hen|].
  unfold mention_name, valence_rewrite. rewrite Hm.
  rewrite (sitem_sget _ _ _ Hen). cbn [bind]. f_equal.
  assert (Hshape : exists inner, valence = open_paren :: inner /\ inner <> []).
  { unfold VALENCE_REGX_match in Hm.
    destruct (valence_groups t) as [[a b]|] eqn:E.
    - injection Hm as -> ->. eapply valence_groups_shape, E.
    - destruct (ends_with_newline t); [|discriminate].
      eapply valence_groups_shape, Hm. }
  destruct Hshape as (inner & -> & Hne).
  unfold case_rule. rewrite FORMULA_REGX_no_paren by exact Hne.
  unfold lower. rewrite map_app. f_equal.
  assert (Hall : forallb (fun kv : str * str => str_eqb (lower (snd kv)) (snd kv))
                         element_dict = true) by (vm_compute; reflexivity).
  rewrite forallb_forall in Hall.
  specialize (Hall _ (sget_in _ _ _ Hen)). apply str_eqb_eq in Hall.
  exact Hall.
Qed.

Lemma valence_mention_name_is_lowered_witness :
  exists elem_name,
    sget element_dict "Fe" = Some elem_name
    /\ mention_name "Fe(III)" = Ok (elem_name ++ lower "(III)").
Proof.
  apply (valence_mention_name_is_lowered "Fe(III)" "Fe" "(III)").
  vm_compute. reflexivity.
Defined.

(** X13.  For every element symbol, the valence pattern takes the Roman
    numerals one to three and five to eight in either case (and an empty
    pair of parentheses, and a bar), and the mention is rewritten to the
    name of the element with the same group; it does not take four ("IV":
    the brackets of the pattern make a character class of it), nine, ten,
    or a valence in digits, and such a mention is left as it is. *)
Theorem valences_taken_and_not_taken :
  forall (e v : string),
    In e ELEMENTS ->
    (In v valences_taken ->
     exists elem_name,
       sget element_dict (lit e) = Some elem_name
       /\ valence_rewrite (with_valence (lit e) (lit v))
          = Ok (elem_name ++ lit "(" ++ lit v ++ lit ")"))
    /\ (In v valences_not_taken ->
        VALENCE_REGX_match (with_valence (lit e) (lit v)) = None
        /\ valence_rewrite (with_valence (lit e) (lit v))
           = Ok (with_valence (lit e) (lit v))).
Proof.
  assert (Htaken :
    forallb (fun e : string =>
      forallb (fun v : string =>
        match sget element_dict (lit e),
              valence_rewrite (with_valence (lit e) (lit v)) with
        | Some n, Ok r => str_eqb r (n ++ lit "(" ++ lit v ++ lit ")")
        | _, _ => false
        end) valences_taken) ELEMENTS = true)
    by (vm_compute; reflexivity).
  assert (Hnot :
    forallb (fun e : string =>
      forallb (fun v : string =>
        match VALENCE_REGX_match (with_valence (lit e) (lit v)) with
        | None => true
        | Some _ => false
        end) valences_not_taken) ELEMENTS = true)
    by (vm_compute; reflexivity).
  intros e v He. rewrite forallb_forall in Htaken, Hnot.
  specialize (Htaken e He). specialize (Hnot e He).
  rewrite forallb_forall in Htaken, Hnot. split.
  - intros Hv. specialize (Htaken v Hv).
    destruct (sget element_dict (lit e)) as [n|]; [|discriminate].
    destruct (valence_rewrite _) as [r|]; [|discriminate].
    apply str_eqb_eq in Htaken. subst r. eauto.
  - intros Hv. specialize (Hnot v Hv). unfold valence_rewrite.
    destruct (VALENCE_REGX_match _); [discriminate|]. auto.
Qed.

Lemma valences_taken_and_not_taken_witness :
  VALENCE_REGX_match (with_valence (lit "Ti") (lit "IV")) = None
  /\ valence_rewrite (with_valence (lit "Ti") (lit "IV"))
     = Ok (with_valence (lit "Ti") (lit "IV")).
Proof.
  apply (valences_taken_and_not_taken "Ti" "IV");
    vm_compute; intuition.
Defined.

(** ** Cutting out the definition of an abbreviation *)

Lemma subscript_inside {A} (l : list A) i :
  0 <= i < len l -> exists a, subscript l i = Ok a.
Proof.
  intros H. unfold subscript.
  destruct (Z.ltb_spec i 0); [lia|].
  destruct (Z.ltb_spec i 0); [lia|].
  destruct (Z.leb_spec (len l) i); [lia|]. cbn [orb].
  destruct (nth_error l (Z.to_nat i)) eqn:E; [eauto|].
  apply nth_error_None in E. unfold len in H. lia.
Qed.

Lemma subscript_beyond {A} (l : list A) i :
  len l <= i -> subscript l i = Raise IndexError.
Proof.
  intros H. pose proof (len_nonneg l). unfold subscript.
  destruct (Z.ltb_spec i 0); [lia|].
  destruct (Z.ltb_spec i 0); [lia|].
  destruct (Z.leb_spec (len l) i); [reflexivity | lia].
Qed.

(** X15.  When the two characters looked at lie in the text and at least
    two characters precede the short form, [drop_definition] returns, and
    the drift moves by exactly as much as the length of the text: either
    nothing changes, or the [end - start + 3] characters from two before
    the short form to one behind it are cut and the drift goes down by as
    many. *)
Theorem drop_definition_keeps_drift :
  forall (text : str) (index_change cs ce : Z),
    2 <= cs + index_change ->
    cs <= ce ->
    ce + index_change < len text ->
    exists text' index_change',
      drop_definition text index_change cs ce = Ok (text', index_change')
      /\ len text' - len text = index_change' - index_change
      /\ ((text' = text /\ index_change' = index_change)
          \/ (text' = slice_to text (cs - 2 + index_change)
                        ++ slice_from text (ce + 1 + index_change)
              /\ index_change' = index_change - (ce - cs + 3))).
Proof.
  intros text ic cs ce Hcs Hse Hce. unfold drop_definition.
  destruct (subscript_inside text (cs + ic - 1)) as [a Ha]; [lia|].
  destruct (subscript_inside text (ce + ic)) as [b Hb]; [lia|].
  rewrite Ha, Hb. cbn [bind].
  destruct (str_eqb [a; b] "()").
  - do 2 eexists. split; [reflexivity|]. split; [|right; split; [reflexivity | lia]].
    rewrite len_app, len_slice_to, len_slice_from by lia. lia.
  - do 2 eexists. split; [reflexivity|]. split; [lia | left; auto].
Qed.

Lemma drop_definition_keeps_drift_witness :
  exists text' index_change',
    drop_definition (lit "the acid (PLA) and PLA") 0 10 13
      = Ok (text', index_change')
    /\ len text' - len (lit "the acid (PLA) and PLA") = index_change' - 0.
Proof.
  destruct (drop_definition_keeps_drift (lit "the acid (PLA) and PLA") 0 10 13)
    as (t & ic & H1 & H2 & _); [lia | lia | vm_compute; reflexivity |].
  exists t, ic. split; [exact H1 | exact H2].
Defined.

(** X22.  When the text opens with the parenthesis of the definition (the
    short form starts at index 1 and nothing was cut before), the cut
    starts at the bound -1, which a slice counts from the end: nothing is
    removed but the last character, and what follows the closing
    parenthesis is appended a second time.  The drift still goes down by
    [end + 2] while the text grows or stays. *)
Theorem drop_definition_at_text_start :
  forall (text : str) (ce : Z),
    1 <= ce -> ce < len text ->
    subscript text 0 = Ok "("%char ->
    subscript text ce = Ok ")"%char ->
    drop_definition text 0 1 ce
    = Ok (removelast text ++ slice_from text (ce + 1), - (ce + 2))
    /\ len (removelast text ++ slice_from text (ce + 1))
       = 2 * len text - ce - 2.
Proof.
  intros text ce H1 Hce Ha Hb. unfold drop_definition.
  change (1 + 0 - 1) with 0. rewrite Z.add_0_r, Ha, Hb. cbn [bind].
  change (str_eqb ["("%char; ")"%char] "()") with true. cbv iota.
  assert (Hcut : slice_to text (1 - 2 + 0) = removelast text).
  { unfold slice_to, clamp. change (1 - 2 + 0 <? 0) with true. cbv iota.
    replace (Z.max 0 (1 - 2 + 0 + len text)) with (len text - 1) by lia.
    rewrite removelast_firstn_len. f_equal. unfold len. lia. }
  rewrite Hcut, Z.add_0_r. split; [repeat f_equal; lia|].
  rewrite len_app, len_slice_from by lia.
  unfold len at 1. rewrite removelast_firstn_len, length_firstn.
  unfold len in *. lia.
Qed.

Lemma drop_definition_at_text_start_witness :
  drop_definition (lit "(CO) binds") 0 1 3
  = Ok (removelast (lit "(CO) binds") ++ slice_from (lit "(CO) binds") (3 + 1),
        - (3 + 2)).
Proof.
  apply (drop_definition_at_text_start (lit "(CO) binds") 3);
    [lia | vm_compute; reflexivity | reflexivity | reflexivity].
Defined.

(** X14.  A text with one tagged abbreviation whose earliest recognised
    mention is not at index 0 and runs to the end of the text (or past
    it): the character behind the mention does not exist, and
    [remove_abbreviations] raises [IndexError]. *)
Theorem remove_abbreviations_raises_at_text_end :
  forall (doc_cems : str -> list cem) (doc_abbvs : str -> list abbv_def)
         (text : str) (a : abbv_def) (cs ce : Z),
    doc_abbvs text = [a] ->
    abbv_tag a <> None ->
    first_min (spans_named (doc_cems text) (escape_abbv (abbv_first a)))
      = Ok (cs, ce) ->
    1 <= cs <= len text ->
    len text <= ce ->
    remove_abbreviations doc_cems doc_abbvs text = Raise IndexError.
Proof.
  intros dc da text a cs ce Habbvs Htag Hmin Hcs Hce.
  unfold remove_abbreviations. rewrite Habbvs.
  unfold build_abbv_dict. cbn [fold_left].
  destruct (abbv_tag a) as [tag|]; [clear Htag | congruence].
  unfold low_idx_of. rewrite Hmin. cbn [fst].
  cbn [sset PyDict.set sort_by fold_left insert_by abbv_loop].
  unfold abbv_step. destruct (Z.eqb_spec cs 0) as [->|_]; [lia|].
  set (spans := spans_named (dc text) (escape_abbv (abbv_first a))) in *.
  assert (Hdrop : drop_definition text 0 cs ce = Raise IndexError).
  { unfold drop_definition.
    destruct (subscript_inside text (cs + 0 - 1)) as [x Hx]; [lia|].
    rewrite Hx. cbn [bind]. rewrite subscript_beyond by lia. reflexivity. }
  assert (Hsel : match spans with
                 | [(cs0, ce0)] => drop_definition text 0 cs0 ce0
                 | _ => ' (cs0, ce0) <- first_min spans ;;
                        drop_definition text 0 cs0 ce0
                 end = Raise IndexError).
  { destruct spans as [|[s1 e1] [|sp rest]].
    - discriminate.
    - cbn in Hmin. injection Hmin as -> ->. exact Hdrop.
    - rewrite Hmin. cbn [bind]. exact Hdrop. }
  rewrite Hsel. reflexivity.
Qed.

Lemma remove_abbreviations_raises_at_text_end_witness :
  remove_abbreviations
    (fun _ => [mkCem "PLA" 16 19])
    (fun _ => [mkAbbv "PLA" [lit "polylactic"; lit "acid"] (Some (lit "CM"))])
    "polylactic acid PLA"
  = Raise IndexError.
Proof.
  apply (remove_abbreviations_raises_at_text_end _ _ _
           (mkAbbv "PLA" [lit "polylactic"; lit "acid"] (Some (lit "CM")))
           16 19);
    [reflexivity | discriminate | reflexivity
     | vm_compute; intuition discriminate | vm_compute; discriminate].
Defined.

(** ** Substituting the long form *)

Lemma starts_with_spec : forall p t rest,
  starts_with p t = Some rest -> t = p ++ rest.
Proof.
  induction p as [|a p IH]; intros t rest H.
  - cbn in H. injection H as ->. reflexivity.
  - destruct t as [|b t]; [discriminate|]. cbn [starts_with] in H.
    destruct (ascii_dec a b) as [->|]; [|discriminate].
    cbn [app]. f_equal. apply IH, H.
Qed.

Lemma occurs_in_head a t :
  occurs_in a t = false -> starts_with a t = None.
Proof.
  destruct t; cbn [occurs_in]; destruct (starts_with a _); congruence.
Qed.

Lemma re_sub_scan_absent a full : forall t,
  occurs_in a t = false -> re_sub_scan a full 0 t = t.
Proof.
  induction t as [|c r IH]; intros Hno; [reflexivity|].
  assert (Hr : occurs_in a r = false).
  { cbn [occurs_in] in Hno. destruct (starts_with a (c :: r));
      [discriminate | exact Hno]. }
  cbn [re_sub_scan]. rewrite (occurs_in_head _ _ Hr), (IH Hr).
  destruct (is_space c); reflexivity.
Qed.

(** The escaping of l. 496-502 is undone by the pattern: a short form
    in which nothing but the plus is syntax stands for itself. *)
Lemma regex_literal_escape : forall name,
  pattern_plain name = true -> regex_literal (escape_abbv name) = name.
Proof.
  assert (Hnil : forall r, escape_abbv r = [] -> r = []).
  { intros [|c r]; [reflexivity|]. unfold escape_abbv. cbn [flat_map].
    destruct (in_chars c "+"); discriminate. }
  induction name as [|c r IH]; intros Hp; [reflexivity|].
  unfold pattern_plain in Hp. cbn [forallb] in Hp.
  apply andb_prop in Hp as [Hc Hr]. specialize (IH Hr).
  unfold escape_abbv in *. cbn [flat_map].
  destruct (in_chars c "+") eqn:Hplus.
  - assert (c = "+"%char) as ->.
    { unfold in_chars in Hplus. cbn in Hplus.
      destruct (ascii_dec c "+"%char); [assumption | discriminate]. }
    cbn [app regex_literal]. cbn [ascii_dec]. 
    change (if ascii_dec "\"%char "\"%char then true else false) with true.
    change (in_chars "+"%char "+") with true. cbn [andb].
    destruct (flat_map _ r) as [|d rest] eqn:E.
    + rewrite (Hnil r E). reflexivity.
    + cbn [regex_literal].
      change (if ascii_dec "+"%char "\"%char then true else false) with false.
      cbn [andb]. rewrite <- IH. reflexivity.
  - cbn [orb] in Hc. apply negb_true_iff in Hc.
    assert (Hb : (if ascii_dec c "\"%char then true else false) = false).
    { destruct (ascii_dec c "\"%char) as [->|]; [|reflexivity].
      vm_compute in Hc. discriminate. }
    cbn [app].
    destruct (flat_map _ r) as [|d rest] eqn:E.
    + rewrite (Hnil r E). reflexivity.
    + cbn [regex_literal]. rewrite Hb. cbn [andb]. rewrite <- IH. reflexivity.
Qed.

(** X16.  For a short form in which nothing but the plus is syntax of
    patterns and a long form without backslash, the substitution of
    l. 540 leaves a text in which the short form does not occur (there is
    no way to write the text as something, the short form, something)
    exactly as it is: no white space is normalised and nothing is put
    in. *)
Theorem re_sub_without_occurrence :
  forall (abbv_name non_abbv text : str),
    pattern_plain abbv_name = true ->
    template_plain non_abbv = true ->
    (forall before after,
        text = before ++ abbv_name ++ after -> False)
    \/ occurs_in abbv_name text = false ->
    re_sub_abbv (escape_abbv abbv_name) non_abbv text = text.
Proof.
  intros name full text Hplain _ Hno. unfold re_sub_abbv.
  rewrite (regex_literal_escape name Hplain).
  apply re_sub_scan_absent.
  destruct Hno as [Hno|Hno]; [|exact Hno].
  destruct (occurs_in name text) eqn:E; [|reflexivity].
  exfalso. clear full.
  assert (Hex : forall a t, occurs_in a t = true ->
                            exists b c, t = b ++ a ++ c).
  { intros a. induction t as [|x t IH]; cbn [occurs_in].
    - destruct (starts_with a []) as [rest|] eqn:S; [|discriminate].
      intros _. exists [], rest. cbn [app]. apply starts_with_spec, S.
    - destruct (starts_with a (x :: t)) as [rest|] eqn:S.
      + intros _. exists [], rest. cbn [app]. apply starts_with_spec, S.
      + intros H. destruct (IH H) as (b & c & ->). exists (x :: b), c.
        reflexivity. }
  destruct (Hex _ _ E) as (b & c & H). exact (Hno b c H).
Qed.

Lemma re_sub_without_occurrence_witness :
  re_sub_abbv (escape_abbv "Li+") "lithium ion"
              "the acid (PLA) and PLA is here"
  = lit "the acid (PLA) and PLA is here".
Proof.
  apply re_sub_without_occurrence;
    [reflexivity | reflexivity | right; vm_compute; reflexivity].
Defined.

(** ** Construction over a corpus without absent abstracts *)

Section InitPartition.
Variable clean_abstract : str -> result str.

Lemma clean_loop_partition : forall texts i c,
  Forall (cleanable clean_abstract) texts ->
  exists c1,
    clean_loop clean_abstract i texts c = (c1, None)
    /\ c_clean_texts c1 = c_clean_texts c ++ long_enough clean_abstract texts
    /\ c_dropped_idxs c1
       = c_dropped_idxs c ++ short_indices clean_abstract texts i
    /\ c_too_short c1
       = c_too_short c || nonempty (short_indices clean_abstract texts i)
    /\ c_warned c1 = c_warned c
    /\ c_stdout c1 = c_stdout c.
Proof.
  induction texts as [|a texts IH]; intros i c Hall.
  - exists c. cbn. rewrite !app_nil_r, orb_false_r. auto 10.
  - inversion Hall as [|? ? (s & c' & -> & Hc) Hrest]; subst.
    cbn [clean_loop clean_step long_enough short_indices too_short_cleaned].
    rewrite Hc. destruct (len c' <? min_len).
    + edestruct (IH (i + 1)) as (c1 & Hrun & H1 & H2 & H3 & H4 & H5);
        [exact Hrest|]. rewrite Hrun. exists c1.
      cbn [c_clean_texts c_dropped_idxs c_too_short c_warned c_stdout] in *.
      rewrite H1, H2, H3, <- app_assoc. cbn [app nonempty].
      rewrite orb_true_r. auto 10.
    + edestruct (IH (i + 1)) as (c1 & Hrun & H1 & H2 & H3 & H4 & H5);
        [exact Hrest|]. rewrite Hrun. exists c1.
      cbn [c_clean_texts c_dropped_idxs c_too_short c_warned c_stdout] in *.
      rewrite H1, H2, H3, <- app_assoc. cbn [app]. auto 10.
Qed.

Lemma partition_lengths : forall texts i,
  Forall (cleanable clean_abstract) texts ->
  (List.length (long_enough clean_abstract texts)
   + List.length (short_indices clean_abstract texts i))%nat
  = List.length texts.
Proof.
  induction texts as [|a texts IH]; intros i Hall; [reflexivity|].
  inversion Hall as [|? ? (s & c' & -> & Hc) Hrest]; subst.
  cbn [long_enough short_indices too_short_cleaned]. rewrite Hc.
  rewrite !length_app. specialize (IH (i + 1) Hrest).
  destruct (len c' <? min_len); cbn [List.length]; lia.
Qed.

(** X17.  When no abstract of the corpus is absent and [clean_abstract]
    returns for each of them, construction returns.  [clean_texts] holds
    the cleaned abstracts of at least five characters, in order, and
    [dropped_idxs] the indices of the others, in ascending order: each
    abstract is in exactly one of the two.  The warning about length,
    with the blank line behind it, is written exactly when an abstract
    was dropped, and the warning about empty abstracts never. *)
Theorem init_partitions_corpus :
  forall (texts : list (option str)),
    Forall (cleanable clean_abstract) texts ->
    exists c,
      init_clean clean_abstract (TextsList texts) = (c, None)
      /\ c_clean_texts c = long_enough clean_abstract texts
      /\ c_dropped_idxs c = short_indices clean_abstract texts 0
      /\ (List.length (c_clean_texts c) + List.length (c_dropped_idxs c))%nat
         = List.length texts
      /\ c_stdout c = (if nonempty (c_dropped_idxs c)
                       then [WARN_SHORT; BLANK_LINE] else [])
      /\ c_warned c = false.
Proof.
  intros texts Hall. unfold init_clean. cbn [texts_of].
  destruct (clean_loop_partition texts 0 (mkCleaning [] [] false false []) Hall)
    as (c1 & Hrun & H1 & H2 & H3 & H4 & H5).
  cbn [c_clean_texts c_dropped_idxs c_too_short c_warned c_stdout app orb] in *.
  rewrite Hrun.
  assert (Hlen := partition_lengths texts 0 Hall).
  destruct (c_too_short c1) eqn:E.
  - eexists. split; [reflexivity|].
    cbn [c_clean_texts c_dropped_idxs c_too_short c_warned c_stdout].
    rewrite H1, H2, H5, <- H3. auto 10.
  - rewrite H4. exists c1. split; [reflexivity|].
    rewrite H1, H2, H5, <- H3. auto 10.
Qed.
End InitPartition.

Lemma init_partitions_corpus_witness :
  exists c,
    init_clean (fun a => Ok a)
               (TextsList [Some (lit "A long enough abstract."); Some (lit "No")])
      = (c, None)
    /\ c_clean_texts c = [lit "A long enough abstract."]
    /\ c_dropped_idxs c = [1].
Proof.
  destruct (init_partitions_corpus (fun a => Ok a)
              [Some (lit "A long enough abstract."); Some (lit "No")])
    as (c & Hrun & H1 & H2 & _).
  - repeat constructor; eexists; eexists; split; reflexivity.
  - exists c. split; [exact Hrun|]. split; [exact H1 | exact H2].
Defined.

(** ** Cleaning an abstract *)

Lemma lstrip_blank t : forallb is_space t = true -> lstrip t = [].
Proof.
  induction t as [|c r IH]; [reflexivity|]. cbn [forallb lstrip].
  intros H. apply andb_prop in H as [Hc Hr]. rewrite Hc. apply IH, Hr.
Qed.

Lemma strip_blank t : forallb is_space t = true -> strip t = [].
Proof. intros H. unfold strip. rewrite (lstrip_blank t H). reflexivity. Qed.

Lemma forallb_rev {A} (f : A -> bool) l :
  forallb f (rev l) = forallb f l.
Proof.
  induction l as [|x l IH]; [reflexivity|].
  cbn [rev forallb]. rewrite forallb_app, IH. cbn. rewrite andb_true_r.
  apply andb_comm.
Qed.

Lemma split_lines_blank : forall t cur,
  forallb is_space t = true -> forallb is_space cur = true ->
  Forall (fun piece => forallb is_space piece = true) (split_lines_from t cur).
Proof.
  induction t as [|c r IH]; intros cur Ht Hcur; cbn [split_lines_from].
  - constructor; [rewrite forallb_rev; exact Hcur | constructor].
  - cbn [forallb] in Ht. apply andb_prop in Ht as [Hc Hr].
    destruct (char_eqb c newline).
    + constructor; [rewrite forallb_rev; exact Hcur | apply IH; auto].
    + apply IH; [exact Hr|]. cbn [forallb]. rewrite Hc, Hcur. reflexivity.
Qed.

Lemma info_lines_blank abstract :
  forallb is_space abstract = true -> info_lines abstract = [].
Proof.
  intros H. unfold info_lines, split_lines.
  pose proof (split_lines_blank abstract [] H eq_refl) as Hall.
  induction Hall as [|piece pieces Hp _ IH]; [reflexivity|].
  cbn [map filter]. rewrite (strip_blank _ Hp). exact IH.
Qed.

Lemma clean_abstract_blank abstract :
  forallb is_space abstract = true -> clean_abstract abstract = Raise IndexError.
Proof.
  intros H. unfold clean_abstract. rewrite (info_lines_blank _ H). reflexivity.
Qed.

Lemma clean_loop_app clean : forall l i c c',
  clean_loop clean i l c = (c', None) ->
  forall l', clean_loop clean i (l ++ l') c = clean_loop clean (i + len l) l' c'.
Proof.
  induction l as [|a l IH]; intros i c c' H l'.
  - cbn in H. injection H as ->. rewrite len_nil, Z.add_0_r. reflexivity.
  - cbn [clean_loop app] in *.
    destruct (clean_step clean i a c) as [c2 [e|]]; [discriminate|].
    rewrite (IH _ _ _ H). f_equal. rewrite len_cons. lia.
Qed.

(** X18.  An abstract that is empty, or made of white space and line
    breaks only, has no line left once blank lines are dropped, and
    [clean_abstract] raises [IndexError] at [info[0]] (l. 221).  In a
    corpus whose earlier abstracts are cleaned, construction therefore
    raises [IndexError] at such an abstract, without a warning and
    without looking at the abstracts behind it. *)
Theorem blank_abstract_raises :
  forall (abstract : str),
    forallb is_space abstract = true ->
    clean_abstract abstract = Raise IndexError
    /\ forall pre post,
         Forall (cleanable clean_abstract) pre ->
         exists c,
           init_clean clean_abstract (TextsList (pre ++ Some abstract :: post))
             = (c, Some IndexError)
           /\ c_stdout c = []
           /\ c_clean_texts c = long_enough clean_abstract pre.
Proof.
  intros abstract Hblank.
  pose proof (clean_abstract_blank abstract Hblank) as Hraise.
  split; [exact Hraise|]. intros pre post Hpre.
  destruct (clean_loop_partition clean_abstract pre 0
              (mkCleaning [] [] false false []) Hpre)
    as (c1 & Hrun & H1 & _ & _ & _ & H5).
  exists c1. unfold init_clean. cbn [texts_of].
  rewrite (clean_loop_app _ _ _ _ _ Hrun).
  cbn [clean_loop clean_step]. rewrite Hraise.
  split; [reflexivity|]. split; [exact H5 | exact H1].
Qed.

Lemma blank_abstract_raises_witness :
  clean_abstract (lit "  " ++ [newline] ++ lit " ") = Raise IndexError.
Proof.
  apply (blank_abstract_raises (lit "  " ++ [newline] ++ lit " ")).
  vm_compute. reflexivity.
Defined.

(** *** Characters that the cleaning rules can put out *)

Section CharsKept.
Variable ok : ascii -> Prop.
Hypothesis ok_space : ok " "%char.

Lemma lstrip_ok t : Forall ok t -> Forall ok (lstrip t).
Proof.
  induction t as [|c r IH]; intros H; [constructor|].
  cbn [lstrip]. destruct (is_space c); [|exact H].
  inversion H; subst. apply IH. assumption.
Qed.

Lemma strip_ok t : Forall ok t -> Forall ok (strip t).
Proof.
  intros H. unfold strip.
  apply Forall_rev, lstrip_ok, Forall_rev, lstrip_ok, H.
Qed.

Lemma split_ws_ok : forall t cur,
  Forall ok t -> Forall ok cur -> Forall (Forall ok) (split_ws_from t cur).
Proof.
  induction t as [|c r IH]; intros cur Ht Hcur; cbn [split_ws_from].
  - destruct (nonempty cur); repeat constructor. apply Forall_rev, Hcur.
  - inversion Ht; subst. destruct (is_space c).
    + apply Forall_app. split; [|apply IH; [assumption | constructor]].
      destruct (nonempty cur); repeat constructor. apply Forall_rev, Hcur.
    + apply IH; [assumption | constructor; assumption].
Qed.

Lemma join_space_ok l : Forall (Forall ok) l -> Forall ok (join_space l).
Proof.
  induction l as [|t l IH]; intros H; [constructor|].
  inversion H as [|? ? Ht Hl]; subst. cbn [join_space].
  destruct l as [|t' l']; [exact Ht|].
  apply Forall_app. split; [exact Ht|]. constructor; [exact ok_space|].
  apply IH, Hl.
Qed.

Lemma firstn_ok {A} (P : A -> Prop) n l : Forall P l -> Forall P (firstn n l).
Proof.
  intros H. rewrite <- (firstn_skipn n l) in H.
  apply Forall_app in H. tauto.
Qed.

Lemma skipn_ok {A} (P : A -> Prop) n l : Forall P l -> Forall P (skipn n l).
Proof.
  intros H. rewrite <- (firstn_skipn n l) in H.
  apply Forall_app in H. tauto.
Qed.

Lemma filter_ok {A} (P : A -> Prop) f l : Forall P l -> Forall P (filter f l).
Proof.
  intros H. apply Forall_forall. intros x Hx.
  rewrite Forall_forall in H. apply H. apply filter_In in Hx. tauto.
Qed.

Lemma remove_first_ok c t : Forall ok t -> Forall ok (remove_first c t).
Proof.
  induction t as [|x r IH]; intros H; [constructor|].
  inversion H; subst. cbn [remove_first].
  destruct (char_eqb x c); [assumption | constructor; auto].
Qed.

Lemma sub_tags_ok : forall t skip, Forall ok t -> Forall ok (sub_tags skip t).
Proof.
  induction t as [|c r IH]; intros skip H; [constructor|].
  inversion H; subst. cbn [sub_tags]. destruct skip as [|k]; [|apply IH; assumption].
  destruct (char_eqb c "<"%char).
  - destruct (tag_length r); constructor; auto.
  - constructor; auto.
Qed.

Lemma remove_symbols_ok abstract :
  Forall ok abstract -> Forall ok (remove_symbols abstract).
Proof.
  intros H. unfold remove_symbols. apply sub_tags_ok.
  assert (Hsplit : Forall (Forall ok) (split_ws abstract))
    by (apply split_ws_ok; [exact H | constructor]).
  assert (Hfirst :
    Forall ok
      (if str_in [COPYRIGHT] (split_ws abstract)
       then match split_ws abstract with
            | [] => abstract
            | first :: _ =>
                if negb (str_eqb first [COPYRIGHT])
                then join_space
                       (firstn (str_index [COPYRIGHT] (split_ws abstract))
                               (split_ws abstract))
                else if str_in "B.V." (split_ws abstract)
                then join_space
                       (skipn (S (str_index "B.V." (split_ws abstract)))
                              (split_ws abstract))
                else if str_in "B.V.." (split_ws abstract)
                then join_space
                       (skipn (S (str_index "B.V.." (split_ws abstract)))
                              (split_ws abstract))
                else join_space (skipn 2 (split_ws abstract))
            end
       else abstract)).
  { destruct (str_in [COPYRIGHT] (split_ws abstract)); [|exact H].
    destruct (split_ws abstract) as [|first rest] eqn:E; [exact H|].
    rewrite <- E in *.
    repeat match goal with
           | |- Forall ok (if ?b then _ else _) => destruct b
           end;
      apply join_space_ok; first [apply firstn_ok | apply skipn_ok];
      exact Hsplit. }
  match goal with
  | |- Forall ok (if ?b then _ else _) => destruct b
  end; [apply remove_first_ok|]; exact Hfirst.
Qed.
End CharsKept.

Lemma split_lines_no_newline : forall t cur,
  Forall (fun c => c <> newline) cur ->
  Forall (Forall (fun c => c <> newline)) (split_lines_from t cur).
Proof.
  induction t as [|c r IH]; intros cur Hcur; cbn [split_lines_from].
  - constructor; [apply Forall_rev, Hcur | constructor].
  - unfold char_eqb. destruct (ascii_dec c newline) as [->|Hne].
    + constructor; [apply Forall_rev, Hcur | apply IH; constructor].
    + apply IH. constructor; assumption.
Qed.

Lemma info_lines_no_newline abstract :
  Forall (Forall (fun c => c <> newline)) (info_lines abstract).
Proof.
  unfold info_lines, split_lines. apply filter_ok.
  pose proof (split_lines_no_newline abstract [] (Forall_nil _)) as H.
  induction H as [|piece pieces Hp _ IH]; [constructor|].
  cbn [map]. constructor; [apply strip_ok, Hp | exact IH].
Qed.

(** X23.  Whatever [clean_abstract] returns is a single line: it holds no
    line break, so that the cleaned abstracts can be written one to a
    line. *)
Theorem clean_abstract_returns_one_line :
  forall (abstract cleaned : str),
    clean_abstract abstract = Ok cleaned -> ~ In newline cleaned.
Proof.
  intros abstract cleaned H.
  assert (Hsp : " "%char <> newline) by discriminate.
  assert (Hok : Forall (fun c => c <> newline) cleaned);
    [|rewrite Forall_forall in Hok; intros Hin; exact (Hok _ Hin eq_refl)].
  unfold clean_abstract in H.
  pose proof (info_lines_no_newline abstract) as Hinfo.
  destruct (info_lines abstract) as [|a [|b [|c rest]]].
  - cbn in H. discriminate.
  - inversion Hinfo as [|? ? Ha _]; subst.
    destruct (subscript (split_ws a) 0) as [w|e]; cbv beta iota delta [bind] in H;
      [|discriminate].
    destruct (_ || _) in H; cbv beta iota delta [bind] in H; injection H as <-;
      apply remove_symbols_ok; try exact Hsp; [|exact Ha].
    apply join_space_ok; [exact Hsp|].
    apply (skipn_ok (Forall (fun c => c <> newline)) 1%nat (split_ws a)).
    apply split_ws_ok; [exact Ha | constructor].
  - inversion Hinfo as [|? ? Ha Hrest]; subst.
    inversion Hrest as [|? ? Hb _]; subst.
    cbv beta iota delta [bind] in H. injection H as <-.
    apply remove_symbols_ok; assumption.
  - cbv beta iota zeta in H.
    remember (a :: b :: c :: rest) as info eqn:Einfo.
    assert (Hfirst : subscript info 0 = Ok a) by (subst info; reflexivity).
    rewrite Hfirst in H. cbv beta iota delta [bind] in H.
    assert (Hjoin : forall l, Forall (Forall (fun c => c <> newline)) l ->
                              Forall (fun c => c <> newline)
                                     (remove_symbols (join_space l))).
    { intros l Hl. apply remove_symbols_ok; [exact Hsp|].
      apply join_space_ok; [exact Hsp | exact Hl]. }
    destruct (existsb _ section_titles) in H.
    + destruct (_ || _) in H; cbv beta iota delta [bind] in H; injection H as <-;
        apply Hjoin; unfold without_titles; apply filter_ok;
        [apply (skipn_ok _ 1%nat info)|]; exact Hinfo.
    + destruct (_ || _) in H;
        [cbv beta iota delta [bind] in H; injection H as <-;
         apply Hjoin, (skipn_ok _ 1%nat info), Hinfo|].
      destruct (_ || _) in H;
        [cbv beta iota delta [bind] in H; injection H as <-;
         apply Hjoin, (skipn_ok _ 1%nat info), Hinfo|].
      destruct (str_eqb a RETRACTION_NOTICE) in H; cbv beta iota delta [bind] in H;
        injection H as <-.
      * apply remove_symbols_ok; [exact Hsp|].
        apply Forall_forall. intros x Hx Heq. subst x.
        vm_compute in Hx. intuition discriminate.
      * apply Hjoin, Hinfo.
Qed.

Lemma clean_abstract_returns_one_line_witness :
  ~ In newline (lit "We did It worked").
Proof.
  apply (clean_abstract_returns_one_line
           (lit "Abstract" ++ newline :: lit "Background" ++ newline
              :: lit "We did" ++ newline :: lit "Results" ++ newline
              :: lit "It worked")).
  vm_compute. reflexivity.
Defined.

Lemma sub_tags_no_tag : forall t,
  Forall (fun c => c <> "<"%char) t -> sub_tags 0 t = t.
Proof.
  induction t as [|c r IH]; intros H; [reflexivity|].
  inversion H as [|? ? Hc Hr]; subst. cbn [sub_tags].
  unfold char_eqb. destruct (ascii_dec c "<"%char); [contradiction|].
  rewrite IH by exact Hr. reflexivity.
Qed.

(** X19.  [remove_symbols] returns a text that holds no copyright sign, no
    registered sign and no [<] exactly as it is: white space is only
    normalised, and text only cut, when one of the three is there. *)
Theorem remove_symbols_without_symbols :
  forall (abstract : str),
    forallb (fun c => negb (char_eqb c COPYRIGHT || char_eqb c REGISTERED
                            || char_eqb c "<"%char)) abstract = true ->
    remove_symbols abstract = abstract.
Proof.
  intros abstract H. rewrite forallb_forall in H.
  assert (Hc : Forall (fun c => c <> COPYRIGHT) abstract).
  { apply Forall_forall. intros x Hx ->. specialize (H _ Hx).
    vm_compute in H. discriminate. }
  assert (Hr : existsb (fun c => char_eqb c REGISTERED) abstract = false).
  { destruct (existsb _ abstract) eqn:E; [|reflexivity].
    apply existsb_exists in E as (x & Hx & Hxr). specialize (H _ Hx).
    rewrite Hxr, orb_true_r in H. discriminate. }
  assert (Ht : Forall (fun c => c <> "<"%char) abstract).
  { apply Forall_forall. intros x Hx ->. specialize (H _ Hx).
    vm_compute in H. discriminate. }
  assert (Hs : str_in [COPYRIGHT] (split_ws abstract) = false).
  { destruct (str_in _ _) eqn:E; [|reflexivity]. unfold str_in in E.
    apply existsb_exists in E as (tok & Htok & Heq).
    apply str_eqb_eq in Heq. subst tok.
    pose proof (split_ws_ok (fun c => c <> COPYRIGHT) abstract [] Hc
                            (Forall_nil _)) as Hall.
    rewrite Forall_forall in Hall. specialize (Hall _ Htok).
    inversion Hall; subst. congruence. }
  unfold remove_symbols. rewrite Hs, Hr. apply sub_tags_no_tag, Ht.
Qed.

Lemma remove_symbols_without_symbols_witness :
  remove_symbols (lit "Iron  oxide, twice   spaced. ")
  = lit "Iron  oxide, twice   spaced. ".
Proof.
  apply remove_symbols_without_symbols. vm_compute. reflexivity.
Defined.

(** ** Numbers and units *)

Lemma split_at_unit_app : forall t,
  fst (split_at_unit t) ++ snd (split_at_unit t) = t.
Proof.
  induction t as [|c r IH]; [reflexivity|]. cbn [split_at_unit].
  destruct (is_unit_start c); [reflexivity|].
  destruct (split_at_unit r) as [a b]. cbn [fst snd app] in *.
  rewrite IH. reflexivity.
Qed.

Lemma split_at_unit_number : forall t,
  split_at_unit (fst (split_at_unit t)) = (fst (split_at_unit t), []).
Proof.
  induction t as [|c r IH]; [reflexivity|]. cbn [split_at_unit].
  destruct (is_unit_start c) eqn:E; [reflexivity|].
  destruct (split_at_unit r) as [a b]. cbn [fst snd] in *.
  cbn [split_at_unit]. rewrite E, IH. reflexivity.
Qed.

Lemma split_at_unit_unit : forall t,
  nonempty (snd (split_at_unit t)) = true ->
  split_at_unit (snd (split_at_unit t)) = ([], snd (split_at_unit t)).
Proof.
  induction t as [|c r IH]; [discriminate|]. cbn [split_at_unit].
  destruct (is_unit_start c) eqn:E.
  - intros _. cbn [snd split_at_unit]. rewrite E. reflexivity.
  - destruct (split_at_unit r) as [a b]. cbn [fst snd] in *. exact IH.
Qed.

Lemma split_token_cases units token :
  split_token units token = [token]
  \/ exists number unit,
       split_at_unit token = (number, unit)
       /\ nonempty unit = true /\ is_number number = true
       /\ str_in unit units = true
       /\ split_token units token = [number; unit].
Proof.
  unfold split_token, UNIT_REGX_match.
  destruct (split_at_unit token) as [number unit] eqn:E.
  destruct (nonempty unit) eqn:Hne; cbn [andb]; [|left; reflexivity].
  destruct (is_number number) eqn:Hn; [|left; reflexivity].
  destruct (str_in unit units) eqn:Hin; [|left; reflexivity].
  right. exists number, unit. repeat split; assumption.
Qed.

(** X20.  [split_token] neither drops nor adds a character, and what it
    returns needs no second pass: the pieces of a token, put together, are
    the token, and [split_token] leaves each piece whole, whatever the
    table of units. *)
Theorem split_token_pieces :
  forall (units : list str) (token : str),
    List.concat (split_token units token) = token
    /\ Forall (fun piece => split_token units piece = [piece])
              (split_token units token).
Proof.
  intros units token.
  destruct (split_token_cases units token)
    as [H | (number & unit & E & Hne & Hn & Hin & H)]; rewrite H.
  - split; [cbn [List.concat]; apply app_nil_r|].
    constructor; [exact H | constructor].
  - pose proof (split_at_unit_app token) as Happ.
    pose proof (split_at_unit_number token) as Hnum.
    pose proof (split_at_unit_unit token) as Hunit.
    rewrite E in Happ, Hnum, Hunit. cbn [fst snd] in *.
    split; [cbn [List.concat]; rewrite app_nil_r; exact Happ|].
    constructor; [|constructor; [|constructor]].
    + unfold split_token, UNIT_REGX_match. rewrite Hnum. reflexivity.
    + unfold split_token, UNIT_REGX_match. rewrite (Hunit Hne), Hne.
      reflexivity.
Qed.

(** X24.  A token is split in two only at a unit of the table: the second
    piece is in [units], the first is a number and holds none of the
    characters that open a unit, and the second starts with one. *)
Theorem split_token_splits_at_unit :
  forall (units : list str) (token number unit : str),
    split_token units token = [number; unit] ->
    In unit units
    /\ is_number number = true
    /\ forallb (fun c => negb (is_unit_start c)) number = true
    /\ exists c rest, unit = c :: rest /\ is_unit_start c = true.
Proof.
  intros units token number unit Hsplit.
  destruct (split_token_cases units token)
    as [H | (number' & unit' & E & Hne & Hn & Hin & H)];
    rewrite H in Hsplit; [discriminate|].
  injection Hsplit as -> ->.
  split.
  { unfold str_in in Hin. apply existsb_exists in Hin as (u & Hu & Heq).
    apply str_eqb_eq in Heq. subst u. exact Hu. }
  split; [exact Hn|].
  clear H Hin Hn. revert number unit E Hne.
  induction token as [|c r IH]; intros number unit E Hne.
  - injection E as <- <-. discriminate.
  - cbn [split_at_unit] in E. destruct (is_unit_start c) eqn:Ec.
    + injection E as <- <-. split; [reflexivity|]. eauto.
    + destruct (split_at_unit r) as [a b]. injection E as <- <-.
      destruct (IH a b eq_refl Hne) as [Ha Hb].
      split; [|exact Hb]. cbn [forallb]. rewrite Ec, Ha. reflexivity.
Qed.

Lemma split_token_splits_at_unit_witness :
  In (lit "MHz") [lit "K"; lit "MHz"]
  /\ is_number (lit "2.5") = true
  /\ forallb (fun c => negb (is_unit_start c)) (lit "2.5") = true
  /\ exists c rest, lit "MHz" = c :: rest /\ is_unit_start c = true.
Proof.
  apply (split_token_splits_at_unit [lit "K"; lit "MHz"] (lit "2.5MHz")).
  vm_compute. reflexivity.
Defined.

Lemma flat_map_split_token_chars units : forall tokens,
  List.concat (flat_map (split_token units) tokens) = List.concat tokens.
Proof.
  induction tokens as [|t ts IH]; [reflexivity|].
  cbn [flat_map List.concat]. rewrite concat_app, IH.
  destruct (split_token_cases units t)
    as [H | (number & unit & E & _ & _ & _ & H)]; rewrite H.
  - cbn [List.concat]. rewrite app_nil_r. reflexivity.
  - pose proof (split_at_unit_app t) as Happ. rewrite E in Happ.
    cbn [fst snd] in Happ. cbn [List.concat]. rewrite app_nil_r, Happ.
    reflexivity.
Qed.

Lemma process_items_chars cwt_tokenize units : forall items tokens idxs out idxs',
  process_items cwt_tokenize (split_token units) items (tokens, idxs)
    = Ok (out, idxs') ->
  List.concat out
  = List.concat tokens ++ List.concat (map (item_chars cwt_tokenize) items).
Proof.
  induction items as [|[s|l] rest IH]; intros tokens idxs out idxs' H.
  - cbn [process_items] in H. injection H as <- <-.
    cbn [map List.concat]. rewrite app_nil_r. reflexivity.
  - cbn [process_items process_item bind] in H.
    rewrite (IH _ _ _ _ H), concat_app, flat_map_split_token_chars.
    cbn [map List.concat item_chars]. rewrite app_assoc. reflexivity.
  - cbn [process_items process_item] in H.
    destruct (subscript l 0) as [name|e]; cbn [bind] in H; [|discriminate].
    rewrite (IH _ _ _ _ H), concat_app.
    cbn [map List.concat item_chars]. rewrite app_assoc. reflexivity.
Qed.

(** X25.  With the unit rule of [split_token], [process_token_list] keeps
    every character that the word tokenizer hands over: the tokens it
    returns, put together, are the tokens of the plain items and the
    entity names of the [token_list], put together in order. *)
Theorem process_token_list_keeps_characters :
  forall (cwt_tokenize : str -> list str) (units : list str)
         (token_list : list item) (tokens : list str)
         (idxs : list idx_entry),
    process_token_list cwt_tokenize (split_token units) token_list
      = Ok (tokens, idxs) ->
    List.concat tokens
    = List.concat (map (item_chars cwt_tokenize) token_list).
Proof.
  intros cwt_tokenize units token_list tokens idxs H.
  unfold process_token_list in H.
  apply process_items_chars in H. exact H.
Qed.

Lemma process_token_list_keeps_characters_witness :
  List.concat [lit "at"; lit "300"; lit "K"; lit "TiO2"]
  = lit "at300KTiO2".
Proof.
  apply (process_token_list_keeps_characters
           (fun s => [lit "at"; lit "300K"]) [lit "K"]
           [Plain (lit "at 300K "); Entity [lit "TiO2"]]
           [lit "at"; lit "300"; lit "K"; lit "TiO2"]
           [(lit "TiO2", 3)]).
  vm_compute. reflexivity.
Defined.
